(** * HashJoin: a shallow embedding of src/Interpreters/HashJoin.cpp

    The development follows the C++ file top to bottom: the used-flags
    vector, the key-method chooser, ingestion of right blocks
    ([addJoinedBlock]), the probe loop ([joinRightColumns]), the cross-join
    driver ([joinBlockImplCross]), the probe dispatcher ([joinBlock]) and the
    non-joined stream factory.  Columns are modelled through the capability
    set the join core consumes; hash tables are finite maps from the tuple of
    key values to the mapped row reference(s). *)

From Stdlib Require Import ZArith NArith Lia.
From stdpp Require Import base option list strings gmap.

(** ** Enumerations *)

(** Modelled from the spec: ASTTableJoin::Kind and ASTTableJoin::Strictness
    are declared with the parser, outside the sources; these are the kinds
    and the strictness modes of the JOIN descriptor. *)
Inductive Kind := Inner | Left | Right | Full | Cross.
Inductive Strictness := RightAny | Any | All | Asof | Semi | Anti.

(** Modelled from the spec: HashJoin::Type is declared in HashJoin.h,
    outside the sources: three sentinels and the nine map variants of
    APPLY_FOR_JOIN_VARIANTS. *)
Inductive Type_ :=
  | EMPTY | CROSS | DICT
  | key8 | key16 | key32 | key64
  | key_string | key_fixed_string
  | keys128 | keys256 | hashed.

(** The error codes this translation unit throws, plus the one [Block]
    raises for a column name it does not hold. *)
Inductive ErrorCode :=
  | NOT_IMPLEMENTED | NO_SUCH_COLUMN_IN_TABLE | INCOMPATIBLE_TYPE_OF_JOIN
  | UNSUPPORTED_JOIN_KEYS | LOGICAL_ERROR | SYNTAX_ERROR
  | SET_SIZE_LIMIT_EXCEEDED | TYPE_MISMATCH | NUMBER_OF_ARGUMENTS_DOESNT_MATCH
  | NOT_FOUND_COLUMN_IN_BLOCK.

Global Instance Kind_eq_dec : EqDecision Kind.
Proof. solve_decision. Defined.
Global Instance Strictness_eq_dec : EqDecision Strictness.
Proof. solve_decision. Defined.
Global Instance Type_eq_dec : EqDecision Type_.
Proof. solve_decision. Defined.
Global Instance ErrorCode_eq_dec : EqDecision ErrorCode.
Proof. solve_decision. Defined.

(** A call either returns or throws. *)
Inductive Outcome (A : Type) :=
  | Ok (a : A)
  | Throw (e : ErrorCode).
Arguments Ok {A} a.
Arguments Throw {A} e.

Definition obind {A B} (o : Outcome A) (f : A -> Outcome B) : Outcome B :=
  match o with
  | Ok a => f a
  | Throw e => Throw e
  end.

Notation "'do' x <- c1 ; c2" := (obind c1 (fun x => c2))
  (at level 10, x pattern, c1 at level 100, c2 at level 200).

Fixpoint omapM {A B} (f : A -> Outcome B) (l : list A) : Outcome (list B) :=
  match l with
  | [] => Ok []
  | a :: l' => do b <- f a; do bs <- omapM f l'; Ok (b :: bs)
  end.

(** ** Columns and blocks

    Modelled from the spec: the columnar layer (IColumn, Block and the
    helpers of JoinCommon) is outside the sources.  The join core uses it
    through the capability set the specification lists (rows, clone_empty,
    insert_from, insert_many_from, insert_default, replicate, filter,
    size_of_fixed, is_fixed_contiguous, is_numeric) and through lookups by
    name and position; each is modelled by what it does to the cells. *)

Inductive Value :=
  | VInt (z : Z)
  | VStr (s : string).

Global Instance Value_eq_dec : EqDecision Value.
Proof. solve_decision. Defined.

Global Instance Value_countable : Countable Value.
Proof.
  refine (inj_countable'
            (fun v => match v with VInt z => inl z | VStr s => inr s end)
            (fun x => match x with inl z => VInt z | inr s => VStr s end) _).
  intros []; reflexivity.
Defined.

(** The concrete column classes [chooseMethod] tells apart by typeid. *)
Inductive ColumnClass :=
  | ColumnString
  | ColumnFixedString
  | ColumnConst (nested : ColumnClass)
  | ColumnOther.

Global Instance ColumnClass_eq_dec : EqDecision ColumnClass.
Proof. solve_decision. Defined.

(** The part of the IColumn interface the join core calls. *)
Record IColumn := mkIColumn {
  col_class : ColumnClass;
  isFixedAndContiguous : bool;
  sizeOfValueIfFixed : N;
  isNumeric : bool;
}.

(** A named column.  A cell is [None] when the row is NULL; only a column
    with [col_nullable] (a ColumnNullable) carries a null map. *)
Record Column := mkColumn {
  col_name : string;
  col_type : IColumn;
  col_nullable : bool;
  col_cells : list (option Value);
}.

Definition Block := list Column.

Definition column_rows (c : Column) : nat := length (col_cells c).

(** Block::rows: the length of the first column, zero for no columns. *)
Definition block_rows (b : Block) : nat :=
  match b with
  | [] => 0
  | c :: _ => column_rows c
  end.

Definition block_has (b : Block) (name : string) : bool :=
  existsb (fun c => bool_decide (col_name c = name)) b.

Definition findByName (b : Block) (name : string) : option Column :=
  List.find (fun c => bool_decide (col_name c = name)) b.

Definition getByName (b : Block) (name : string) : Outcome Column :=
  match findByName b name with
  | Some c => Ok c
  | None => Throw NOT_FOUND_COLUMN_IN_BLOCK
  end.

Fixpoint getPositionByName_from (b : Block) (name : string) (pos : nat) : option nat :=
  match b with
  | [] => None
  | c :: b' =>
      if bool_decide (col_name c = name) then Some pos
      else getPositionByName_from b' name (S pos)
  end.

Definition getPositionByName (b : Block) (name : string) : Outcome nat :=
  match getPositionByName_from b name 0 with
  | Some p => Ok p
  | None => Throw NOT_FOUND_COLUMN_IN_BLOCK
  end.

Definition default_value (t : IColumn) : Value :=
  match col_class t with
  | ColumnString | ColumnFixedString | ColumnConst ColumnString
  | ColumnConst ColumnFixedString => VStr EmptyString
  | _ => VInt 0
  end.

(** IColumn::insertDefault: NULL for a nullable column, the type's default
    otherwise. *)
Definition default_cell (c : Column) : option Value :=
  if col_nullable c then None else Some (default_value (col_type c)).

Definition cloneEmpty (c : Column) : Column :=
  mkColumn (col_name c) (col_type c) (col_nullable c) [].

Definition convertColumnToNullable (c : Column) : Column :=
  mkColumn (col_name c) (col_type c) true (col_cells c).

Definition convertColumnsToNullable (b : Block) : Block :=
  map convertColumnToNullable b.

(** ColumnNullable::getNullMapData and getNestedColumn. *)
Definition getNullMapData (c : Column) : list bool :=
  map (fun x => bool_decide (x = None)) (col_cells c).

Definition nested_value (c : Column) (i : nat) : Value :=
  match col_cells c !! i with
  | Some (Some v) => v
  | _ => default_value (col_type c)
  end.

(** ** Key method chooser (HashJoin::chooseMethod) *)

Definition Sizes := list N.

Definition size_t_modulus : N := 2 ^ 64.
Definition size_t_add (a b : N) : N := ((a + b) mod size_t_modulus)%N.

(** The loop over the key columns: stops at the first column that is not
    fixed and contiguous; until then records each width in [key_sizes] and
    adds it to [keys_bytes]. *)
Fixpoint chooseMethod_loop (key_columns : list IColumn) (j : nat)
    (key_sizes : Sizes) (keys_bytes : N) : bool * Sizes * N :=
  match key_columns with
  | [] => (true, key_sizes, keys_bytes)
  | c :: rest =>
      if negb (isFixedAndContiguous c) then (false, key_sizes, keys_bytes)
      else
        chooseMethod_loop rest (S j)
          (<[j := sizeOfValueIfFixed c]> key_sizes)
          (size_t_add keys_bytes (sizeOfValueIfFixed c))
  end.

Definition is_ColumnString (c : IColumn) : bool :=
  match col_class c with
  | ColumnString => true
  | ColumnConst ColumnString => true
  | _ => false
  end.

Definition is_ColumnFixedString (c : IColumn) : bool :=
  match col_class c with
  | ColumnFixedString => true
  | _ => false
  end.

Definition only_column (key_columns : list IColumn) : option IColumn :=
  match key_columns with
  | [c] => Some c
  | _ => None
  end.

Definition numeric_method (size_of_field : N) : Outcome Type_ :=
  if (size_of_field =? 1)%N then Ok key8
  else if (size_of_field =? 2)%N then Ok key16
  else if (size_of_field =? 4)%N then Ok key32
  else if (size_of_field =? 8)%N then Ok key64
  else if (size_of_field =? 16)%N then Ok keys128
  else if (size_of_field =? 32)%N then Ok keys256
  else Throw LOGICAL_ERROR.

(** Returns the chosen tag together with [key_sizes] as the call leaves
    it (the vector is an in/out argument). *)
Definition chooseMethod (key_columns : list IColumn) (key_sizes : Sizes)
    : Outcome Type_ * Sizes :=
  let keys_size := length key_columns in
  if bool_decide (keys_size = 0) then (Ok CROSS, key_sizes)
  else
    let key_sizes := resize keys_size 0%N key_sizes in
    let '(all_fixed, key_sizes, keys_bytes) :=
      chooseMethod_loop key_columns 0 key_sizes 0%N in
    let single := only_column key_columns in
    if from_option isNumeric false single then
      (numeric_method (from_option sizeOfValueIfFixed 0%N single), key_sizes)
    else if all_fixed && (keys_bytes <=? 16)%N then (Ok keys128, key_sizes)
    else if all_fixed && (keys_bytes <=? 32)%N then (Ok keys256, key_sizes)
    else if from_option is_ColumnString false single then (Ok key_string, key_sizes)
    else if from_option is_ColumnFixedString false single then (Ok key_fixed_string, key_sizes)
    else (Ok hashed, key_sizes).

(** ** Row references and mapped values *)

(** A [Block *] held by a row reference: a block of the right storage
    (stable, identified by its position in [blocks]) or the block a
    dictionary reader returned. *)
Inductive BlockPtr :=
  | StoredBlock (i : nat)
  | ReadResult.

Global Instance BlockPtr_eq_dec : EqDecision BlockPtr.
Proof. solve_decision. Defined.

Record RowRef := mkRowRef {
  rr_block : BlockPtr;
  rr_row_num : nat;
}.

Global Instance RowRef_eq_dec : EqDecision RowRef.
Proof. solve_decision. Defined.

(** Modelled from the spec: RowRefList is declared in RowRefs.h, which is
    not among the sources.  A chain is a head row reference stored inline
    plus an overflow list; inserting prepends a node to the overflow, and
    iteration visits the head first and then the overflow. *)
Record RowRefList := mkRowRefList {
  rl_head : RowRef;
  rl_next : list RowRef;
}.

Definition RowRefList_insert (r : RowRef) (l : RowRefList) : RowRefList :=
  mkRowRefList (rl_head l) (r :: rl_next l).

Definition RowRefList_iter (l : RowRefList) : list RowRef :=
  rl_head l :: rl_next l.

Inductive Inequality := Less | LessOrEqual | Greater | GreaterOrEqual.

(** Modelled from the spec: AsofRowRefs is declared in RowRefs.h, which is
    not among the sources.  Per equi-key group it holds the entries
    (asof value, row reference); [findAsof] returns the entry whose value is
    extremal among those that satisfy the inequality against the probe. *)
Definition AsofRowRefs := list (Z * RowRef).

Definition AsofRowRefs_insert (v : Z) (r : RowRef) (a : AsofRowRefs) : AsofRowRefs :=
  a ++ [(v, r)].

Definition asof_candidate (ineq : Inequality) (probe v : Z) : bool :=
  match ineq with
  | Less => (v <? probe)%Z
  | LessOrEqual => (v <=? probe)%Z
  | Greater => (probe <? v)%Z
  | GreaterOrEqual => (probe <=? v)%Z
  end.

Definition asof_better (ineq : Inequality) (v best : Z) : bool :=
  match ineq with
  | Less | LessOrEqual => (best <? v)%Z
  | Greater | GreaterOrEqual => (v <? best)%Z
  end.

Fixpoint findAsof_from (ineq : Inequality) (probe : Z) (a : AsofRowRefs)
    (best : option (Z * RowRef)) : option (Z * RowRef) :=
  match a with
  | [] => best
  | (v, r) :: a' =>
      let best' :=
        if asof_candidate ineq probe v then
          match best with
          | None => Some (v, r)
          | Some (b, _) => if asof_better ineq v b then Some (v, r) else best
          end
        else best in
      findAsof_from ineq probe a' best'
  end.

Definition findAsof (ineq : Inequality) (probe : Z) (a : AsofRowRefs) : option RowRef :=
  snd <$> findAsof_from ineq probe a None.

(** The three mapped types of MapsOne, MapsAll and MapsAsof. *)
Inductive Mapped :=
  | MRowRef (r : RowRef)
  | MRowRefList (l : RowRefList)
  | MAsofRowRefs (a : AsofRowRefs).

Inductive MapsAlternative := MapsOne | MapsAll | MapsAsof.

(** MapGetter<KIND, STRICTNESS>::Map.  HashJoin.h is not among the sources;
    the alternative is the one each probe branch of [joinRightColumns]
    reads: a chain wherever the branch iterates the mapped value
    (addFoundRowAll), a single row reference wherever it reads
    mapped.block, the ordered structure for ASOF.  The branches that never
    read the mapped value (ANTI, ANY FULL) keep a chain for RIGHT and FULL
    kinds. *)
Definition MapGetter_Map (k : Kind) (s : Strictness) : MapsAlternative :=
  match s, k with
  | Asof, _ => MapsAsof
  | All, _ => MapsAll
  | Any, Right | Semi, Right | Anti, Right => MapsAll
  | Any, Full => MapsAll
  | _, _ => MapsOne
  end.

(** ** Hash tables

    Modelled from the spec: the hash tables (HashMap.h, HashTable.h) are
    outside the sources.  A table maps the tuple of (non-null) key values
    of a row to the ordinal of the cell that holds the key and the mapped
    value.  The ordinal stands for the position of the cell in the buffer,
    which the code reads through getOffset and uses as the index of the
    used flag.  The layout of the buffer (hash function, collisions,
    resizes) is not part of the embedding: ordinal 0 is the zero-key
    storage and the cells are numbered from 1 in insertion order.  The
    properties of the used flags are stated over the ordinals the cells
    carry, whatever they are. *)
Definition Key := list Value.
Abbreviation HashMap := (gmap Key (nat * Mapped)).

(** Inserter::insertOne, insertAll and insertAsof: emplace the key, then
    construct or extend the mapped value. *)
Definition insertOne (any_take_last_row : bool) (m : HashMap) (key : Key)
    (ref : RowRef) : HashMap :=
  match m !! key with
  | None => <[key := (S (size m), MRowRef ref)]> m
  | Some (off, _) =>
      if any_take_last_row then <[key := (off, MRowRef ref)]> m else m
  end.

Definition insertAll (m : HashMap) (key : Key) (ref : RowRef) : HashMap :=
  match m !! key with
  | None => <[key := (S (size m), MRowRefList (mkRowRefList ref []))]> m
  | Some (off, MRowRefList l) =>
      <[key := (off, MRowRefList (RowRefList_insert ref l))]> m
  | Some _ => m
  end.

Definition insertAsof (m : HashMap) (key : Key) (ref : RowRef) (asof_value : Z)
    : HashMap :=
  match m !! key with
  | None => <[key := (S (size m), MAsofRowRefs (AsofRowRefs_insert asof_value ref []))]> m
  | Some (off, MAsofRowRefs a) =>
      <[key := (off, MAsofRowRefs (AsofRowRefs_insert asof_value ref a))]> m
  | Some _ => m
  end.

Definition value_as_Z (v : Value) : Z :=
  match v with
  | VInt z => z
  | VStr _ => 0%Z
  end.

(** createKeyGetter: for ASOF the last key column is the inequality key and
    is not part of the hashed key. *)
Definition key_getter_columns (is_asof_join : bool) (key_columns : list Column)
    : list Column :=
  if is_asof_join then removelast key_columns else key_columns.

Definition key_at (getter_columns : list Column) (i : nat) : Key :=
  map (fun c => nested_value c i) getter_columns.

(** ** Null maps (NullableUtils.cpp) *)

Definition getNestedColumn (c : Column) : Column :=
  mkColumn (col_name c) (col_type c) false
    (map (fun x => Some (from_option id (default_value (col_type c)) x)) (col_cells c)).

Definition or_null_maps (acc other : list bool) : list bool :=
  imap (fun i b => b || default false (other !! i)) acc.

Fixpoint extractNested_many (key_columns : list Column) (holder : option (list bool))
    : list Column * option (list bool) :=
  match key_columns with
  | [] => ([], holder)
  | c :: rest =>
      if col_nullable c then
        let holder' :=
          match holder with
          | None => Some (getNullMapData c)
          | Some h => Some (or_null_maps h (getNullMapData c))
          end in
        let '(rest', res) := extractNested_many rest holder' in
        (getNestedColumn c :: rest', res)
      else
        let '(rest', res) := extractNested_many rest holder in
        (c :: rest', res)
  end.

(** Replaces nullable key columns by their nested columns and returns the
    map of positions where at least one key column is NULL ([None] when no
    key column is nullable). *)
Definition extractNestedColumnsAndNullMap (key_columns : list Column)
    : list Column * option (list bool) :=
  match key_columns with
  | [c] =>
      if col_nullable c then ([getNestedColumn c], Some (getNullMapData c))
      else ([c], None)
  | _ => extractNested_many key_columns None
  end.

(** ** Used flags (JoinStuff::JoinUsedFlags) *)

Record JoinUsedFlags := mkJoinUsedFlags {
  need_flags : bool;
  flags : list bool;
}.

Definition JoinUsedFlags_init : JoinUsedFlags := mkJoinUsedFlags false [].

(** setUsed<use_flags>, getUsed<use_flags> and setUsedOnce<use_flags>.  An
    index outside the vector is undefined behaviour in the source; here the
    store leaves the vector alone and the load reads false. *)
Definition setUsed (use_flags : bool) (i : nat) (f : JoinUsedFlags) : JoinUsedFlags :=
  if use_flags then mkJoinUsedFlags (need_flags f) (<[i := true]> (flags f)) else f.

Definition getUsed (use_flags : bool) (i : nat) (f : JoinUsedFlags) : bool :=
  if use_flags then default false (flags f !! i) else true.

Definition setUsedOnce (use_flags : bool) (i : nat) (f : JoinUsedFlags)
    : bool * JoinUsedFlags :=
  if use_flags then
    if default false (flags f !! i) then (false, f)
    else (true, mkJoinUsedFlags (need_flags f) (<[i := true]> (flags f)))
  else (true, f).

Definition getUsedSafe (i : nat) (f : JoinUsedFlags) : bool :=
  match flags f with
  | [] => negb (need_flags f)
  | _ => default false (flags f !! i)
  end.

(** ** Configuration and state *)

(** Modelled from the spec: SizeLimits is declared outside the sources.
    The build side has a maximum number of rows and of bytes (zero means
    unlimited); a violation either throws SetSizeLimitExceeded or makes
    [check] return false. *)
Inductive OverflowMode := THROW | BREAK.

Record SizeLimits := mkSizeLimits {
  max_rows : nat;
  max_bytes : nat;
  overflow_mode : OverflowMode;
}.

Definition SizeLimits_check (l : SizeLimits) (rows bytes : nat) (code : ErrorCode)
    : Outcome bool :=
  if (negb (max_rows l =? 0) && (max_rows l <? rows))
     || (negb (max_bytes l =? 0) && (max_bytes l <? bytes))
  then match overflow_mode l with
       | THROW => Throw code
       | BREAK => Ok false
       end
  else Ok true.

(** DictionaryReader::readKeys: for a key column, the block read from the
    dictionary, the found mask and the row positions inside that block. *)
Definition DictionaryReader := Column -> Block * list bool * list nat.

(** The settings of TableJoin the join core reads. *)
Record TableJoin := mkTableJoin {
  tj_kind : Kind;
  tj_strictness : Strictness;
  keyNamesRight : list (list string);
  keyNamesLeft : list (list string);
  forceNullableRight : bool;
  forceNullableLeft : bool;
  getAsofInequality : Inequality;
  forceHashJoin : bool;
  maxJoinedBlockRows : nat;
  sizeLimits : SizeLimits;
  dictionary_reader : option DictionaryReader;
  requiredRightKeys : list string;
}.

Record RightTableData := mkRightTableData {
  type : Type_;
  empty : bool;
  maps : list HashMap;
  blocks : list Block;
  blocks_nullmaps : list (nat * list bool);
  sample_block : Block;
}.

Record HashJoin := mkHashJoin {
  table_join : TableJoin;
  kind : Kind;
  strictness : Strictness;
  key_names_right : list (list string);
  key_names_left : list (list string);
  nullable_right_side : bool;
  nullable_left_side : bool;
  any_take_last_row : bool;
  asof_inequality : Inequality;
  data : RightTableData;
  key_sizes : list Sizes;
  right_table_keys : Block;
  required_right_keys : Block;
  required_right_keys_sources : list string;
  sample_block_with_columns_to_add : Block;
  used_flags : JoinUsedFlags;
  storage_join_lock : bool;
}.

Definition set_data (hj : HashJoin) (d : RightTableData) : HashJoin :=
  mkHashJoin (table_join hj) (kind hj) (strictness hj) (key_names_right hj)
    (key_names_left hj) (nullable_right_side hj) (nullable_left_side hj)
    (any_take_last_row hj) (asof_inequality hj) d (key_sizes hj)
    (right_table_keys hj) (required_right_keys hj) (required_right_keys_sources hj)
    (sample_block_with_columns_to_add hj)
    (used_flags hj) (storage_join_lock hj).

Definition set_used_flags (hj : HashJoin) (f : JoinUsedFlags) : HashJoin :=
  mkHashJoin (table_join hj) (kind hj) (strictness hj) (key_names_right hj)
    (key_names_left hj) (nullable_right_side hj) (nullable_left_side hj)
    (any_take_last_row hj) (asof_inequality hj) (data hj) (key_sizes hj)
    (right_table_keys hj) (required_right_keys hj) (required_right_keys_sources hj)
    (sample_block_with_columns_to_add hj)
    f (storage_join_lock hj).

Definition set_maps (d : RightTableData) (ms : list HashMap) : RightTableData :=
  mkRightTableData (type d) (empty d) ms (blocks d) (blocks_nullmaps d) (sample_block d).

Definition isLeft (k : Kind) : bool := bool_decide (k = Left).
Definition isInner (k : Kind) : bool := bool_decide (k = Inner).
Definition isFull (k : Kind) : bool := bool_decide (k = Full).

(** Modelled from the spec: isRightOrFull and isInnerOrRight are declared
    with ASTTableJoin, outside the sources; they test kind ∈ {Right, Full}
    and kind ∈ {Inner, Right}. *)
Definition isRightOrFull (k : Kind) : bool :=
  bool_decide (k = Right) || bool_decide (k = Full).

Definition isInnerOrRight (k : Kind) : bool :=
  bool_decide (k = Inner) || bool_decide (k = Right).

(** Modelled from the spec: joinDispatch is declared in joinDispatch.h,
    outside the sources.  It runs the callback for the kinds Left, Inner,
    Full and Right under each of the six strictness modes and reports
    whether a combination matched; Cross is never dispatched. *)
Definition joinDispatch_matches (k : Kind) (s : Strictness) : bool :=
  negb (bool_decide (k = Cross)).

Definition overDictionary (hj : HashJoin) : bool :=
  bool_decide (type (data hj) = DICT).

Definition HashJoin_empty (hj : HashJoin) : bool :=
  bool_decide (type (data hj) = EMPTY).

Definition alwaysReturnsEmptySet (hj : HashJoin) : bool :=
  isInnerOrRight (kind hj) && empty (data hj) && negb (overDictionary hj).

(** Quantities the hash-table and allocator layers report.  Their code is
    outside the sources, so the embedding takes them as parameters:
    the number of cells of a table's buffer, the per-table row and byte
    counters, the bytes of a block and of the arena, and the compile-time
    table MapGetter<KIND, STRICTNESS>::flagged. *)
Record Runtime := mkRuntime {
  getBufferSizeInCells : HashMap -> nat;
  map_getTotalRowCount : HashMap -> nat;
  map_getTotalByteCountImpl : HashMap -> nat;
  block_bytes : Block -> nat;
  pool_size : list HashMap -> nat;
  flagged : Kind -> Strictness -> bool;
}.

Section Build.

Variable rt : Runtime.

(** JoinUsedFlags::reinit<KIND, STRICTNESS>(size).  The assert on the
    previous size is compiled out of release builds and is not modelled. *)
Definition reinit (k : Kind) (s : Strictness) (size : nat) (f : JoinUsedFlags)
    : JoinUsedFlags :=
  if flagged rt k s then mkJoinUsedFlags true (replicate size false) else f.

Definition sum_list (l : list nat) : nat := foldr Nat.add 0 l.

Definition getTotalRowCount (hj : HashJoin) : nat :=
  if bool_decide (type (data hj) = CROSS) then
    sum_list (map block_rows (blocks (data hj)))
  else if negb (bool_decide (type (data hj) = DICT)) then
    if joinDispatch_matches (kind hj) (strictness hj)
    then sum_list (map (map_getTotalRowCount rt) (maps (data hj)))
    else 0
  else 0.

Definition getTotalByteCount (hj : HashJoin) : nat :=
  if bool_decide (type (data hj) = CROSS) then
    sum_list (map (block_bytes rt) (blocks (data hj)))
  else if negb (bool_decide (type (data hj) = DICT)) then
    (if joinDispatch_matches (kind hj) (strictness hj)
     then sum_list (map (map_getTotalByteCountImpl rt) (maps (data hj)))
     else 0)
    + pool_size rt (maps (data hj))
  else 0.

(** *** Ingestion (HashJoin::addJoinedBlock) *)

Definition convertToFullColumnIfConst (c : Column) : Column :=
  match col_class (col_type c) with
  | ColumnConst nested =>
      mkColumn (col_name c)
        (mkIColumn nested (isFixedAndContiguous (col_type c))
           (sizeOfValueIfFixed (col_type c)) (isNumeric (col_type c)))
        (col_nullable c) (col_cells c)
  | _ => c
  end.

Definition materializeBlock (b : Block) : Block := map convertToFullColumnIfConst b.

Definition materializeColumns (b : Block) (names : list string) : Outcome (list Column) :=
  omapM (fun n => do c <- getByName b n; Ok (convertToFullColumnIfConst c)) names.

Fixpoint index_of (name : string) (l : list string) (pos : nat) : option nat :=
  match l with
  | [] => None
  | n :: l' => if bool_decide (n = name) then Some pos else index_of name l' (S pos)
  end.

(** The inner loop over the key names of one disjunct: a name already in
    [all_key_names_right] is referred to by its position, a new one is
    appended. *)
Fixpoint key_indexes_of (names all_key_names_right : list string)
    : list nat * list string :=
  match names with
  | [] => ([], all_key_names_right)
  | n :: rest =>
      match index_of n all_key_names_right 0 with
      | None =>
          let '(idx, all') := key_indexes_of rest (all_key_names_right ++ [n]) in
          (length all_key_names_right :: idx, all')
      | Some p =>
          let '(idx, all') := key_indexes_of rest all_key_names_right in
          (p :: idx, all')
      end
  end.

Fixpoint key_indexes_from (disjuncts : list (list string))
    (all_key_names_right : list string) : list (list nat) * list string :=
  match disjuncts with
  | [] => ([], all_key_names_right)
  | names :: rest =>
      let '(idx, all1) := key_indexes_of names all_key_names_right in
      let '(idxs, all2) := key_indexes_from rest all1 in
      (idx :: idxs, all2)
  end.

(** [all_key_names_right] and [key_names_right_indexes]. *)
Definition key_names_right_indexes (key_names_right : list (list string))
    : list string * list (list nat) :=
  let first := hd [] key_names_right in
  let '(idxs, all) := key_indexes_from (tail key_names_right) first in
  (all, seq 0 (length first) :: idxs).

Definition structureRightBlock (hj : HashJoin) (block : Block) : Outcome Block :=
  omapM (fun sample_column =>
           do column <- getByName block (col_name sample_column);
           Ok (if col_nullable sample_column
               then convertColumnToNullable column else column))
        (sample_block (data hj)).

Definition null_at (null_map : option (list bool)) (i : nat) : bool :=
  match null_map with
  | Some nm => default false (nm !! i)
  | None => false
  end.

(** One iteration of the row loop of insertFromBlockImplTypeCase. *)
Definition insert_row (k : Kind) (s : Strictness) (any_take_last : bool)
    (key_columns : list Column) (stored_block : BlockPtr)
    (null_map : option (list bool)) (m : HashMap) (i : nat) : HashMap :=
  let is_asof_join := bool_decide (s = Asof) in
  let key := key_at (key_getter_columns is_asof_join key_columns) i in
  if null_at null_map i then m
  else if is_asof_join then
    match last key_columns with
    | Some asof_column =>
        insertAsof m key (mkRowRef stored_block i) (value_as_Z (nested_value asof_column i))
    | None => m
    end
  else match MapGetter_Map k s with
       | MapsOne => insertOne any_take_last m key (mkRowRef stored_block i)
       | _ => insertAll m key (mkRowRef stored_block i)
       end.

Definition insertFromBlockImplTypeCase (k : Kind) (s : Strictness) (any_take_last : bool)
    (m : HashMap) (rows : nat) (key_columns : list Column) (stored_block : BlockPtr)
    (null_map : option (list bool)) : HashMap * nat :=
  let m' := foldl (insert_row k s any_take_last key_columns stored_block null_map)
              m (seq 0 rows) in
  (m', getBufferSizeInCells rt m').

Definition insertFromBlockImpl (k : Kind) (s : Strictness) (any_take_last : bool)
    (t : Type_) (m : HashMap) (rows : nat) (key_columns : list Column)
    (stored_block : BlockPtr) (null_map : option (list bool)) : HashMap * nat :=
  match t with
  | EMPTY | CROSS | DICT => (m, 0)
  | _ => insertFromBlockImplTypeCase k s any_take_last m rows key_columns stored_block null_map
  end.

Inductive DisjunctLoop :=
  | LoopDone (hj : HashJoin) (save_a_nullmap : bool) (total_rows total_bytes : nat)
  | LoopReturn (hj : HashJoin) (r : bool)
  | LoopThrow (hj : HashJoin) (e : ErrorCode).

(** The body run for disjunct [d]: extract its key columns and null map,
    insert the rows into maps[d] and re-create the used flags. *)
Definition addJoinedBlock_insert (hj : HashJoin) (d : nat) (rows : nat)
    (key_columns : list Column) (stored_block : BlockPtr)
    (null_map : option (list bool)) : HashJoin :=
  if bool_decide (kind hj = Cross) then hj
  else if joinDispatch_matches (kind hj) (strictness hj) then
    match maps (data hj) !! d with
    | Some m =>
        let '(m', size) :=
          insertFromBlockImpl (kind hj) (strictness hj) (any_take_last_row hj)
            (type (data hj)) m rows key_columns stored_block null_map in
        set_used_flags
          (set_data hj (set_maps (data hj) (<[d := m']> (maps (data hj)))))
          (reinit (kind hj) (strictness hj) (size + 1) (used_flags hj))
    | None => hj
    end
  else hj.

Fixpoint addJoinedBlock_disjuncts (ds : list nat) (indexes : list (list nat))
    (all_key_columns : list Column) (rows : nat) (stored_block : BlockPtr)
    (check_limits : bool) (hj : HashJoin) (save_a_nullmap : bool)
    (total_rows total_bytes : nat) : DisjunctLoop :=
  match ds with
  | [] => LoopDone hj save_a_nullmap total_rows total_bytes
  | d :: ds' =>
      let key_columns :=
        omap (fun ind => all_key_columns !! ind) (default [] (indexes !! d)) in
      let '(key_columns, null_map) := extractNestedColumnsAndNullMap key_columns in
      let save_nullmap :=
        isRightOrFull (kind hj) && from_option (existsb id) false null_map in
      let save_a_nullmap := save_a_nullmap || save_nullmap in
      if storage_join_lock hj then LoopThrow hj LOGICAL_ERROR
      else
        let hj1 := addJoinedBlock_insert hj d rows key_columns stored_block null_map in
        if negb check_limits then LoopReturn hj1 true
        else addJoinedBlock_disjuncts ds' indexes all_key_columns rows stored_block
               check_limits hj1 save_a_nullmap
               (getTotalRowCount hj1) (getTotalByteCount hj1)
  end.

Definition u32_max : N := 4294967295.

Definition append_block (hj : HashJoin) (structured_block : Block) (rows : nat)
    : HashJoin :=
  let d := data hj in
  set_data hj
    (mkRightTableData (type d) (if bool_decide (rows = 0) then empty d else false)
       (maps d) (blocks d ++ [structured_block]) (blocks_nullmaps d) (sample_block d)).

Definition save_nullmap_of (hj : HashJoin) (stored_block : nat)
    (all_key_columns : list Column) : HashJoin :=
  let d := data hj in
  let '(_, null_map_holder) := extractNestedColumnsAndNullMap all_key_columns in
  set_data hj
    (mkRightTableData (type d) (empty d) (maps d) (blocks d)
       (blocks_nullmaps d ++ [(stored_block, default [] null_map_holder)])
       (sample_block d)).

(** HashJoin::addJoinedBlock.  The result pairs what the call returns or
    throws with the state it leaves behind: the block is appended to the
    right storage before the per-disjunct loop runs, so a later throw keeps
    it. *)
Definition addJoinedBlock (hj : HashJoin) (source_block : Block) (check_limits : bool)
    : Outcome bool * HashJoin :=
  if HashJoin_empty hj then (Throw LOGICAL_ERROR, hj)
  else if overDictionary hj then (Throw LOGICAL_ERROR, hj)
  else if (u32_max <? N.of_nat (block_rows source_block))%N
  then (Throw NOT_IMPLEMENTED, hj)
  else
    let block := materializeBlock source_block in
    let rows := block_rows block in
    let '(all_key_names_right, indexes) := key_names_right_indexes (key_names_right hj) in
    match materializeColumns block all_key_names_right with
    | Throw e => (Throw e, hj)
    | Ok all_key_columns =>
        match structureRightBlock hj block with
        | Throw e => (Throw e, hj)
        | Ok structured_block =>
            let structured_block :=
              if nullable_right_side hj && (1 <? length (key_names_right hj))
              then convertColumnsToNullable structured_block
              else structured_block in
            let stored_block := length (blocks (data hj)) in
            let hj0 := append_block hj structured_block rows in
            match addJoinedBlock_disjuncts (seq 0 (length (key_names_right hj)))
                    indexes all_key_columns rows (StoredBlock stored_block)
                    check_limits hj0 false 0 0 with
            | LoopThrow hj1 e => (Throw e, hj1)
            | LoopReturn hj1 r => (Ok r, hj1)
            | LoopDone hj1 save_a_nullmap total_rows total_bytes =>
                let hj2 :=
                  if save_a_nullmap
                  then save_nullmap_of hj1 stored_block all_key_columns
                  else hj1 in
                (SizeLimits_check (sizeLimits (table_join hj)) total_rows total_bytes
                   SET_SIZE_LIMIT_EXCEEDED, hj2)
            end
        end
    end.

(** *** Construction (HashJoin::HashJoin, initRightBlockStructure) *)

Definition convertColumnsToNullable_from (b : Block) (starting_pos : nat) : Block :=
  imap (fun i c => if starting_pos <=? i then convertColumnToNullable c else c) b.

Definition initRightBlockStructure (tj : TableJoin) (right_table_keys : Block)
    (sample_block_with_columns_to_add : Block) : Block :=
  let save_key_columns :=
    negb (forceHashJoin tj) || isRightOrFull (tj_kind tj)
    || (1 <? length (keyNamesRight tj)) in
  let saved_block_sample :=
    if save_key_columns then map cloneEmpty right_table_keys
    else if bool_decide (tj_strictness tj = Asof)
    then from_option (fun c => [c]) [] (last right_table_keys)
    else [] in
  let saved_block_sample :=
    foldl (fun saved column =>
             if block_has saved (col_name column) then saved else saved ++ [column])
          saved_block_sample sample_block_with_columns_to_add in
  if forceNullableRight tj then
    convertColumnsToNullable_from saved_block_sample
      (if isFull (tj_kind tj) then length right_table_keys else 0)
  else saved_block_sample.

(** Modelled from the spec: TableJoin::splitAdditionalColumns is outside
    the sources.  It splits the right sample block into the key columns (in
    key order, each name once) and the remaining columns to add. *)
Fixpoint splitAdditionalColumns (names : list string) (block_keys block_others : Block)
    : Block * Block :=
  match names with
  | [] => (block_keys, block_others)
  | n :: rest =>
      if block_has block_keys n then splitAdditionalColumns rest block_keys block_others
      else match findByName block_others n with
           | Some col =>
               splitAdditionalColumns rest (block_keys ++ [col])
                 (List.filter (fun c => negb (bool_decide (col_name c = n))) block_others)
           | None => splitAdditionalColumns rest block_keys block_others
           end
  end.

(** Modelled from the spec: TableJoin::getRequiredRightKeys is outside the
    sources.  The required right keys are the right key columns the caller
    expects in the joined block although they equal the left keys
    ([requiredRightKeys], a setting of the descriptor).  Each is taken once
    from the right key block, in key order, and paired with the name of the
    left key at the same position, the column whose values stand for it. *)
Fixpoint getRequiredRightKeys_loop (required : list string) (right_table_keys : Block)
    (right_keys left_keys : list string) (required_right_keys : Block)
    (keys_sources : list string) : Outcome (Block * list string) :=
  match right_keys, left_keys with
  | right_key_name :: right_keys', left_key_name :: left_keys' =>
      if bool_decide (right_key_name ∈ required)
         && negb (block_has required_right_keys right_key_name)
      then
        do right_key <- getByName right_table_keys right_key_name;
        getRequiredRightKeys_loop required right_table_keys right_keys' left_keys'
          (required_right_keys ++ [right_key]) (keys_sources ++ [left_key_name])
      else
        getRequiredRightKeys_loop required right_table_keys right_keys' left_keys'
          required_right_keys keys_sources
  | _, _ => Ok (required_right_keys, keys_sources)
  end.

Definition getRequiredRightKeys (tj : TableJoin) (right_table_keys : Block)
    : Outcome (Block * list string) :=
  getRequiredRightKeys_loop (requiredRightKeys tj) right_table_keys
    (hd [] (keyNamesRight tj)) (hd [] (keyNamesLeft tj)) [] [].

(** Modelled from the spec: JoinCommon::extractKeysForJoin is outside the
    sources; it returns the named key columns, nullable ones replaced by
    their nested column (only non-null keys are joined). *)
Definition extractKeysForJoin (block_keys : Block) (names : list string)
    : Outcome (list Column) :=
  omapM (fun n => do c <- getByName block_keys n;
                  Ok (if col_nullable c then getNestedColumn c else c)) names.

(** The constructor's loop over the disjuncts: chooses the method of each
    and falls back to [hashed] when two disjuncts disagree. *)
Fixpoint ctor_disjuncts (tj : TableJoin) (right_table_keys : Block)
    (disjuncts : list (list string)) (join_method : Type_)
    : Outcome (Type_ * list Sizes) :=
  match disjuncts with
  | [] => Ok (join_method, [])
  | names :: rest =>
      do key_columns <- extractKeysForJoin right_table_keys names;
      match dictionary_reader tj with
      | Some _ =>
          let '(chosen, sizes) := chooseMethod (map col_type key_columns) [] in
          do _ <- chosen;
          do (t, sizes_rest) <- ctor_disjuncts tj right_table_keys rest DICT;
          Ok (t, sizes :: sizes_rest)
      | None =>
          do (key_columns, sizes0) <-
            (if bool_decide (tj_strictness tj = Asof) then
               if negb (isLeft (tj_kind tj)) && negb (isInner (tj_kind tj))
               then Throw NOT_IMPLEMENTED
               else if length key_columns <=? 1 then Throw SYNTAX_ERROR
               else
                 do asof_column <-
                   getByName right_table_keys
                     (default EmptyString (last (hd [] (keyNamesRight tj))));
                 if col_nullable asof_column then Throw NOT_IMPLEMENTED
                 else Ok (removelast key_columns,
                          [from_option (fun c => sizeOfValueIfFixed (col_type c)) 0%N
                             (last key_columns)])
             else Ok (key_columns, []));
          let '(chosen, sizes) := chooseMethod (map col_type key_columns) sizes0 in
          do current_join_method <- chosen;
          let join_method :=
            if bool_decide (join_method = EMPTY) then current_join_method
            else if bool_decide (join_method = current_join_method) then join_method
            else hashed in
          do (t, sizes_rest) <- ctor_disjuncts tj right_table_keys rest join_method;
          Ok (t, sizes :: sizes_rest)
      end
  end.

Definition HashJoin_ctor (tj : TableJoin) (right_sample_block : Block)
    (any_take_last_row_ : bool) : Outcome HashJoin :=
  let multiple_disjuncts := 1 <? length (keyNamesRight tj) in
  let '(right_table_keys, columns_to_add) :=
    if multiple_disjuncts
    then (materializeBlock right_sample_block, materializeBlock right_sample_block)
    else splitAdditionalColumns (hd [] (keyNamesRight tj)) []
           (materializeBlock right_sample_block) in
  do (required_right_keys, required_right_keys_sources) <-
    (if multiple_disjuncts then Ok ([], [])
     else getRequiredRightKeys tj right_table_keys);
  let saved_block_sample := initRightBlockStructure tj right_table_keys columns_to_add in
  let columns_to_add :=
    if forceNullableRight tj then convertColumnsToNullable columns_to_add
    else columns_to_add in
  do (join_method, sizes) <- ctor_disjuncts tj right_table_keys (keyNamesRight tj) EMPTY;
  Ok (mkHashJoin tj (tj_kind tj) (tj_strictness tj) (keyNamesRight tj) (keyNamesLeft tj)
        (forceNullableRight tj) (forceNullableLeft tj) any_take_last_row_
        (getAsofInequality tj)
        (mkRightTableData join_method true
           (replicate (length (keyNamesRight tj)) ∅) [] [] saved_block_sample)
        sizes right_table_keys required_right_keys required_right_keys_sources
        columns_to_add JoinUsedFlags_init false).

(** *** Probe (joinRightColumns) *)

(** JoinFeatures<KIND, STRICTNESS>. *)
Definition is_any_join (s : Strictness) : bool := bool_decide (s = Any).
Definition is_all_join (s : Strictness) : bool := bool_decide (s = All).
Definition is_asof_join (s : Strictness) : bool := bool_decide (s = Asof).
Definition is_semi_join (s : Strictness) : bool := bool_decide (s = Semi).
Definition is_anti_join (s : Strictness) : bool := bool_decide (s = Anti).

Definition need_replication (k : Kind) (s : Strictness) : bool :=
  is_all_join s || (is_any_join s && bool_decide (k = Right))
  || (is_semi_join s && bool_decide (k = Right)).

Definition need_filter (k : Kind) (s : Strictness) : bool :=
  negb (need_replication k s)
  && (bool_decide (k = Inner) || bool_decide (k = Right)
      || (is_semi_join s && bool_decide (k = Left))
      || (is_anti_join s && bool_decide (k = Left))).

Definition add_missing (k : Kind) (s : Strictness) : bool :=
  (bool_decide (k = Left) || bool_decide (k = Full)) && negb (is_semi_join s).

Global Instance BlockPtr_countable : Countable BlockPtr.
Proof.
  refine (inj_countable'
            (fun p => match p with StoredBlock i => Some i | ReadResult => None end)
            (fun o => match o with Some i => StoredBlock i | None => ReadResult end) _).
  intros []; reflexivity.
Defined.

(** KnownRowsHolder<true>: a linear array of up to MAX_LINEAR pointers,
    then a set. *)
Definition MAX_LINEAR : nat := 16.

Record KnownRowsHolder := mkKnownRowsHolder {
  linh : list BlockPtr;
  logh : gset BlockPtr;
  items : nat;
}.

Definition KnownRowsHolder_init : KnownRowsHolder := mkKnownRowsHolder [] ∅ 0.

Definition KnownRowsHolder_add (new : list BlockPtr) (kr : KnownRowsHolder)
    : KnownRowsHolder :=
  let new_items := length new in
  if items kr + new_items <=? MAX_LINEAR then
    mkKnownRowsHolder (take (items kr) (linh kr) ++ new) (logh kr) (items kr + new_items)
  else
    let base :=
      if items kr <=? MAX_LINEAR then list_to_set (take (items kr) (linh kr))
      else logh kr in
    mkKnownRowsHolder (linh kr) (base ∪ list_to_set new) (items kr + new_items).

Definition KnownRowsHolder_isKnown (ptr : BlockPtr) (kr : KnownRowsHolder) : bool :=
  if items kr <=? MAX_LINEAR
  then bool_decide (ptr ∈ take (items kr) (linh kr))
  else bool_decide (ptr ∈ logh kr).

(** KnownRowsHolder<multiple_disjuncts>: the <false> specialisation stores
    nothing and knows nothing. *)
Definition known_add (multiple_disjuncts : bool) (new : list BlockPtr)
    (kr : KnownRowsHolder) : KnownRowsHolder :=
  if multiple_disjuncts then KnownRowsHolder_add new kr else kr.

Definition known_isKnown (multiple_disjuncts : bool) (ptr : BlockPtr)
    (kr : KnownRowsHolder) : bool :=
  if multiple_disjuncts then KnownRowsHolder_isKnown ptr kr else false.

(** The mutable part of a probe: the used flags, the columns being added
    with their pending default rows, the row filter, the replication
    offsets and the running offset. *)
Record ProbeState := mkProbeState {
  ps_flags : JoinUsedFlags;
  ps_columns : list Column;
  ps_lazy_defaults_count : nat;
  ps_filter : list bool;
  ps_offsets_to_replicate : list nat;
  ps_current_offset : nat;
}.

(** What a probe reads: the template parameters, one lookup per disjunct
    (row number to cell ordinal and mapped value), the left null maps, the
    blocks row references point into and the positions of the added columns
    inside them. *)
Record ProbeEnv := mkProbeEnv {
  pe_kind : Kind;
  pe_strictness : Strictness;
  pe_multiple_disjuncts : bool;
  pe_find : list (nat -> option (nat * Mapped));
  pe_null_map : list (option (list bool));
  pe_deref : BlockPtr -> Block;
  pe_right_indexes : list nat;
  pe_asof_inequality : Inequality;
  pe_left_asof_key : option Column;
}.

Definition insertFrom (dst : Column) (src : option Column) (row : nat) : Column :=
  let cell :=
    match src with
    | Some c => default (default_cell dst) (col_cells c !! row)
    | None => default_cell dst
    end in
  mkColumn (col_name dst) (col_type dst) (col_nullable dst) (col_cells dst ++ [cell]).

Definition insertManyDefaults (count : nat) (dst : Column) : Column :=
  mkColumn (col_name dst) (col_type dst) (col_nullable dst)
    (col_cells dst ++ replicate count (default_cell dst)).

(** AddedColumns::applyLazyDefaults, appendFromBlock<has_defaults> and
    appendDefaultRow. *)
Definition applyLazyDefaults (st : ProbeState) : ProbeState :=
  if bool_decide (ps_lazy_defaults_count st = 0) then st
  else mkProbeState (ps_flags st)
         (map (insertManyDefaults (ps_lazy_defaults_count st)) (ps_columns st))
         0 (ps_filter st) (ps_offsets_to_replicate st) (ps_current_offset st).

Definition appendFromBlock (env : ProbeEnv) (has_defaults : bool) (ref : RowRef)
    (st : ProbeState) : ProbeState :=
  let st := if has_defaults then applyLazyDefaults st else st in
  let block := pe_deref env (rr_block ref) in
  mkProbeState (ps_flags st)
    (imap (fun j col =>
             match pe_right_indexes env !! j with
             | Some idx => insertFrom col (block !! idx) (rr_row_num ref)
             | None => col
             end) (ps_columns st))
    (ps_lazy_defaults_count st) (ps_filter st) (ps_offsets_to_replicate st)
    (ps_current_offset st).

Definition appendDefaultRow (st : ProbeState) : ProbeState :=
  mkProbeState (ps_flags st) (ps_columns st) (S (ps_lazy_defaults_count st))
    (ps_filter st) (ps_offsets_to_replicate st) (ps_current_offset st).

Definition bump_offset (st : ProbeState) : ProbeState :=
  mkProbeState (ps_flags st) (ps_columns st) (ps_lazy_defaults_count st)
    (ps_filter st) (ps_offsets_to_replicate st) (S (ps_current_offset st)).

Definition set_filter (pos : nat) (st : ProbeState) : ProbeState :=
  mkProbeState (ps_flags st) (ps_columns st) (ps_lazy_defaults_count st)
    (<[pos := true]> (ps_filter st)) (ps_offsets_to_replicate st) (ps_current_offset st).

Definition record_offset (i : nat) (st : ProbeState) : ProbeState :=
  mkProbeState (ps_flags st) (ps_columns st) (ps_lazy_defaults_count st)
    (ps_filter st) (<[i := ps_current_offset st]> (ps_offsets_to_replicate st))
    (ps_current_offset st).

Definition with_flags (f : JoinUsedFlags) (st : ProbeState) : ProbeState :=
  mkProbeState f (ps_columns st) (ps_lazy_defaults_count st)
    (ps_filter st) (ps_offsets_to_replicate st) (ps_current_offset st).

(** addNotFoundRow<add_missing, need_offset>. *)
Definition addNotFoundRow (add_missing_ need_offset : bool) (st : ProbeState)
    : ProbeState :=
  if add_missing_ then
    let st := appendDefaultRow st in
    if need_offset then bump_offset st else st
  else st.

(** The loop of addFoundRowAll over the chain: a row whose block is not
    known is appended; the block of the first appended row is remembered
    in [new_known_rows]. *)
Fixpoint addFoundRowAll_loop (env : ProbeEnv) (chain : list RowRef)
    (known_rows : KnownRowsHolder) (new_known_rows : option (list BlockPtr))
    (st : ProbeState) : ProbeState * option (list BlockPtr) :=
  match chain with
  | [] => (st, new_known_rows)
  | it :: chain' =>
      if negb (known_isKnown (pe_multiple_disjuncts env) (rr_block it) known_rows) then
        let st := bump_offset (appendFromBlock env false it st) in
        let new_known_rows :=
          if pe_multiple_disjuncts env then
            match new_known_rows with
            | None => Some [rr_block it]
            | Some l => Some l
            end
          else new_known_rows in
        addFoundRowAll_loop env chain' known_rows new_known_rows st
      else addFoundRowAll_loop env chain' known_rows new_known_rows st
  end.

Definition mapped_chain (mapped : Mapped) : list RowRef :=
  match mapped with
  | MRowRefList l => RowRefList_iter l
  | MRowRef r => [r]
  | MAsofRowRefs _ => []
  end.

(** mapped.block and mapped.row_num: RowRefList derives from RowRef, its
    own row reference is the head of the chain. *)
Definition mapped_row (mapped : Mapped) : option RowRef :=
  match mapped with
  | MRowRef r => Some r
  | MRowRefList l => Some (rl_head l)
  | MAsofRowRefs _ => None
  end.

Definition addFoundRowAll (env : ProbeEnv) (add_missing_ : bool) (mapped : Mapped)
    (known_rows : KnownRowsHolder) (st : ProbeState)
    : ProbeState * KnownRowsHolder :=
  let st := if add_missing_ then applyLazyDefaults st else st in
  let '(st, new_known_rows) :=
    addFoundRowAll_loop env (mapped_chain mapped) known_rows None st in
  match new_known_rows with
  | Some new => (st, known_add (pe_multiple_disjuncts env) new known_rows)
  | None => (st, known_rows)
  end.

(** What the body of the disjunct loop does once the key is found, by join
    shape; the boolean tells whether the body leaves the loop (break). *)
Definition on_found (env : ProbeEnv) (i offset : nat) (mapped : Mapped)
    (known_rows : KnownRowsHolder) (st : ProbeState)
    : ProbeState * KnownRowsHolder * bool :=
  let k := pe_kind env in
  let s := pe_strictness env in
  let need_flags_ := flagged rt k s in
  if is_asof_join s then
    let probe :=
      from_option (fun c => value_as_Z (nested_value c i)) 0%Z (pe_left_asof_key env) in
    match mapped with
    | MAsofRowRefs a =>
        match findAsof (pe_asof_inequality env) probe a with
        | Some found =>
            let st := set_filter i st in
            let st := with_flags (setUsed need_flags_ offset (ps_flags st)) st in
            (appendFromBlock env (add_missing k s) found st, known_rows, false)
        | None =>
            (addNotFoundRow (add_missing k s) (need_replication k s) st, known_rows, false)
        end
    | _ => (st, known_rows, false)
    end
  else if is_all_join s then
    let st := set_filter i st in
    let st := with_flags (setUsed need_flags_ offset (ps_flags st)) st in
    let '(st, known_rows) := addFoundRowAll env (add_missing k s) mapped known_rows st in
    (st, known_rows, false)
  else if (is_any_join s || is_semi_join s) && bool_decide (k = Right) then
    let '(used_once, f) := setUsedOnce need_flags_ offset (ps_flags st) in
    let st := with_flags f st in
    if used_once then
      let st := set_filter i st in
      let '(st, known_rows) := addFoundRowAll env (add_missing k s) mapped known_rows st in
      (st, known_rows, false)
    else (st, known_rows, false)
  else if is_any_join s && bool_decide (k = Inner) then
    let '(used_once, f) := setUsedOnce need_flags_ offset (ps_flags st) in
    let st := with_flags f st in
    if used_once then
      let st := set_filter i st in
      match mapped_row mapped with
      | Some r => (appendFromBlock env (add_missing k s) r st, known_rows, true)
      | None => (st, known_rows, true)
      end
    else (st, known_rows, true)
  else if is_any_join s && bool_decide (k = Full) then
    (st, known_rows, false)
  else if is_anti_join s then
    if bool_decide (k = Right) && need_flags_
    then (with_flags (setUsed need_flags_ offset (ps_flags st)) st, known_rows, false)
    else (st, known_rows, false)
  else
    let st := set_filter i st in
    let st := with_flags (setUsed need_flags_ offset (ps_flags st)) st in
    let st :=
      match mapped_row mapped with
      | Some r => appendFromBlock env (add_missing k s) r st
      | None => st
      end in
    (st, known_rows, is_any_join s).

(** The do-while over the disjuncts for left row [i]; returns the state
    with [right_row_found] and [null_element_found]. *)
Fixpoint probe_disjuncts (env : ProbeEnv) (i : nat) (ds : list nat)
    (right_row_found null_element_found : bool) (known_rows : KnownRowsHolder)
    (st : ProbeState) : ProbeState * bool * bool :=
  match ds with
  | [] => (st, right_row_found, null_element_found)
  | d :: ds' =>
      if null_at (mjoin (pe_null_map env !! d)) i then
        probe_disjuncts env i ds' right_row_found true known_rows st
      else
        match (pe_find env !! d) ≫= (fun find => find i) with
        | Some (offset, mapped) =>
            let '(st, known_rows, break) := on_found env i offset mapped known_rows st in
            if break then (st, true, null_element_found)
            else probe_disjuncts env i ds' true null_element_found known_rows st
        | None =>
            probe_disjuncts env i ds' right_row_found null_element_found known_rows st
        end
  end.

(** The disjuncts the do-while visits: always the first, the others only
    under multiple_disjuncts. *)
Definition disjuncts_to_probe (env : ProbeEnv) : list nat :=
  0 :: (if pe_multiple_disjuncts env then seq 1 (length (pe_find env) - 1) else []).

(** The body of the loop over the left rows. *)
Definition join_row (env : ProbeEnv) (st : ProbeState) (i : nat) : ProbeState :=
  let k := pe_kind env in
  let s := pe_strictness env in
  let '(st, right_row_found, null_element_found) :=
    probe_disjuncts env i (disjuncts_to_probe env) false false KnownRowsHolder_init st in
  if negb right_row_found && null_element_found then
    let st := addNotFoundRow (add_missing k s) (need_replication k s) st in
    if need_replication k s then record_offset i st else st
  else
    let st :=
      if negb right_row_found then
        let st := if is_anti_join s && bool_decide (k = Left) then set_filter i st else st in
        addNotFoundRow (add_missing k s) (need_replication k s) st
      else st in
    if need_replication k s then record_offset i st else st.

(** joinRightColumns, as joinRightColumnsSwitchMultipleDisjuncts
    instantiates it (need_filter and has_null_map both true): the filter
    is always built. *)
Definition joinRightColumns (env : ProbeEnv) (rows : nat) (columns : list Column)
    (f : JoinUsedFlags) : ProbeState :=
  let st0 :=
    mkProbeState f columns 0 (replicate rows false)
      (if need_replication (pe_kind env) (pe_strictness env)
       then replicate rows 0 else [])
      0 in
  applyLazyDefaults (foldl (join_row env) st0 (seq 0 rows)).

(** *** Assembling the joined block (makeAddedColumns, joinBlockImpl) *)

Fixpoint filter_cells {A} (cells : list A) (filt : list bool) : list A :=
  match cells, filt with
  | c :: cells', b :: filt' =>
      if b then c :: filter_cells cells' filt' else filter_cells cells' filt'
  | _, _ => []
  end.

Fixpoint replicate_cells {A} (cells : list A) (offsets : list nat) (prev : nat)
    : list A :=
  match cells, offsets with
  | c :: cells', o :: offsets' =>
      replicate (o - prev) c ++ replicate_cells cells' offsets' o
  | _, _ => []
  end.

Definition column_filter (filt : list bool) (c : Column) : Column :=
  mkColumn (col_name c) (col_type c) (col_nullable c) (filter_cells (col_cells c) filt).

Definition column_replicate (offsets : list nat) (c : Column) : Column :=
  mkColumn (col_name c) (col_type c) (col_nullable c)
    (replicate_cells (col_cells c) offsets 0).

(** Applies [f] to the columns at positions below [existing_columns]. *)
Definition map_existing (existing_columns : nat) (f : Column -> Column) (b : Block)
    : Block :=
  imap (fun i c => if i <? existing_columns then f c else c) b.

(** IColumn::insertDefault on the column being filled. *)
Definition insertDefault (dst : Column) : Column := insertFrom dst None 0.

(** filterWithBlanks: one row per filter entry, the source row where the
    filter (or its inverse) is set and a default elsewhere. *)
Definition filterWithBlanks (src_column : Column) (filter : list bool)
    (inverse_filter : bool) : Column :=
  let column := convertToFullColumnIfConst src_column in
  let mut_column := cloneEmpty column in
  if inverse_filter then
    foldl (fun mut_column row =>
             if default false (filter !! row) then insertDefault mut_column
             else insertFrom mut_column (Some column) row)
      mut_column (seq 0 (length filter))
  else
    foldl (fun mut_column row =>
             if default false (filter !! row) then insertFrom mut_column (Some column) row
             else insertDefault mut_column)
      mut_column (seq 0 (length filter)).

(** Modelled from the spec: JoinCommon::removeColumnNullability and
    ColumnNullable::applyNegatedNullMap are outside the sources.  The first
    replaces a nullable column by its nested column; the second makes NULL
    every row at which the given map holds zero. *)
Definition removeColumnNullability (c : Column) : Column :=
  if col_nullable c then getNestedColumn c else c.

Definition applyNegatedNullMap (negative_null_map : list bool) (c : Column) : Column :=
  mkColumn (col_name c) (col_type c) (col_nullable c)
    (imap (fun i x => if default false (negative_null_map !! i) then x else None)
       (col_cells c)).

(** correctNullability(column, nullable): a column that must not be
    nullable has its NULL rows replaced by defaults before the null map is
    dropped. *)
Definition correctNullability (column : Column) (nullable : bool) : Column :=
  if nullable then convertColumnToNullable column
  else
    removeColumnNullability
      (if col_nullable column
       then filterWithBlanks column (getNullMapData column) true
       else column).

(** correctNullability(column, nullable, negative_null_map): a nullable
    column becomes NULL where the map holds zero. *)
Definition correctNullability_negated (column : Column) (nullable : bool)
    (negative_null_map : list bool) : Column :=
  if nullable then
    let column := convertColumnToNullable column in
    if col_nullable column && negb (bool_decide (negative_null_map = []))
    then applyNegatedNullMap negative_null_map column
    else column
  else removeColumnNullability column.

(** The column named by a ColumnWithTypeAndName built from the parts of
    another column and a new name. *)
Definition with_name (name : string) (c : Column) : Column :=
  mkColumn name (col_type c) (col_nullable c) (col_cells c).

(** The loop of joinBlockImpl over required_right_keys, from position [i]
    on.  A required right key the block lacks is inserted as a copy of the
    left key column required_right_keys_sources[i], built by [make]; the
    ASOF column is skipped; with [record] set the position of the inserted
    column is appended to right_keys_to_replicate. *)
Fixpoint insert_required_right_keys (hj : HashJoin) (s : Strictness)
    (make : Column -> string -> bool -> Column) (record : bool) (i : nat)
    (required : list Column) (block : Block) (right_keys_to_replicate : list nat)
    : Outcome (Block * list nat) :=
  match required with
  | [] => Ok (block, right_keys_to_replicate)
  | right_key :: rest =>
      match findByName block (col_name right_key) with
      | Some _ =>
          insert_required_right_keys hj s make record (S i) rest block
            right_keys_to_replicate
      | None =>
          let left_name := default EmptyString (required_right_keys_sources hj !! i) in
          if is_asof_join s
             && bool_decide (col_name right_key
                             = default EmptyString (last (hd [] (key_names_right hj))))
          then insert_required_right_keys hj s make record (S i) rest block
                 right_keys_to_replicate
          else
            do col <- getByName block left_name;
            let is_nullable := nullable_right_side hj || col_nullable right_key in
            let block := block ++ [make col (col_name right_key) is_nullable] in
            if record then
              do pos <- getPositionByName block (col_name right_key);
              insert_required_right_keys hj s make record (S i) rest block
                (right_keys_to_replicate ++ [pos])
            else
              insert_required_right_keys hj s make record (S i) rest block
                right_keys_to_replicate
      end
  end.

(** joinBlockImpl<KIND, STRICTNESS>, run on the block that already holds
    the added columns.  Under need_filter the existing columns are
    filtered and each missing required right key is a copy of its left
    key; otherwise, when right keys are required, the copy keeps the left
    value where the row filter is set and is blank or NULL elsewhere.
    Under need_replication the existing columns and the inserted right
    keys are replicated by the recorded offsets. *)
Definition joinBlockImpl (hj : HashJoin) (k : Kind) (s : Strictness) (block : Block)
    (row_filter : list bool) (offsets_to_replicate : list nat)
    (existing_columns : nat) : Outcome Block :=
  let has_required_right_keys := negb (length (required_right_keys hj) =? 0) in
  do (block, right_keys_to_replicate) <-
    (if need_filter k s then
       insert_required_right_keys hj s
         (fun col name is_nullable => correctNullability (with_name name col) is_nullable)
         false 0 (required_right_keys hj)
         (map_existing existing_columns (column_filter row_filter) block) []
     else if has_required_right_keys then
       insert_required_right_keys hj s
         (fun col name is_nullable =>
            correctNullability_negated
              (with_name name (filterWithBlanks col row_filter false))
              is_nullable row_filter)
         (need_replication k s) 0 (required_right_keys hj) block []
     else Ok (block, []));
  Ok (if need_replication k s then
        foldl (fun block pos => alter (column_replicate offsets_to_replicate) pos block)
          (map_existing existing_columns (column_replicate offsets_to_replicate) block)
          right_keys_to_replicate
      else block).

(** The left key columns of every disjunct with their null maps. *)
Fixpoint left_keys (block : Block) (key_names_left_vector : list (list string))
    : Outcome (list (list Column * option (list bool))) :=
  match key_names_left_vector with
  | [] => Ok []
  | names :: rest =>
      do materialized <- materializeColumns block names;
      do others <- left_keys block rest;
      Ok (extractNestedColumnsAndNullMap materialized :: others)
  end.

(** The constructor of AddedColumns: the empty columns to fill and their
    positions in the saved block sample. *)
Definition AddedColumns_ctor (hj : HashJoin) (block_with_columns_to_add block : Block)
    (asof : bool) : Outcome (list Column * list nat) :=
  let columns :=
    map cloneEmpty
      (List.filter (fun src => negb (block_has block (col_name src)))
         block_with_columns_to_add) in
  do columns <-
    (if asof then
       do right_asof_column <-
         getByName (sample_block (data hj))
           (default EmptyString (last (hd [] (key_names_right hj))));
       Ok (columns ++ [cloneEmpty right_asof_column])
     else Ok columns);
  do right_indexes <-
    omapM (fun c => getPositionByName (sample_block (data hj)) (col_name c)) columns;
  Ok (columns, right_indexes).

Definition is_join_variant (t : Type_) : bool :=
  match t with
  | EMPTY | CROSS | DICT => false
  | _ => true
  end.

(** The lookup of disjunct [d] in its hash table, through the key getter
    built from the left key columns. *)
Definition hash_find (s : Strictness) (m : HashMap) (key_columns : list Column)
    (i : nat) : option (nat * Mapped) :=
  m !! key_at (key_getter_columns (is_asof_join s) key_columns) i.

(** KeyGetterForDict::findKey: the reader is asked once for the whole key
    column; the cell ordinal is always 0. *)
Definition dict_find (found : list bool) (positions : list nat) (i : nat)
    : option (nat * Mapped) :=
  if default false (found !! i)
  then Some (0, MRowRef (mkRowRef ReadResult (default 0 (positions !! i))))
  else None.

Definition deref_blocks (stored : list Block) (read_result : Block) (p : BlockPtr)
    : Block :=
  match p with
  | StoredBlock i => default [] (stored !! i)
  | ReadResult => read_result
  end.

(** makeAddedColumns<KIND, STRICTNESS> followed by joinBlockImpl<KIND,
    STRICTNESS>.  Over a dictionary the probe goes through
    dictionaryJoinRightColumns, otherwise through switchJoinRightColumns.
    A dictionary-backed instance always has a reader and a key column; the
    source dereferences both unchecked, the embedding throws when one is
    missing.  The probe has written the used flags by the time
    joinBlockImpl runs, so they are kept when joinBlockImpl throws. *)
Definition join_with (hj : HashJoin) (k : Kind) (s : Strictness) (block : Block)
    (key_names_left_vector : list (list string)) (block_with_columns_to_add : Block)
    (existing_columns : nat) : Outcome Block * HashJoin :=
  match left_keys block key_names_left_vector with
  | Throw e => (Throw e, hj)
  | Ok keys =>
      let block :=
        if bool_decide (k = Right) || bool_decide (k = Full) then
          let block := materializeBlock block in
          if nullable_left_side hj then convertColumnsToNullable block else block
        else block in
      match AddedColumns_ctor hj block_with_columns_to_add block (is_asof_join s) with
      | Throw e => (Throw e, hj)
      | Ok (columns, right_indexes) =>
          let left_asof_key := hd [] (keys.*1) in
          let env_of multiple find deref :=
            mkProbeEnv k s multiple find (keys.*2) deref right_indexes
              (asof_inequality hj) (last left_asof_key) in
          let finish st :=
            joinBlockImpl hj k s (block ++ ps_columns st) (ps_filter st)
              (ps_offsets_to_replicate st) existing_columns in
          if overDictionary hj then
            if bool_decide (k = Left)
               && (bool_decide (s = Any) || bool_decide (s = Semi) || bool_decide (s = Anti))
            then
              match dictionary_reader (table_join hj), hd [] (keys.*1) with
              | Some reader, key_column :: _ =>
                  let '(read_result, found, positions) := reader key_column in
                  let read_result :=
                    if forceNullableRight (table_join hj)
                    then convertColumnsToNullable read_result else read_result in
                  let env :=
                    env_of false [dict_find found positions]
                      (deref_blocks (blocks (data hj)) read_result) in
                  let st := joinRightColumns env (block_rows block) columns
                              JoinUsedFlags_init in
                  (finish st, hj)
              | _, _ => (Throw LOGICAL_ERROR, hj)
              end
            else (Throw LOGICAL_ERROR, hj)
          else if is_join_variant (type (data hj)) then
            let find :=
              imap (fun d key_columns =>
                      hash_find s (default ∅ (maps (data hj) !! d)) key_columns)
                   (keys.*1) in
            let env :=
              env_of (1 <? length find) find (deref_blocks (blocks (data hj)) []) in
            let st := joinRightColumns env (block_rows block) columns (used_flags hj) in
            (finish st, set_used_flags hj (ps_flags st))
          else (Throw UNSUPPORTED_JOIN_KEYS, hj)
      end
  end.

(** *** Cross join (HashJoin::joinBlockImplCross) *)

Record NotProcessedCrossJoin := mkNotProcessedCrossJoin {
  np_block : Block;
  left_position : nat;
  right_block : nat;
}.

Definition insertManyFrom (dst : Column) (src : option Column) (row count : nat)
    : Column :=
  let cell :=
    match src with
    | Some c => default (default_cell dst) (col_cells c !! row)
    | None => default_cell dst
    end in
  mkColumn (col_name dst) (col_type dst) (col_nullable dst)
    (col_cells dst ++ replicate count cell).

Definition insertRangeFrom (dst : Column) (src : option Column) (start count : nat)
    : Column :=
  mkColumn (col_name dst) (col_type dst) (col_nullable dst)
    (col_cells dst ++ take count (drop start (from_option col_cells [] src))).

(** The loop over the right blocks for one left row.  [block_number]
    counts the blocks seen so far; blocks numbered below
    [start_right_block] are skipped. *)
Fixpoint cross_right_blocks (right_blocks : list Block) (block_number : nat)
    (start_right_block left_row : nat) (src_left_columns : list Column)
    (num_existing_columns : nat) (dst_columns : list Column) (rows_added : nat)
    : list Column * nat * nat :=
  match right_blocks with
  | [] => (dst_columns, rows_added, block_number)
  | block_right :: rest =>
      let block_number := S block_number in
      if block_number <? start_right_block then
        cross_right_blocks rest block_number start_right_block left_row
          src_left_columns num_existing_columns dst_columns rows_added
      else
        let rows_right := block_rows block_right in
        let dst_columns :=
          imap (fun col_num dst =>
                  if col_num <? num_existing_columns
                  then insertManyFrom dst (src_left_columns !! col_num) left_row rows_right
                  else insertRangeFrom dst
                         (block_right !! (col_num - num_existing_columns)) 0 rows_right)
               dst_columns in
        cross_right_blocks rest block_number start_right_block left_row
          src_left_columns num_existing_columns dst_columns (rows_added + rows_right)
  end.

(** The loop over the left rows: after each left row the accumulated count
    is compared with max_joined_block_rows; when it is larger, the
    continuation (left_row, block_number + 1) is stored and the loop ends. *)
Fixpoint cross_left_rows (max_joined_block_rows : nat) (right_blocks : list Block)
    (left_rows : list nat) (start_right_block : nat) (src_left_columns : list Column)
    (num_existing_columns : nat) (dst_columns : list Column) (rows_added : nat)
    : list Column * nat * option (nat * nat) :=
  match left_rows with
  | [] => (dst_columns, rows_added, None)
  | left_row :: rest =>
      let '(dst_columns, rows_added, block_number) :=
        cross_right_blocks right_blocks 0 start_right_block left_row
          src_left_columns num_existing_columns dst_columns rows_added in
      if max_joined_block_rows <? rows_added
      then (dst_columns, rows_added, Some (left_row, block_number + 1))
      else cross_left_rows max_joined_block_rows right_blocks rest 0
             src_left_columns num_existing_columns dst_columns rows_added
  end.

Definition joinBlockImplCross (hj : HashJoin) (block : Block)
    (not_processed : option NotProcessedCrossJoin)
    : Block * option NotProcessedCrossJoin :=
  let max_joined_block_rows := maxJoinedBlockRows (table_join hj) in
  let '(start_left_row, start_right_block) :=
    match not_processed with
    | Some continuation => (left_position continuation, right_block continuation)
    | None => (0, 0)
    end in
  let num_existing_columns := length block in
  let dst_columns :=
    map cloneEmpty block ++ map cloneEmpty (sample_block_with_columns_to_add hj) in
  let rows_left := block_rows block in
  let '(dst_columns, _, continuation) :=
    cross_left_rows max_joined_block_rows (blocks (data hj))
      (seq start_left_row (rows_left - start_left_row)) start_right_block
      block num_existing_columns dst_columns 0 in
  (dst_columns,
   match continuation with
   | Some (left_row, next_right_block) =>
       Some (mkNotProcessedCrossJoin block left_row next_right_block)
   | None => None
   end).

(** *** The probe entry point (HashJoin::joinBlock) *)

(** The run-time dispatch of the dictionary path: the template
    instantiation that serves the configured kind and strictness. *)
Definition dictionary_dispatch (k : Kind) (s : Strictness)
    : Outcome (Kind * Strictness) :=
  if bool_decide (k = Left) then
    match s with
    | Any | All => Ok (Left, Any)
    | Semi => Ok (Left, Semi)
    | Anti => Ok (Left, Anti)
    | _ => Throw LOGICAL_ERROR
    end
  else if bool_decide (k = Inner) && bool_decide (s = All) then Ok (Left, Semi)
  else Throw LOGICAL_ERROR.

(** JoinCommon::checkTypesOfKeys, which the hash-table branch calls first
    to compare the key types of both sides, is outside the sources; column
    types beyond the capability set are not part of the embedding. *)
Definition joinBlock (hj : HashJoin) (block : Block)
    (not_processed : option NotProcessedCrossJoin)
    : Outcome Block * HashJoin * option NotProcessedCrossJoin :=
  if bool_decide (kind hj = Cross) then
    let '(out, continuation) := joinBlockImplCross hj block not_processed in
    (Ok out, hj, continuation)
  else
    let block :=
      if bool_decide (kind hj = Right) || bool_decide (kind hj = Full) then
        let block := materializeBlock block in
        if nullable_left_side hj then convertColumnsToNullable block else block
      else block in
    let existing_columns := length block in
    if overDictionary hj then
      match dictionary_dispatch (kind hj) (strictness hj) with
      | Ok (k, s) =>
          let '(out, hj') :=
            join_with hj k s block (key_names_left hj)
              (sample_block_with_columns_to_add hj) existing_columns in
          (out, hj', not_processed)
      | Throw e => (Throw e, hj, not_processed)
      end
    else if joinDispatch_matches (kind hj) (strictness hj) then
      let '(out, hj') :=
        join_with hj (kind hj) (strictness hj) block (key_names_left hj)
          (sample_block_with_columns_to_add hj) existing_columns in
      (out, hj', not_processed)
    else (Throw LOGICAL_ERROR, hj, not_processed).

(** *** Non-joined rows (HashJoin::createStreamWithNonJoinedRows) *)

(** The stream object itself is not needed here; the factory's result is
    the pair of arguments the stream is built from, or nothing. *)
Record NonJoinedBlockInputStream := mkNonJoinedBlockInputStream {
  nj_result_sample_block : Block;
  nj_max_block_size : nat;
}.

Definition createStreamWithNonJoinedRows (hj : HashJoin) (result_sample_block : Block)
    (max_block_size : nat) : option NonJoinedBlockInputStream :=
  if bool_decide (tj_strictness (table_join hj) = Asof)
     || bool_decide (tj_strictness (table_join hj) = Semi)
  then None
  else if isRightOrFull (tj_kind (table_join hj))
  then Some (mkNonJoinedBlockInputStream result_sample_block max_block_size)
  else None.

End Build.

(** * Specification-level definitions *)

(** Total width of the key columns, without wrap-around. *)
Definition total_bytes (key_columns : list IColumn) : N :=
  foldr (fun c acc => (sizeOfValueIfFixed c + acc)%N) 0%N key_columns.

(** The chooser as the specification words it: CROSS for no key; for
    exactly one numeric key the tag by byte width, any other width being a
    logical error; else keys128 / keys256 when all keys are fixed and fit in
    16 / 32 bytes; else key_string for one string column, key_fixed_string
    for one fixed-string column; else hashed. *)
Definition chooseMethod_spec (key_columns : list IColumn) : Outcome Type_ :=
  let all_fixed := forallb isFixedAndContiguous key_columns in
  let total := total_bytes key_columns in
  match key_columns with
  | [] => Ok CROSS
  | [c] =>
      if isNumeric c then
        match sizeOfValueIfFixed c with
        | 1%N => Ok key8
        | 2%N => Ok key16
        | 4%N => Ok key32
        | 8%N => Ok key64
        | 16%N => Ok keys128
        | 32%N => Ok keys256
        | _ => Throw LOGICAL_ERROR
        end
      else if all_fixed && (total <=? 16)%N then Ok keys128
      else if all_fixed && (total <=? 32)%N then Ok keys256
      else if is_ColumnString c then Ok key_string
      else if is_ColumnFixedString c then Ok key_fixed_string
      else Ok hashed
  | _ =>
      if all_fixed && (total <=? 16)%N then Ok keys128
      else if all_fixed && (total <=? 32)%N then Ok keys256
      else Ok hashed
  end.

(** * Fixtures for the concrete scenarios *)

Definition int_type (w : N) : IColumn := mkIColumn ColumnOther true w true.
Definition string_type : IColumn := mkIColumn ColumnString false 0 false.

Definition int_col (name : string) (cells : list Z) : Column :=
  mkColumn name (int_type 8) false (map (fun z => Some (VInt z)) cells).

Definition str_col (name : string) (cells : list string) : Column :=
  mkColumn name string_type false (map (fun s => Some (VStr s)) cells).

(** Modelled from the spec: the table MapGetter<KIND, STRICTNESS>::flagged
    is declared in HashJoin.h, outside the sources.  Used flags serve the
    emission of non-joined right rows (kinds Right and Full) and the
    set_used_once claim of ANY INNER; ANY LEFT never allocates them.  Only
    the fixtures use this table: the general theorems hold for every
    [flagged]. *)
Definition flagged_shapes (k : Kind) (s : Strictness) : bool :=
  isRightOrFull k || (bool_decide (k = Inner) && bool_decide (s = Any)).

(** A runtime whose tables report a buffer of 256 cells and count one row
    per key; bytes are not accounted. *)
Definition rt0 : Runtime :=
  mkRuntime (fun _ => 256) (fun m => size m) (fun _ => 0) (fun _ => 0) (fun _ => 0)
    flagged_shapes.

Definition no_limits : SizeLimits := mkSizeLimits 0 0 THROW.

(** An instance the constructor did not complete: its type is EMPTY. *)
Definition uninitialized (tj : TableJoin) : HashJoin :=
  mkHashJoin tj (tj_kind tj) (tj_strictness tj) (keyNamesRight tj) (keyNamesLeft tj)
    (forceNullableRight tj) (forceNullableLeft tj) false (getAsofInequality tj)
    (mkRightTableData EMPTY true [] [] [] []) [] [] [] [] [] JoinUsedFlags_init false.

(** Runs the constructor and ingests the right blocks in order. *)
Definition build (tj : TableJoin) (right_sample_block : Block) (right : list Block)
    (check_limits : bool) : HashJoin :=
  match HashJoin_ctor tj right_sample_block false with
  | Ok hj => foldl (fun h b => (addJoinedBlock rt0 h b check_limits).2) hj right
  | Throw _ => uninitialized tj
  end.

Definition output_of (r : Outcome Block * HashJoin * option NotProcessedCrossJoin)
    : Block :=
  match r.1.1 with
  | Ok b => b
  | Throw _ => []
  end.

(** The cells of the named column of a joined block. *)
Definition cells_of (name : string) (b : Block) : list (option Value) :=
  match findByName b name with
  | Some c => col_cells c
  | None => []
  end.

(** Scenario S6: disjuncts [a] or [b] under INNER ALL. *)
Definition s6_join : TableJoin :=
  mkTableJoin Inner All [["a"]; ["b"]]%string [["a"]; ["b"]]%string
    false false Less false 1000 no_limits None [].

Definition s6_sample : Block :=
  [int_col "a" []; int_col "b" []; str_col "v" []].

Definition s6_right : Block :=
  [int_col "a" [1; 3]%Z; int_col "b" [2; 2]%Z; str_col "v" ["p"; "q"]%string].

Definition s6_left : Block := [int_col "a" [1]%Z; int_col "b" [2]%Z].

(** The same two right rows, ingested twice as separate one-row blocks
    with equal keys. *)
Definition s6_right_p : Block :=
  [int_col "a" [1]%Z; int_col "b" [2]%Z; str_col "v" ["p"]%string].
Definition s6_right_q : Block :=
  [int_col "a" [1]%Z; int_col "b" [2]%Z; str_col "v" ["q"]%string].

(** A right table with the columns k and v, joined on k. *)
Definition kv_sample : Block := [int_col "k" []; str_col "v" []].

Definition kv_join (k : Kind) (s : Strictness) : TableJoin :=
  mkTableJoin k s [["k"]]%string [["k"]]%string
    false false Less false 1000 no_limits None [].

Definition kv_right_dup : Block :=
  [int_col "k" [1; 1]%Z; str_col "v" ["a"; "b"]%string].
Definition kv_right_one : Block :=
  [int_col "k" [1]%Z; str_col "v" ["a"]%string].
Definition k_left_one : Block := [int_col "k" [1]%Z].

(** A join of the left key lk with the right key k whose caller requires
    the right key column in the joined block, and a left block whose key
    is NULL in its second row. *)
Definition lk_join (k : Kind) (s : Strictness) : TableJoin :=
  mkTableJoin k s [["k"]]%string [["lk"]]%string
    false false Less false 1000 no_limits None ["k"]%string.

Definition lk_left : Block :=
  [mkColumn "lk" (int_type 8) true [Some (VInt 1); None; Some (VInt 1); Some (VInt 7)]].


(** Scenario S7: three right blocks of ten rows, five left rows, at most
    17 joined rows per block. *)
Definition s7_join : TableJoin :=
  mkTableJoin Cross All [[]] [[]] false false Less false 17 no_limits None [].
Definition s7_sample : Block := [int_col "r" []].
Definition s7_right : Block := [int_col "r" (map Z.of_nat (seq 0 10))].
Definition s7_left : Block := [int_col "l" (map Z.of_nat (seq 0 5))].
Definition s7_built : HashJoin :=
  build s7_join s7_sample [s7_right; s7_right; s7_right] true.

(** Calls the cross-join probe again and again, each time with the
    continuation the previous call stored; lists the number of rows each
    call emitted. *)
Fixpoint cross_calls (n : nat) (hj : HashJoin) (block : Block)
    (not_processed : option NotProcessedCrossJoin) : list nat :=
  match n with
  | 0 => []
  | S n' =>
      let '(out, continuation) := joinBlockImplCross hj block not_processed in
      block_rows out ::
        match continuation with
        | Some c => cross_calls n' hj (np_block c) continuation
        | None => []
        end
  end.

(** A dictionary with the entries 1 -> one and 2 -> two behind a reader. *)
Definition dict_block : Block :=
  [int_col "k" [1; 2]%Z; str_col "v" ["one"; "two"]%string].

Definition dict_reader : DictionaryReader := fun c =>
  (dict_block,
   map (fun x => bool_decide (x = Some (VInt 1)) || bool_decide (x = Some (VInt 2)))
     (col_cells c),
   map (fun x => if bool_decide (x = Some (VInt 2)) then 1 else 0) (col_cells c)).

Definition dict_join (k : Kind) (s : Strictness) : TableJoin :=
  mkTableJoin k s [["k"]]%string [["k"]]%string
    false false Less false 1000 no_limits (Some dict_reader) [].

Definition k_left_25 : Block := [int_col "k" [2; 5]%Z].

Definition throws {A} (r : Outcome A) : bool :=
  match r with
  | Ok _ => false
  | Throw _ => true
  end.

(** The kind/strictness combinations the dictionary path serves. *)
Definition dictionary_combination (k : Kind) (s : Strictness) : Prop :=
  (k = Left /\ (s = Any \/ s = All \/ s = Semi \/ s = Anti))
  \/ (k = Inner /\ s = All).

(** The left column that stands for each required right key is in the
    block. *)
Definition required_sources_in (hj : HashJoin) (block : Block) : Prop :=
  Forall (fun i =>
            block_has block
              (default EmptyString (required_right_keys_sources hj !! i)) = true)
    (seq 0 (length (required_right_keys hj))).

(** What a dictionary probe needs from its input to run: a reader, the
    left key columns (at least one for the first disjunct), the columns
    to add present in the saved sample and the left columns joinBlockImpl
    copies for the required right keys. *)
Definition probe_ready (hj : HashJoin) (block : Block) : Prop :=
  is_Some (dictionary_reader (table_join hj))
  /\ (exists keys first rest,
        left_keys block (key_names_left hj) = Ok keys
        /\ hd [] (keys.*1) = first :: rest)
  /\ throws (AddedColumns_ctor hj (sample_block_with_columns_to_add hj) block false)
     = false
  /\ required_sources_in hj block.

(** The first destination column decides the row count of the joined
    block; while the left block has a column it is a left column and grows
    by the rows of every right block visited. *)
Definition first_column_rows (dst_columns : list Column) (n : nat) : Prop :=
  exists d rest, dst_columns = d :: rest /\ column_rows d = n.

(** What ingestion never changes, and what the per-disjunct loop leaves
    alone. *)
Definition same_config (hj hj' : HashJoin) : Prop :=
  table_join hj' = table_join hj
  /\ kind hj' = kind hj
  /\ strictness hj' = strictness hj
  /\ key_names_right hj' = key_names_right hj
  /\ storage_join_lock hj' = storage_join_lock hj
  /\ type (data hj') = type (data hj)
  /\ length (maps (data hj')) = length (maps (data hj)).

Definition same_storage (hj hj' : HashJoin) : Prop :=
  empty (data hj') = empty (data hj)
  /\ blocks (data hj') = blocks (data hj).

(** The block carries a column for every listed name. *)
Definition has_columns (block : Block) (names : list string) : bool :=
  forallb (block_has block) names.

(** The instances construction and ingestion produce, with the number of
    rows of the right blocks they stored. *)
Inductive ingested (rt : Runtime) : HashJoin -> nat -> Prop :=
  | ingested_new (tj : TableJoin) (right_sample_block : Block) (any_take_last : bool)
      (hj : HashJoin) :
      HashJoin_ctor tj right_sample_block any_take_last = Ok hj ->
      ingested rt hj 0
  | ingested_add (hj : HashJoin) (n : nat) (block : Block) (check_limits : bool) :
      ingested rt hj n ->
      ingested rt (addJoinedBlock rt hj block check_limits).2
        (if bool_decide (length (blocks (data (addJoinedBlock rt hj block check_limits).2))
                         = length (blocks (data hj)))
         then n else n + block_rows block).

(** A call of addJoinedBlock takes the block in when the instance is
    initialized and not dictionary-backed, the block is within the bound of
    the 32-bit row index and it carries the key columns and the columns of
    the saved sample; any other call is turned away with an exception
    before the block is looked at further. *)
Definition block_accepted (hj : HashJoin) (source_block : Block) : bool :=
  negb (HashJoin_empty hj)
  && negb (overDictionary hj)
  && negb (u32_max <? N.of_nat (block_rows source_block))%N
  && has_columns source_block (key_names_right_indexes (key_names_right hj)).1
  && has_columns source_block (map col_name (sample_block (data hj))).

(** The instances construction and ingestion produce, with the number of
    right rows passed in by the calls that took their block in. *)
Inductive received (rt : Runtime) : HashJoin -> nat -> Prop :=
  | received_new (tj : TableJoin) (right_sample_block : Block) (any_take_last : bool)
      (hj : HashJoin) :
      HashJoin_ctor tj right_sample_block any_take_last = Ok hj ->
      received rt hj 0
  | received_add (hj : HashJoin) (n : nat) (block : Block) (check_limits : bool) :
      received rt hj n ->
      received rt (addJoinedBlock rt hj block check_limits).2
        (if block_accepted hj block then n + block_rows block else n).

(** Every added column has received [n] rows, counting the default rows
    still pending. *)
Definition balanced (n : nat) (st : ProbeState) : Prop :=
  Forall (fun c => column_rows c + ps_lazy_defaults_count st = n) (ps_columns st).

(** The tables hold row references (not ASOF structures), as the maps of
    every strictness but Asof do. *)
Definition maps_hold_rows (hj : HashJoin) : Prop :=
  Forall (fun m : HashMap => map_Forall (fun _ v => is_Some (mapped_row v.2)) m)
    (maps (data hj)).

Definition finds_rows (env : ProbeEnv) : Prop :=
  forall d find i off mapped,
    pe_find env !! d = Some find ->
    find i = Some (off, mapped) ->
    is_Some (mapped_row mapped).




(** The columns a probe adds to the left block: those of the sample of
    columns to add the block does not carry yet. *)
Definition columns_to_add (hj : HashJoin) (block : Block) : list Column :=
  List.filter (fun src => negb (block_has block (col_name src)))
    (sample_block_with_columns_to_add hj).


(** The environment join_with hands to the probe when it reads the hash
    tables: one lookup per disjunct, through the left key columns. *)
Definition hash_env (hj : HashJoin) (k : Kind) (s : Strictness)
    (keys : list (list Column * option (list bool))) (right_indexes : list nat)
    : ProbeEnv :=
  let find :=
    imap (fun d key_columns =>
            hash_find s (default ∅ (maps (data hj) !! d)) key_columns)
         (keys.*1) in
  mkProbeEnv k s (1 <? length find) find (keys.*2)
    (deref_blocks (blocks (data hj)) []) right_indexes
    (asof_inequality hj) (last (hd [] (keys.*1))).



(** Left row [i] finds its key in the table of some disjunct, under
    which the key holds no NULL. *)
Definition found_in (env : ProbeEnv) (i : nat) : Prop :=
  exists d find,
    null_at (mjoin (pe_null_map env !! d)) i = false
    /\ pe_find env !! d = Some find /\ is_Some (find i).

(** What the probe of left row [i] may change besides the added columns
    and the flags: the filter entry of the row and the running offset. *)
Definition row_frame (i : nat) (st st' : ProbeState) : Prop :=
  ps_offsets_to_replicate st' = ps_offsets_to_replicate st
  /\ length (ps_filter st') = length (ps_filter st)
  /\ (forall j, j <> i -> ps_filter st' !! j = ps_filter st !! j).





(** The rows a chain-mapped table holds, and the tables all of whose mapped
    values are chains. *)
Definition rows_in (m : HashMap) (r : RowRef) : Prop :=
  exists key off l,
    m !! key = Some (off, MRowRefList l) /\ In r (RowRefList_iter l).

Definition holds_chains (m : HashMap) : Prop :=
  map_Forall (fun _ v => exists l, v.2 = MRowRefList l) m.

(** The key columns of disjunct [d] with their combined null map, as the
    loop of addJoinedBlock extracts them. *)
Definition disjunct_keys (indexes : list (list nat)) (all_key_columns : list Column)
    (d : nat) : list Column * option (list bool) :=
  extractNestedColumnsAndNullMap
    (omap (fun ind => all_key_columns !! ind) (default [] (indexes !! d))).

(** Some key column of the tuple is NULL at row [i]. *)
Definition key_has_null (key_columns : list Column) (i : nat) : bool :=
  existsb (fun c => col_nullable c && bool_decide (col_cells c !! i = Some None))
    key_columns.

(** * Further functions of the translation unit and notions for their
    properties *)

(** ** joinNullMaps (NullableUtils.cpp) *)

Definition and_null_maps (acc other : list bool) : list bool :=
  imap (fun j b => b && default false (other !! j)) acc.

(** joinNullMaps: starts from the first holder and ANDs into it the holder
    of every further disjunct counted by the size of [null_map_vector].
    The source indexes the vectors unchecked; here an empty holder vector
    gives no null map, and a holder or a byte that is missing reads as an
    empty map or as zero. *)
Definition joinNullMaps (null_map_holder_vector : list (list bool))
    (null_map_vector_size : nat) : option (list bool) :=
  match null_map_holder_vector with
  | [] => None
  | first :: _ =>
      Some (foldl (fun mutable_null_map i =>
                     and_null_maps mutable_null_map
                       (default [] (null_map_holder_vector !! i)))
              first (seq 1 (null_map_vector_size - 1)))
  end.

(** ** The stream of non-joined rows (NonJoinedBlockInputStream) *)

(** Modelled from the spec: HashJoin::isUsed is declared in HashJoin.h,
    outside the sources; it reads the used flag of a cell through
    getUsedSafe. *)
Definition isUsed (hj : HashJoin) (off : nat) : bool := getUsedSafe off (used_flags hj).

(** The cells a table iterator visits, each with its ordinal and mapped
    value.  The order is the one of the hash table's buffer, which is
    outside the sources; the order of the finite map stands for it. *)
Definition map_cells (m : HashMap) : list (nat * Mapped) := (map_to_list m).*2.

(** Every column j being filled receives row [row_num] of column j of the
    referenced block (insertFrom on getByPosition(j)). *)
Definition insert_stored_row (stored : list Block) (ref : RowRef)
    (columns_right : list Column) : list Column :=
  imap (fun j col =>
          insertFrom col (deref_blocks stored [] (rr_block ref) !! j) (rr_row_num ref))
    columns_right.

(** AdderNonJoined<Mapped>::add: nothing for an ASOF structure, the row of
    a single reference, every row of a chain. *)
Definition AdderNonJoined_add (stored : list Block) (mapped : Mapped)
    (rows_added : nat) (columns_right : list Column) : nat * list Column :=
  match mapped with
  | MAsofRowRefs _ => (rows_added, columns_right)
  | MRowRef r => (S rows_added, insert_stored_row stored r columns_right)
  | MRowRefList l =>
      foldl (fun acc it => (S acc.1, insert_stored_row stored it acc.2))
        (rows_added, columns_right) (RowRefList_iter l)
  end.

(** The loop of fillColumns from the iterator [it] to the end of the
    table: a used cell is passed over; after an unused cell the loop stops,
    one cell further, once max_block_size rows have been added. *)
Fixpoint fillColumns_loop (hj : HashJoin) (max_block_size : nat)
    (it : list (nat * Mapped)) (rows_added : nat) (columns_keys_and_right : list Column)
    : nat * list Column * list (nat * Mapped) :=
  match it with
  | [] => (rows_added, columns_keys_and_right, [])
  | (off, mapped) :: it' =>
      if isUsed hj off
      then fillColumns_loop hj max_block_size it' rows_added columns_keys_and_right
      else
        let '(rows_added, columns_keys_and_right) :=
          AdderNonJoined_add (blocks (data hj)) mapped rows_added
            columns_keys_and_right in
        if max_block_size <=? rows_added
        then (rows_added, columns_keys_and_right, it')
        else fillColumns_loop hj max_block_size it' rows_added columns_keys_and_right
  end.

(** fillColumns: the iterator starts at the beginning of the table on the
    first call and is kept in [position] between calls. *)
Definition fillColumns (hj : HashJoin) (max_block_size : nat)
    (position : option (list (nat * Mapped))) (map : HashMap)
    (columns_keys_and_right : list Column)
    : nat * list Column * option (list (nat * Mapped)) :=
  let it := default (map_cells map) position in
  let '(rows_added, columns, it) :=
    fillColumns_loop hj max_block_size it 0 columns_keys_and_right in
  (rows_added, columns, Some it).

Definition fillColumnsFromMap (hj : HashJoin) (max_block_size : nat)
    (position : option (list (nat * Mapped))) (map : HashMap)
    (columns_keys_and_right : list Column)
    : Outcome (nat * list Column * option (list (nat * Mapped))) :=
  if is_join_variant (type (data hj))
  then Ok (fillColumns hj max_block_size position map columns_keys_and_right)
  else Throw UNSUPPORTED_JOIN_KEYS.

(** The rows of one saved null map: every row whose byte is set. *)
Definition fill_null_rows (stored : list Block) (block : nat) (nullmap : list bool)
    (rows_added : nat) (columns_keys_and_right : list Column) : nat * list Column :=
  foldl (fun acc row =>
           if default false (nullmap !! row)
           then (S acc.1,
                 insert_stored_row stored (mkRowRef (StoredBlock block) row) acc.2)
           else acc)
    (rows_added, columns_keys_and_right) (seq 0 (length nullmap)).

(** The loop of fillNullsFromBlocks over the saved null maps, entered for
    an entry only while fewer than max_block_size rows have been added. *)
Fixpoint fillNullsFromBlocks_loop (stored : list Block) (max_block_size : nat)
    (it : list (nat * list bool)) (rows_added : nat)
    (columns_keys_and_right : list Column)
    : nat * list Column * list (nat * list bool) :=
  match it with
  | [] => (rows_added, columns_keys_and_right, [])
  | (block, nullmap) :: it' =>
      if rows_added <? max_block_size then
        let '(rows_added, columns_keys_and_right) :=
          fill_null_rows stored block nullmap rows_added columns_keys_and_right in
        fillNullsFromBlocks_loop stored max_block_size it' rows_added
          columns_keys_and_right
      else (rows_added, columns_keys_and_right, it)
  end.

Definition fillNullsFromBlocks (hj : HashJoin) (max_block_size : nat)
    (nulls_position : option (list (nat * list bool)))
    (columns_keys_and_right : list Column) (rows_added : nat)
    : nat * list Column * option (list (nat * list bool)) :=
  let it := default (blocks_nullmaps (data hj)) nulls_position in
  let '(rows_added, columns, it) :=
    fillNullsFromBlocks_loop (blocks (data hj)) max_block_size it rows_added
      columns_keys_and_right in
  (rows_added, columns, Some it).

(** The two iterators a stream keeps between reads. *)
Record NonJoinedPosition := mkNonJoinedPosition {
  position : option (list (nat * Mapped));
  nulls_position : option (list (nat * list bool));
}.

Section NonJoined.

(** The block NotJoined builds from the filled right columns
    (correctLowcardAndNullability, addLeftColumns, addRightColumns and
    copySameKeys over the result sample block): the helper is outside the
    sources and is taken as it is. *)
Variable NotJoined_block : Block -> nat -> list Column -> Block.

(** createBlock.  [None] stands for the block without columns that
    tells the caller the stream has ended.  The table read is maps[0]; the
    source indexes it unchecked, an instance without tables reads as an
    empty table. *)
Definition createBlock (hj : HashJoin) (stream : NonJoinedBlockInputStream)
    (pos : NonJoinedPosition) : Outcome (option Block) * NonJoinedPosition :=
  let columns_right := map cloneEmpty (sample_block (data hj)) in
  if joinDispatch_matches (kind hj) (strictness hj) then
    match fillColumnsFromMap hj (nj_max_block_size stream) (position pos)
            (default ∅ (maps (data hj) !! 0)) columns_right with
    | Throw e => (Throw e, pos)
    | Ok (rows_added, columns_right, position') =>
        let '(rows_added, columns_right, nulls_position') :=
          fillNullsFromBlocks hj (nj_max_block_size stream) (nulls_position pos)
            columns_right rows_added in
        let pos' := mkNonJoinedPosition position' nulls_position' in
        if bool_decide (rows_added = 0) then (Ok None, pos')
        else (Ok (Some (NotJoined_block (nj_result_sample_block stream) rows_added
                          columns_right)), pos')
    end
  else (Throw LOGICAL_ERROR, pos).

Definition readImpl (hj : HashJoin) (stream : NonJoinedBlockInputStream)
    (pos : NonJoinedPosition) : Outcome (option Block) * NonJoinedPosition :=
  if bool_decide (blocks (data hj) = []) then (Ok None, pos)
  else createBlock hj stream pos.

(** The blocks a reader gets: it reads until the stream ends or throws. *)
Fixpoint read_all (fuel : nat) (hj : HashJoin) (stream : NonJoinedBlockInputStream)
    (pos : NonJoinedPosition) : list Block :=
  match fuel with
  | 0 => []
  | S fuel' =>
      match readImpl hj stream pos with
      | (Ok (Some block), pos') => block :: read_all fuel' hj stream pos'
      | _ => []
      end
  end.

End NonJoined.

(** The columns after the rows [refs] were appended, in order. *)
Definition rows_columns (stored : list Block) (refs : list RowRef)
    (columns : list Column) : list Column :=
  foldl (fun columns ref => insert_stored_row stored ref columns) columns refs.

(** The right rows left to a stream at a position: the rows of the unused
    cells the table iterator has not passed, then the rows marked in the
    saved null maps the second iterator has not passed. *)
Definition unused_rows (hj : HashJoin) (it : list (nat * Mapped)) : list RowRef :=
  flat_map (fun cell => mapped_chain cell.2)
    (List.filter (fun cell => negb (isUsed hj cell.1)) it).

Definition null_rows (it : list (nat * list bool)) : list RowRef :=
  flat_map (fun entry =>
              map (mkRowRef (StoredBlock entry.1))
                (List.filter (fun row => default false (entry.2 !! row))
                   (seq 0 (length entry.2))))
    it.

Definition rows_left (hj : HashJoin) (pos : NonJoinedPosition) : list RowRef :=
  unused_rows hj (default (map_cells (default ∅ (maps (data hj) !! 0))) (position pos))
  ++ null_rows (default (blocks_nullmaps (data hj)) (nulls_position pos)).

(** The cells and saved null maps a position has not passed. *)
Definition entries_left (hj : HashJoin) (pos : NonJoinedPosition) : nat :=
  length (default (map_cells (default ∅ (maps (data hj) !! 0))) (position pos))
  + length (default (blocks_nullmaps (data hj)) (nulls_position pos)).

(** Scenario S3: RIGHT ALL over the rows (1,a), (1,b), (2,c), probed with
    the left row k=1; the stream is read in blocks of at most ten rows and
    its right columns are returned as they were filled. *)
Definition kv_right_s3 : Block :=
  [int_col "k" [1; 1; 2]%Z; str_col "v" ["a"; "b"; "c"]%string].

Definition s3_probed : HashJoin :=
  (joinBlock rt0 (build (kv_join Right All) kv_sample [kv_right_s3] true)
     k_left_one None).1.2.

Definition s3_stream : NonJoinedBlockInputStream := mkNonJoinedBlockInputStream [] 10.

Definition right_columns_only (result_sample_block : Block) (rows_added : nat)
    (columns_right : list Column) : Block := columns_right.

(** ** joinGet and reuseJoinedData *)

(** HashJoin::joinGet.  The key block takes the names of the first
    disjunct's right keys, position by position (the source indexes
    key_names_right[0] unchecked; a column without a key name keeps its
    own).  makeAddedColumns<Left, Any> then probes the first table only
    (maps_vector holds maps[0]) and joinBlockImpl<Left, Any> neither
    filters nor replicates, it only inserts the required right keys the
    key block lacks; the last column of the block is returned (the
    source reads position columns() - 1 unchecked; the embedding throws on
    a block without columns).  The used flags are left out: the source
    asserts statically that a Left Any table is not flagged. *)
Definition joinGet (rt : Runtime) (hj : HashJoin)
    (block block_with_columns_to_add : Block) : Outcome Column :=
  let is_valid :=
    (bool_decide (strictness hj = Any) || bool_decide (strictness hj = RightAny))
    && bool_decide (kind hj = Left) in
  if negb is_valid then Throw INCOMPATIBLE_TYPE_OF_JOIN
  else
    let keys : Block :=
      imap (fun i key =>
              mkColumn (default (col_name key) (hd [] (key_names_right hj) !! i))
                (col_type key) (col_nullable key) (col_cells key))
        block in
    let maps_vector := from_option (fun m => [m]) [] (maps (data hj) !! 0) in
    do lkeys <- left_keys keys (key_names_right hj);
    do (columns, right_indexes) <-
      AddedColumns_ctor hj block_with_columns_to_add keys false;
    let env_of find deref :=
      mkProbeEnv Left Any (1 <? length maps_vector) find (lkeys.*2) deref right_indexes
        (asof_inequality hj) (last (hd [] (lkeys.*1))) in
    do st <-
      (if overDictionary hj then
         match dictionary_reader (table_join hj), hd [] (lkeys.*1) with
         | Some reader, key_column :: _ =>
             let '(read_result, found, positions) := reader key_column in
             let read_result :=
               if forceNullableRight (table_join hj)
               then convertColumnsToNullable read_result else read_result in
             Ok (joinRightColumns rt
                   (env_of [dict_find found positions]
                      (deref_blocks (blocks (data hj)) read_result))
                   (block_rows keys) columns JoinUsedFlags_init)
         | _, _ => Throw LOGICAL_ERROR
         end
       else if is_join_variant (type (data hj)) then
         Ok (joinRightColumns rt
               (env_of (imap (fun d key_columns =>
                                hash_find Any (default ∅ (maps_vector !! d)) key_columns)
                          (lkeys.*1))
                  (deref_blocks (blocks (data hj)) []))
               (block_rows keys) columns (used_flags hj))
       else Throw UNSUPPORTED_JOIN_KEYS);
    do joined <-
      joinBlockImpl hj Left Any (keys ++ ps_columns st) (ps_filter st)
        (ps_offsets_to_replicate st) (length block);
    match last joined with
    | Some column => Ok column
    | None => Throw LOGICAL_ERROR
    end.

(** HashJoin::reuseJoinedData: the instance takes the right storage of
    [join] and re-creates its used flags for each table in turn. *)
Definition reuseJoinedData (rt : Runtime) (hj join : HashJoin) : HashJoin :=
  let hj := set_data hj (data join) in
  foldl (fun hj map =>
           if joinDispatch_matches (kind hj) (strictness hj)
           then set_used_flags hj
                  (reinit rt (kind hj) (strictness hj)
                     (getBufferSizeInCells rt map + 1) (used_flags hj))
           else hj)
    hj (maps (data hj)).

(** ** The update lock and the order on used flags *)

(** HashJoin::setLock (declared in HashJoin.h): the instance after a
    storage took the lock that forbids updates. *)
Definition setLock (hj : HashJoin) : HashJoin :=
  mkHashJoin (table_join hj) (kind hj) (strictness hj) (key_names_right hj)
    (key_names_left hj) (nullable_right_side hj) (nullable_left_side hj)
    (any_take_last_row hj) (asof_inequality hj) (data hj) (key_sizes hj)
    (right_table_keys hj) (required_right_keys hj) (required_right_keys_sources hj)
    (sample_block_with_columns_to_add hj)
    (used_flags hj) true.


(** ** Notions for the known-rows holder *)

(** The pointers a holder has been given: [adds] lists the ranges passed
    to the successive calls of add. *)
Definition KnownRowsHolder_after (adds : list (list BlockPtr)) : KnownRowsHolder :=
  foldl (fun kr new => KnownRowsHolder_add new kr) KnownRowsHolder_init adds.

(** What a holder stands for: the sequence of the pointers added so far,
    in the array while it fits and in the set afterwards. *)
Definition KnownRowsHolder_holds (kr : KnownRowsHolder) (all : list BlockPtr) : Prop :=
  items kr = length all
  /\ (items kr <= MAX_LINEAR -> take (items kr) (linh kr) = all)
  /\ (MAX_LINEAR < items kr -> forall p, p ∈ logh kr <-> p ∈ all).

(** ** Notions for ingestion *)

(** The rows of a block that carry [key] under a clear null map, in row
    order. *)
Definition rows_with_key (key_columns : list Column) (null_map : option (list bool))
    (key : Key) (rows : list nat) : list nat :=
  List.filter (fun i => negb (null_at null_map i)
                        && bool_decide (key_at key_columns i = key)) rows.

(** The number of row references the table holds under [key]. *)
Definition chain_length (m : HashMap) (key : Key) : nat :=
  match m !! key with
  | Some (_, mapped) => length (mapped_chain mapped)
  | None => 0
  end.

(** A nullable key column with a NULL in its second row. *)
Definition nullable_key : Column :=
  mkColumn "k" (int_type 8) true [Some (VInt 1); None].

(** ** Row references and the right storage *)

(** The row references a mapped value holds. *)
Definition mapped_refs (mapped : Mapped) : list RowRef :=
  match mapped with
  | MRowRef r => [r]
  | MRowRefList l => RowRefList_iter l
  | MAsofRowRefs a => a.*2
  end.

(** Every row reference of the table points at one of the first [n]
    blocks of the right storage. *)
Definition refs_below (n : nat) (m : HashMap) : Prop :=
  map_Forall (fun _ v =>
                Forall (fun r => exists b, rr_block r = StoredBlock b /\ b < n)
                  (mapped_refs v.2)) m.

(** No table of the instance holds a dangling row reference. *)
Definition refs_in_storage (hj : HashJoin) : Prop :=
  Forall (refs_below (length (blocks (data hj)))) (maps (data hj)).

(** ** The structure of the stored blocks and ASOF fixtures *)

(** Every block of the right storage carries the columns of the saved
    sample, under the same names and in the same order. *)
Definition blocks_structured (hj : HashJoin) : Prop :=
  Forall (fun b : Block => map col_name b = map col_name (sample_block (data hj)))
    (blocks (data hj)).

(** A right table with the equi-join key k and the ASOF column t. *)
Definition asof_join (k : Kind) : TableJoin :=
  mkTableJoin k Asof [["k"; "t"]]%string [["k"; "t"]]%string
    false false Less false 1000 no_limits None [].

Definition asof_sample : Block := [int_col "k" []; int_col "t" []; str_col "v" []].

(** ** Notions for the cross join *)

(** The calls a caller makes for one left block of a cross join: the first
    without continuation, then one per continuation returned, each on the
    block the continuation carries.  Returns the joined blocks in order and
    the continuation left when the calls stop. *)
Fixpoint cross_join_calls (fuel : nat) (hj : HashJoin) (block : Block)
    (not_processed : option NotProcessedCrossJoin)
    : list Block * option NotProcessedCrossJoin :=
  match fuel with
  | 0 => ([], not_processed)
  | S fuel' =>
      let '(out, continuation) := joinBlockImplCross hj block not_processed in
      match continuation with
      | Some c =>
          let '(outs, final) := cross_join_calls fuel' hj (np_block c) continuation in
          (out :: outs, final)
      | None => ([out], None)
      end
  end.

(** The unsplit product: every left row in order, each with every right
    block in storage order, written by the loop of the source over the
    right blocks. *)
Definition cross_product (hj : HashJoin) (block : Block) : list Column :=
  foldl (fun dst_columns left_row =>
           (cross_right_blocks (blocks (data hj)) 0 0 left_row block (length block)
              dst_columns 0).1.1)
    (map cloneEmpty block ++ map cloneEmpty (sample_block_with_columns_to_add hj))
    (seq 0 (block_rows block)).

(** The cells of column [col_num] of a block ([] when it has no such
    column). *)
Definition cells_at (col_num : nat) (b : list Column) : list (option Value) :=
  from_option col_cells [] (b !! col_num).

Definition extend_cells (d : Column) (cells : list (option Value)) : Column :=
  mkColumn (col_name d) (col_type d) (col_nullable d) (col_cells d ++ cells).

(** What one right block adds to destination column [col_num] for one
    left row, and what all the right blocks add for a list of left rows. *)
Definition cross_piece (src : list Column) (num_existing left_row : nat)
    (block_right : Block) (col_num : nat) (d : Column) : list (option Value) :=
  if col_num <? num_existing
  then replicate (block_rows block_right)
         match src !! col_num with
         | Some c => default (default_cell d) (col_cells c !! left_row)
         | None => default_cell d
         end
  else take (block_rows block_right)
         (drop 0 (from_option col_cells [] (block_right !! (col_num - num_existing)))).

Definition cross_cells (src : list Column) (num_existing : nat)
    (right_blocks : list Block) (left_rows : list nat) (col_num : nat) (d : Column)
    : list (option Value) :=
  flat_map (fun left_row =>
              flat_map (fun block_right =>
                          cross_piece src num_existing left_row block_right col_num d)
                right_blocks)
    left_rows.

(** ** Notions for ALL joins *)

(** The offsets of a replication: the running totals of the rows each
    left row contributed. *)
Fixpoint running_totals (from : nat) (counts : list nat) : list nat :=
  match counts with
  | [] => []
  | c :: counts' => (from + c) :: running_totals (from + c) counts'
  end.

(** The state of an ALL probe once the left rows counted in [counts] are
    done: the added columns hold as many rows as the running offset says
    (pending defaults included), and the offsets recorded so far are the
    running totals of [counts]. *)
Definition all_inv (env : ProbeEnv) (rows : nat) (counts : list nat) (st : ProbeState)
    : Prop :=
  balanced (ps_current_offset st) st
  /\ length (pe_right_indexes env) = length (ps_columns st)
  /\ length (ps_offsets_to_replicate st) = rows
  /\ take (length counts) (ps_offsets_to_replicate st) = running_totals 0 counts
  /\ ps_current_offset st = sum_list counts.

(** The rows left row [i] receives in a single-disjunct ALL probe: one per
    row reference of the chain its key maps to; one default row under
    add_missing, none otherwise, when the key is NULL or not in the table. *)
Definition all_rows_of (env : ProbeEnv) (i : nat) : nat :=
  let missing :=
    if add_missing (pe_kind env) (pe_strictness env) then 1 else 0 in
  if null_at (mjoin (pe_null_map env !! 0)) i then missing
  else match (pe_find env !! 0) ≫= (fun find => find i) with
       | Some (_, mapped) => length (mapped_chain mapped)
       | None => missing
       end.

(** The left block as joinBlock hands it to the probe: materialized, and
    nullable when the left side is, for the kinds Right and Full. *)
Definition left_block (hj : HashJoin) (block : Block) : Block :=
  if bool_decide (kind hj = Right) || bool_decide (kind hj = Full) then
    let block := materializeBlock block in
    if nullable_left_side hj then convertColumnsToNullable block else block
  else block.

(** The rows an ALL join over one disjunct emits for left row [i] of a
    block with the extracted key columns and null map. *)
Definition all_join_rows (hj : HashJoin) (key_columns : list Column)
    (null_map : option (list bool)) (i : nat) : nat :=
  let missing := if add_missing (kind hj) All then 1 else 0 in
  if null_at null_map i then missing
  else match default ∅ (maps (data hj) !! 0) !! key_at key_columns i with
       | Some (_, mapped) => length (mapped_chain mapped)
       | None => missing
       end.

(** * Properties *)

(** Evaluates the compile-time tests of JoinFeatures at a given kind and
    strictness. *)
Ltac join_features k s :=
  let ev t := (let v := eval vm_compute in t in change t with v) in
  ev (is_asof_join s); ev (is_all_join s); ev (is_any_join s);
  ev (is_semi_join s); ev (is_anti_join s);
  ev (bool_decide (k = Right)); ev (bool_decide (k = Inner));
  ev (bool_decide (k = Full)); ev (bool_decide (k = Left));
  ev (bool_decide (k = Cross));
  ev (add_missing k s); ev (need_replication k s); ev (need_filter k s);
  cbn [andb orb negb].

(** ** joinBlockImpl: the copies of left keys under required right key names *)

Lemma need_filter_no_replication (k : Kind) (s : Strictness) :
  need_filter k s = true -> need_replication k s = false.
Proof.
  unfold need_filter. destruct (need_replication k s); [discriminate | reflexivity].
Qed.

Lemma map_existing_app (f : Column -> Column) (b c : Block) :
  map_existing (length b) f (b ++ c) = map f b ++ c.
Proof.
  unfold map_existing. apply list_eq. intros i. rewrite list_lookup_imap.
  destruct (Nat.ltb_spec i (length b)) as [Hlt|Hge].
  - rewrite !lookup_app_l by (rewrite ?length_map; exact Hlt).
    change (map f b) with (f <$> b). rewrite list_lookup_fmap. reflexivity.
  - rewrite !lookup_app_r by (rewrite ?length_map; exact Hge).
    rewrite length_map. exact (option_fmap_id _).
Qed.

Lemma findByName_app (b c : Block) (name : string) :
  findByName (b ++ c) name
  = match findByName b name with
    | Some x => Some x
    | None => findByName c name
    end.
Proof.
  unfold findByName. induction b as [|x b IH]; simpl; [reflexivity|].
  destruct (bool_decide (col_name x = name)); [reflexivity | exact IH].
Qed.

Lemma findByName_In (b : Block) (name : string) (c : Column) :
  findByName b name = Some c -> In c b /\ col_name c = name.
Proof.
  unfold findByName. induction b as [|x b IH]; simpl; [discriminate|].
  destruct (bool_decide_reflect (col_name x = name)) as [Hx|Hx].
  - intros [= <-]. split; [left; reflexivity | exact Hx].
  - intros H. destruct (IH H) as [Hin Hn]. split; [right; exact Hin | exact Hn].
Qed.

Lemma getByName_In (b : Block) (name : string) (c : Column) :
  getByName b name = Ok c -> In c b /\ col_name c = name.
Proof.
  unfold getByName. destruct (findByName b name) as [x|] eqn:Hx; [|discriminate].
  intros [= <-]. apply findByName_In. exact Hx.
Qed.

Lemma block_has_findByName (b : Block) (name : string) :
  block_has b name = true -> is_Some (findByName b name).
Proof.
  unfold block_has, findByName. induction b as [|x b IH]; simpl; [discriminate|].
  destruct (bool_decide (col_name x = name)); simpl; [intros _; eexists; reflexivity|].
  exact IH.
Qed.

Lemma block_has_app_l (b c : Block) (name : string) :
  block_has b name = true -> block_has (b ++ c) name = true.
Proof.
  unfold block_has. rewrite existsb_app. intros ->. reflexivity.
Qed.

Lemma block_has_names (b b' : Block) (name : string) :
  map col_name b = map col_name b' -> block_has b name = block_has b' name.
Proof.
  unfold block_has. revert b'. induction b as [|c b IH]; intros [|c' b'] Hn;
    try discriminate Hn; [reflexivity|].
  simpl in *. injection Hn as Hc Hb. rewrite Hc, (IH b' Hb). reflexivity.
Qed.

Lemma imap_same_names (f : nat -> Column -> Column) (l : list Column) :
  (forall i c, col_name (f i c) = col_name c) ->
  map col_name (imap f l) = map col_name l.
Proof.
  revert f. induction l as [|c l IH]; intros f Hf; [reflexivity|].
  simpl. rewrite Hf. f_equal. apply IH. intros i c'. apply Hf.
Qed.

Lemma block_has_map_existing (existing_columns : nat) (f : Column -> Column)
    (b : Block) (name : string) :
  (forall c, col_name (f c) = col_name c) ->
  block_has (map_existing existing_columns f b) name = block_has b name.
Proof.
  intros Hf. apply block_has_names. unfold map_existing. apply imap_same_names.
  intros i c. destruct (i <? existing_columns); [apply Hf | reflexivity].
Qed.

Lemma getPositionByName_from_new (b : Block) (c : Column) (pos : nat) :
  findByName b (col_name c) = None ->
  getPositionByName_from (b ++ [c]) (col_name c) pos = Some (pos + length b).
Proof.
  unfold findByName. revert pos. induction b as [|x b IH]; intros pos; simpl.
  - intros _. rewrite bool_decide_eq_true_2 by reflexivity. f_equal. lia.
  - destruct (bool_decide (col_name x = col_name c)); [discriminate|].
    intros H. rewrite IH by exact H. f_equal. lia.
Qed.

Lemma column_rows_filterWithBlanks (src_column : Column) (filter : list bool)
    (inverse_filter : bool) :
  column_rows (filterWithBlanks src_column filter inverse_filter) = length filter.
Proof.
  unfold filterWithBlanks. cbv zeta.
  set (column := convertToFullColumnIfConst src_column).
  assert (Hloop : forall (step : Column -> nat -> Column) (l : list nat) (mut : Column),
            (forall m row, column_rows (step m row) = S (column_rows m)) ->
            column_rows (foldl step mut l) = column_rows mut + length l).
  { intros step l. induction l as [|row l IH]; intros mut Hstep; simpl; [lia|].
    rewrite IH by exact Hstep. rewrite Hstep. lia. }
  assert (Hins : forall m src row, column_rows (insertFrom m src row) = S (column_rows m)).
  { intros m src row. unfold column_rows, insertFrom. simpl.
    rewrite length_app. simpl. lia. }
  destruct inverse_filter; rewrite Hloop; unfold column_rows at 1; simpl;
    rewrite ?length_seq; try reflexivity;
    intros m row; destruct (default false (filter !! row)); apply Hins.
Qed.

Lemma column_rows_correctNullability (column : Column) (nullable : bool) :
  column_rows (correctNullability column nullable) = column_rows column.
Proof.
  unfold correctNullability. destruct nullable; [reflexivity|].
  unfold removeColumnNullability.
  assert (Hinner : column_rows (if col_nullable column
                                then filterWithBlanks column (getNullMapData column) true
                                else column) = column_rows column).
  { destruct (col_nullable column); [|reflexivity].
    rewrite column_rows_filterWithBlanks. unfold getNullMapData, column_rows.
    apply length_map. }
  destruct (col_nullable (if col_nullable column then _ else column)); [|exact Hinner].
  unfold getNestedColumn, column_rows in *. simpl. rewrite length_map. exact Hinner.
Qed.

Lemma column_rows_correctNullability_negated (column : Column) (nullable : bool)
    (negative_null_map : list bool) :
  column_rows (correctNullability_negated column nullable negative_null_map)
  = column_rows column.
Proof.
  unfold correctNullability_negated. destruct nullable.
  - cbv zeta. destruct (_ && _); [|reflexivity].
    unfold applyNegatedNullMap, column_rows. simpl. apply length_imap.
  - unfold removeColumnNullability. destruct (col_nullable column); [|reflexivity].
    unfold getNestedColumn, column_rows. simpl. apply length_map.
Qed.

Lemma col_name_correctNullability_negated (column : Column) (nullable : bool)
    (negative_null_map : list bool) :
  col_name (correctNullability_negated column nullable negative_null_map)
  = col_name column.
Proof.
  unfold correctNullability_negated. destruct nullable.
  - cbv zeta. destruct (_ && _); reflexivity.
  - unfold removeColumnNullability. destruct (col_nullable column); reflexivity.
Qed.

(** The loop appends columns only; it records their positions when asked
    to. *)
Lemma insert_required_right_keys_shape (hj : HashJoin) (s : Strictness)
    (make : Column -> string -> bool -> Column) (record : bool)
    (R Q : Column -> Prop) :
  (record = true -> forall col name nul, col_name (make col name nul) = name) ->
  (forall c, Q c -> R c) ->
  (forall col name nul, R col -> Q (make col name nul)) ->
  forall required i block ps block' ps',
    Forall R block ->
    insert_required_right_keys hj s make record i required block ps = Ok (block', ps') ->
    exists extra,
      block' = block ++ extra
      /\ Forall Q extra
      /\ ps' = ps ++ (if record then seq (length block) (length extra) else []).
Proof.
  intros Hname HQR Hmake.
  induction required as [|right_key rest IH]; intros i block ps block' ps' HR; simpl.
  - intros [= <- <-]. exists []. rewrite !app_nil_r.
    split; [reflexivity|]. split; [constructor|].
    destruct record; simpl; rewrite ?app_nil_r; reflexivity.
  - destruct (findByName block (col_name right_key)) as [present|] eqn:Hfind;
      [apply IH; exact HR|].
    destruct (is_asof_join s && _); [apply IH; exact HR|].
    destruct (getByName block _) as [col|e] eqn:Hcol; simpl; [|discriminate].
    assert (Hin : R col).
    { apply getByName_In in Hcol as [Hc _].
      rewrite Forall_forall in HR. apply HR. apply list_elem_of_In. exact Hc. }
    set (new := make col (col_name right_key)
                  (nullable_right_side hj || col_nullable right_key)).
    assert (HQ : Q new) by (apply Hmake; exact Hin).
    assert (HR' : Forall R (block ++ [new])).
    { apply Forall_app. split; [exact HR|]. constructor; [apply HQR; exact HQ | constructor]. }
    destruct record.
    + assert (Hpos : getPositionByName (block ++ [new]) (col_name right_key)
                     = Ok (length block)).
      { assert (Hnew : col_name new = col_name right_key)
          by (subst new; apply Hname; reflexivity).
        unfold getPositionByName. rewrite <- Hnew.
        rewrite getPositionByName_from_new; [reflexivity|].
        rewrite Hnew. exact Hfind. }
      rewrite Hpos. simpl. intros Hrest.
      destruct (IH _ _ _ _ _ HR' Hrest) as (extra & -> & HQe & ->).
      exists (new :: extra). rewrite <- !app_assoc. simpl.
      split; [reflexivity|]. split; [constructor; assumption|].
      rewrite length_app. simpl. do 2 f_equal. f_equal. lia.
    + intros Hrest.
      destruct (IH _ _ _ _ _ HR' Hrest) as (extra & -> & HQe & ->).
      exists (new :: extra). rewrite <- !app_assoc. simpl.
      split; [reflexivity|]. split; [constructor; assumption | reflexivity].
Qed.

(** The loop returns when the left column of every required right key is
    in the block. *)
Lemma insert_required_right_keys_ok (hj : HashJoin) (s : Strictness)
    (make : Column -> string -> bool -> Column) (record : bool) :
  (record = true -> forall col name nul, col_name (make col name nul) = name) ->
  forall required i block ps,
    Forall (fun j => block_has block
                       (default EmptyString (required_right_keys_sources hj !! j))
                     = true)
      (seq i (length required)) ->
    throws (insert_required_right_keys hj s make record i required block ps) = false.
Proof.
  intros Hname.
  induction required as [|right_key rest IH]; intros i block ps Hsrc; simpl;
    [reflexivity|].
  simpl in Hsrc. apply Forall_cons in Hsrc as [Hhere Hlater].
  destruct (findByName block (col_name right_key)) as [present|] eqn:Hfind;
    [apply IH; exact Hlater|].
  destruct (is_asof_join s && _); [apply IH; exact Hlater|].
  destruct (block_has_findByName _ _ Hhere) as [col Hcol].
  unfold getByName. rewrite Hcol. simpl.
  set (new := make col (col_name right_key)
                (nullable_right_side hj || col_nullable right_key)).
  assert (Hlater' :
    Forall (fun j => block_has (block ++ [new])
                       (default EmptyString (required_right_keys_sources hj !! j))
                     = true)
      (seq (S i) (length rest))).
  { eapply Forall_impl; [exact Hlater|]. intros j Hj. apply block_has_app_l. exact Hj. }
  destruct record; [|apply IH; exact Hlater'].
  assert (Hnew : col_name new = col_name right_key)
    by (subst new; apply Hname; reflexivity).
  unfold getPositionByName. rewrite <- Hnew.
  rewrite getPositionByName_from_new.
  - simpl. apply IH. exact Hlater'.
  - rewrite Hnew. exact Hfind.
Qed.

Lemma foldl_alter_seq (f : Column -> Column) (extra : list Column) :
  forall b : list Column,
    foldl (fun block pos => alter f pos block) (b ++ extra)
      (seq (length b) (length extra))
    = b ++ map f extra.
Proof.
  induction extra as [|x extra IH]; intros b; [reflexivity|].
  simpl.
  replace (alter f (length b) (b ++ x :: extra)) with ((b ++ [f x]) ++ extra).
  - replace (S (length b)) with (length (b ++ [f x]))
      by (rewrite length_app; simpl; lia).
    rewrite IH, <- app_assoc. reflexivity.
  - rewrite <- app_assoc. simpl.
    replace (length b) with (length b + 0) at 1 by lia.
    rewrite alter_app_r. reflexivity.
Qed.

(** What joinBlockImpl returns: the existing columns filtered or
    replicated, the columns the probe added, and the copies of left keys
    for the required right keys the block lacked. *)
Lemma joinBlockImpl_shape (hj : HashJoin) (k : Kind) (s : Strictness)
    (existing added out : Block) (row_filter : list bool)
    (offsets_to_replicate : list nat) :
  joinBlockImpl hj k s (existing ++ added) row_filter offsets_to_replicate
    (length existing) = Ok out ->
  exists extra,
    out
    = (if need_filter k s then map (column_filter row_filter) existing
       else if need_replication k s
       then map (column_replicate offsets_to_replicate) existing
       else existing)
      ++ added
      ++ (if need_replication k s
          then map (column_replicate offsets_to_replicate) extra else extra)
    /\ (need_filter k s = true ->
        forall n,
          Forall (fun c => column_rows c = n)
            (map (column_filter row_filter) existing ++ added) ->
          Forall (fun c => column_rows c = n) extra)
    /\ (need_filter k s = false ->
        Forall (fun c => column_rows c = length row_filter) extra).
Proof.
  unfold joinBlockImpl. cbv zeta.
  destruct (need_filter k s) eqn:Hnf.
  - rewrite (need_filter_no_replication _ _ Hnf), map_existing_app.
    set (make := fun col name is_nullable =>
                   correctNullability (with_name name col) is_nullable).
    destruct (insert_required_right_keys hj s make false 0 _ _ [])
      as [[block' ps']|e] eqn:Hloop; simpl; [|discriminate].
    intros [= <-].
    assert (Hrows : forall n col name nul,
              column_rows col = n -> column_rows (make col name nul) = n).
    { intros n col name nul Hc. subst make. cbv beta.
      rewrite column_rows_correctNullability. exact Hc. }
    destruct (insert_required_right_keys_shape hj s make false
                (fun _ => True) (fun _ => True)
                ltac:(discriminate) ltac:(auto) ltac:(auto)
                _ _ _ _ _ _ ltac:(apply Forall_forall; auto) Hloop)
      as (extra & Hb & _ & _).
    exists extra. split; [rewrite Hb, <- app_assoc; reflexivity|].
    split; [|discriminate].
    intros _ n Hn.
    destruct (insert_required_right_keys_shape hj s make false
                (fun c => column_rows c = n) (fun c => column_rows c = n)
                ltac:(discriminate) ltac:(auto) (Hrows n)
                _ _ _ _ _ _ Hn Hloop) as (extra' & Hb' & HQ & _).
    rewrite Hb in Hb'. apply app_inv_head in Hb'. subst extra'. exact HQ.
  - destruct (negb (length (required_right_keys hj) =? 0)).
    + set (make := fun col name is_nullable =>
                     correctNullability_negated
                       (with_name name (filterWithBlanks col row_filter false))
                       is_nullable row_filter).
      destruct (insert_required_right_keys hj s make (need_replication k s) 0 _ _ [])
        as [[block' ps']|e] eqn:Hloop; simpl; [|discriminate].
      intros [= <-].
      assert (Hname : need_replication k s = true ->
                      forall col name nul, col_name (make col name nul) = name).
      { intros _ col name nul. subst make. cbv beta.
        rewrite col_name_correctNullability_negated. reflexivity. }
      assert (Hrows : forall col name nul,
                True -> column_rows (make col name nul) = length row_filter).
      { intros col name nul _. subst make. cbv beta.
        rewrite column_rows_correctNullability_negated.
        apply column_rows_filterWithBlanks. }
      destruct (insert_required_right_keys_shape hj s make (need_replication k s)
                  (fun _ => True) (fun c => column_rows c = length row_filter)
                  Hname (fun _ _ => I) Hrows
                  _ _ _ _ _ _ ltac:(apply Forall_forall; intros; exact I) Hloop)
        as (extra & -> & HQ & ->).
      exists extra. split; [|split; [discriminate | intros _; exact HQ]].
      destruct (need_replication k s).
      * rewrite <- app_assoc, map_existing_app. simpl.
        rewrite (app_assoc _ added extra).
        replace (length (existing ++ added))
          with (length (map (column_replicate offsets_to_replicate) existing ++ added))
          by (rewrite !length_app, length_map; reflexivity).
        rewrite foldl_alter_seq, <- app_assoc. reflexivity.
      * rewrite <- app_assoc. reflexivity.
    + simpl. intros [= <-]. exists [].
      split; [|split; [discriminate | intros _; constructor]].
      destruct (need_replication k s); simpl;
        rewrite ?map_existing_app, ?app_nil_r; reflexivity.
Qed.

(** joinBlockImpl returns when the left column of every required right key
    is among the existing columns. *)
Lemma joinBlockImpl_ok (hj : HashJoin) (k : Kind) (s : Strictness)
    (existing added : Block) (row_filter : list bool)
    (offsets_to_replicate : list nat) :
  required_sources_in hj existing ->
  throws (joinBlockImpl hj k s (existing ++ added) row_filter offsets_to_replicate
            (length existing)) = false.
Proof.
  intros Hsrc. unfold joinBlockImpl. cbv zeta.
  assert (Hok : forall make record block,
    (record = true -> forall col name nul, col_name (make col name nul) = name) ->
    (forall name, block_has existing name = true -> block_has block name = true) ->
    exists r, insert_required_right_keys hj s make record 0 (required_right_keys hj)
                block [] = Ok r).
  { intros make record block Hname Hhas.
    pose proof (insert_required_right_keys_ok hj s make record Hname
                  (required_right_keys hj) 0 block []) as H.
    destruct (insert_required_right_keys hj s make record 0 _ block []) as [r|e].
    - exists r. reflexivity.
    - discriminate H. eapply Forall_impl; [exact Hsrc|]. intros j Hj. apply Hhas. exact Hj. }
  destruct (need_filter k s).
  - destruct (Hok (fun col name is_nullable =>
                     correctNullability (with_name name col) is_nullable) false
                (map_existing (length existing) (column_filter row_filter)
                   (existing ++ added)))
      as [[block' ps'] ->]; [discriminate | | reflexivity].
    intros name Hn. rewrite block_has_map_existing by reflexivity.
    apply block_has_app_l. exact Hn.
  - destruct (negb (length (required_right_keys hj) =? 0)); [|reflexivity].
    destruct (Hok (fun col name is_nullable =>
                     correctNullability_negated
                       (with_name name (filterWithBlanks col row_filter false))
                       is_nullable row_filter)
                (need_replication k s) (existing ++ added))
      as [[block' ps'] ->]; [| |reflexivity].
    + intros _ col name nul. apply col_name_correctNullability_negated.
    + intros name Hn. apply block_has_app_l. exact Hn.
Qed.

(** joinBlockImpl throws for a missing column only. *)
Lemma insert_required_right_keys_throws (hj : HashJoin) (s : Strictness)
    (make : Column -> string -> bool -> Column) (record : bool) (e : ErrorCode) :
  forall required i block ps,
    insert_required_right_keys hj s make record i required block ps = Throw e ->
    e = NOT_FOUND_COLUMN_IN_BLOCK.
Proof.
  induction required as [|right_key rest IH]; intros i block ps; simpl; [discriminate|].
  destruct (findByName block (col_name right_key)); [apply IH|].
  destruct (is_asof_join s && _); [apply IH|].
  unfold getByName.
  destruct (findByName block _) as [col|]; simpl; [|intros [= <-]; reflexivity].
  destruct record; [|apply IH].
  unfold getPositionByName.
  destruct (getPositionByName_from _ _ 0) as [pos|]; simpl;
    [apply IH | intros [= <-]; reflexivity].
Qed.

Lemma joinBlockImpl_throws (hj : HashJoin) (k : Kind) (s : Strictness) (block : Block)
    (row_filter : list bool) (offsets_to_replicate : list nat)
    (existing_columns : nat) (e : ErrorCode) :
  joinBlockImpl hj k s block row_filter offsets_to_replicate existing_columns = Throw e ->
  e = NOT_FOUND_COLUMN_IN_BLOCK.
Proof.
  unfold joinBlockImpl. cbv zeta.
  destruct (need_filter k s).
  - destruct (insert_required_right_keys hj s _ false 0 _ _ []) as [[b ps]|e'] eqn:Hloop;
      simpl; [discriminate|].
    intros [= <-]. eapply insert_required_right_keys_throws. exact Hloop.
  - destruct (negb (length (required_right_keys hj) =? 0)); [|discriminate].
    destruct (insert_required_right_keys hj s _ _ 0 _ _ []) as [[b ps]|e'] eqn:Hloop;
      simpl; [discriminate|].
    intros [= <-]. eapply insert_required_right_keys_throws. exact Hloop.
Qed.

(** Without required right keys joinBlockImpl only filters or replicates
    the existing columns. *)
Lemma joinBlockImpl_no_required (hj : HashJoin) (k : Kind) (s : Strictness)
    (block : Block) (row_filter : list bool) (offsets_to_replicate : list nat)
    (existing_columns : nat) :
  required_right_keys hj = [] ->
  joinBlockImpl hj k s block row_filter offsets_to_replicate existing_columns
  = Ok (if need_filter k s
        then map_existing existing_columns (column_filter row_filter) block
        else if need_replication k s
        then map_existing existing_columns (column_replicate offsets_to_replicate) block
        else block).
Proof.
  intros Hnone. unfold joinBlockImpl. rewrite Hnone. cbv zeta. simpl.
  destruct (need_filter k s) eqn:Hnf; simpl.
  - rewrite (need_filter_no_replication _ _ Hnf). reflexivity.
  - destruct (need_replication k s); reflexivity.
Qed.

(** ** The key method chooser *)

Lemma size_t_add_lt (a b : N) : (size_t_add a b < size_t_modulus)%N.
Proof. unfold size_t_add. apply N.mod_lt. discriminate. Qed.

Lemma chooseMethod_loop_spec (key_columns : list IColumn) :
  forall j key_sizes acc,
    (acc < size_t_modulus)%N ->
    (chooseMethod_loop key_columns j key_sizes acc).1.1
      = forallb isFixedAndContiguous key_columns
    /\ (forallb isFixedAndContiguous key_columns = true ->
        (chooseMethod_loop key_columns j key_sizes acc).2
          = ((acc + total_bytes key_columns) mod size_t_modulus)%N).
Proof.
  induction key_columns as [|c rest IH]; intros j key_sizes acc Hacc; simpl.
  - split; [reflexivity|]. intros _.
    rewrite N.add_0_r, N.mod_small; [reflexivity | exact Hacc].
  - destruct (isFixedAndContiguous c); simpl; [|split; [reflexivity | discriminate]].
    destruct (IH (S j) (<[j := sizeOfValueIfFixed c]> key_sizes)
                (size_t_add acc (sizeOfValueIfFixed c))
                (size_t_add_lt _ _)) as [IH1 IH2].
    split; [exact IH1|]. intros Hall. rewrite (IH2 Hall).
    unfold size_t_add. rewrite N.Div0.add_mod_idemp_l.
    f_equal. lia.
Qed.

Lemma numeric_method_by_width (w : N) :
  numeric_method w =
  match w with
  | 1%N => Ok key8
  | 2%N => Ok key16
  | 4%N => Ok key32
  | 8%N => Ok key64
  | 16%N => Ok keys128
  | 32%N => Ok keys256
  | _ => Throw LOGICAL_ERROR
  end.
Proof.
  destruct w as [|p]; [reflexivity|].
  do 7 (try reflexivity; destruct p as [p|p|]); reflexivity.
Qed.

(** C6: the tag [chooseMethod] returns is the one the specification
    prescribes for the key columns: CROSS for none; for one numeric key the
    tag of its width (1, 2, 4, 8 give key8 .. key64, 16 and 32 give keys128
    and keys256, any other width a logical error); otherwise keys128 or
    keys256 when all keys are fixed and their total width is at most 16 or
    32 bytes; otherwise key_string or key_fixed_string for a single string or
    fixed-string column; hashed for every other combination.  The total
    width is assumed to fit the size_t accumulator. *)
Theorem chooseMethod_as_specified (key_columns : list IColumn) (key_sizes : Sizes) :
  (total_bytes key_columns < size_t_modulus)%N ->
  (chooseMethod key_columns key_sizes).1 = chooseMethod_spec key_columns.
Proof.
  intros Hfit. unfold chooseMethod, chooseMethod_spec.
  destruct key_columns as [|c rest]; [reflexivity|].
  cbv zeta.
  change (bool_decide (length (c :: rest) = 0)) with false. cbv iota.
  pose proof (chooseMethod_loop_spec (c :: rest) 0
                (resize (length (c :: rest)) 0%N key_sizes) 0%N) as Hloop.
  destruct (chooseMethod_loop (c :: rest) 0
              (resize (length (c :: rest)) 0%N key_sizes) 0%N)
    as [[all_fixed sizes] keys_bytes].
  destruct Hloop as [Hall Hbytes]; [reflexivity|].
  cbn [fst snd] in Hall, Hbytes. rewrite <- Hall.
  remember (total_bytes (c :: rest)) as total eqn:Etotal.
  assert (Hkb : all_fixed = true -> keys_bytes = total).
  { intros ->. rewrite Hbytes by (symmetry; exact Hall).
    rewrite N.add_0_l. apply N.mod_small. exact Hfit. }
  clear Etotal Hbytes Hall Hfit.
  destruct rest as [|c2 rest]; cbn [only_column from_option].
  - destruct (isNumeric c); cbn [fst].
    + apply numeric_method_by_width.
    + destruct all_fixed; cbn [andb].
      * rewrite (Hkb eq_refl).
        destruct (total <=? 16)%N; [reflexivity|].
        destruct (total <=? 32)%N; [reflexivity|].
        destruct (is_ColumnString c); [reflexivity|].
        destruct (is_ColumnFixedString c); reflexivity.
      * destruct (is_ColumnString c); [reflexivity|].
        destruct (is_ColumnFixedString c); reflexivity.
  - destruct all_fixed; cbn [andb].
    + rewrite (Hkb eq_refl).
      destruct (total <=? 16)%N; [reflexivity|].
      destruct (total <=? 32)%N; reflexivity.
    + reflexivity.
Qed.

(** The chooser at a pair of 8-byte integer keys: 16 bytes, keys128. *)
Lemma chooseMethod_as_specified_witness :
  (total_bytes [int_type 8; int_type 8] < size_t_modulus)%N
  /\ (chooseMethod [int_type 8; int_type 8] []).1
     = chooseMethod_spec [int_type 8; int_type 8].
Proof.
  split; [reflexivity | apply chooseMethod_as_specified; reflexivity].
Defined.

(** ** The non-joined stream factory *)

(** C8: createStreamWithNonJoinedRows returns a stream exactly when the
    kind is Right or Full and the strictness is neither Asof nor Semi; in
    every other configuration it returns nothing. *)
Theorem createStreamWithNonJoinedRows_iff (hj : HashJoin) (result_sample_block : Block)
    (max_block_size : nat) :
  is_Some (createStreamWithNonJoinedRows hj result_sample_block max_block_size)
  <-> ((tj_kind (table_join hj) = Right \/ tj_kind (table_join hj) = Full)
       /\ tj_strictness (table_join hj) <> Asof
       /\ tj_strictness (table_join hj) <> Semi).
Proof.
  unfold createStreamWithNonJoinedRows, isRightOrFull.
  destruct (tj_kind (table_join hj)), (tj_strictness (table_join hj)); simpl;
    split;
    try (intros [x Hx]; discriminate Hx);
    try (intros _; repeat split; (discriminate || (left; reflexivity) || (right; reflexivity)));
    try (intros _; eexists; reflexivity);
    try (intros [[H|H] [H1 H2]]; first [discriminate H | contradiction]).
Qed.

(** ** The dictionary path of the probe *)

(** C9, as stated, fails: a dictionary-backed LEFT ALL join is served (it
    runs as LEFT ANY) and so is INNER ALL (it runs as LEFT SEMI); neither
    raises. *)
Lemma dictionary_all_is_served :
  overDictionary (build (dict_join Left All) kv_sample [] true) = true
  /\ throws (joinBlock rt0 (build (dict_join Left All) kv_sample [] true)
               k_left_25 None).1.1 = false
  /\ throws (joinBlock rt0 (build (dict_join Inner All) kv_sample [] true)
               k_left_25 None).1.1 = false
  /\ cells_of "v"
       (output_of (joinBlock rt0 (build (dict_join Left All) kv_sample [] true)
                     k_left_25 None))
     = [Some (VStr "two"); Some (VStr "")]
  /\ overDictionary (build (dict_join Inner All) kv_sample [] true) = true
  /\ cells_of "v"
       (output_of (joinBlock rt0 (build (dict_join Inner All) kv_sample [] true)
                     k_left_25 None))
     = [Some (VStr "two")].
Proof. repeat split; vm_compute; reflexivity. Qed.

Lemma dictionary_dispatch_ok (k : Kind) (s : Strictness) :
  dictionary_combination k s ->
  exists s', dictionary_dispatch k s = Ok (Left, s') /\ (s' = Any \/ s' = Semi \/ s' = Anti).
Proof.
  intros [[-> [->|[->|[->| ->]]]] | [-> ->]]; simpl; eauto 6.
Qed.

Lemma dictionary_dispatch_throw (k : Kind) (s : Strictness) :
  ~ dictionary_combination k s -> dictionary_dispatch k s = Throw LOGICAL_ERROR.
Proof.
  unfold dictionary_combination. intros Hn.
  destruct k, s; try reflexivity; exfalso; apply Hn; tauto.
Qed.

(** C9, amended: over a dictionary a non-cross probe serves exactly LEFT
    with ANY, ALL, SEMI or ANTI and INNER with ALL; every other combination
    throws LogicalError and leaves the join untouched.  A served
    combination does not throw once the reader, the left key column, the
    columns to add and the left columns copied under the required right
    key names are in place. *)
Theorem joinBlock_over_dictionary (rt : Runtime) (hj : HashJoin) (block : Block)
    (not_processed : option NotProcessedCrossJoin) :
  overDictionary hj = true ->
  kind hj <> Cross ->
  (~ dictionary_combination (kind hj) (strictness hj) ->
   joinBlock rt hj block not_processed = (Throw LOGICAL_ERROR, hj, not_processed))
  /\ (probe_ready hj block ->
      (throws (joinBlock rt hj block not_processed).1.1 = false
       <-> dictionary_combination (kind hj) (strictness hj))).
Proof.
  intros Hdict Hcross.
  assert (Hrej : ~ dictionary_combination (kind hj) (strictness hj) ->
                 joinBlock rt hj block not_processed
                 = (Throw LOGICAL_ERROR, hj, not_processed)).
  { intros Hn. unfold joinBlock.
    rewrite bool_decide_eq_false_2 by exact Hcross.
    rewrite Hdict, (dictionary_dispatch_throw _ _ Hn). reflexivity. }
  split; [exact Hrej|].
  intros (Hreader & (keys & first & rest & Hkeys & Hfirst) & Hadded & Hsources).
  split.
  - intros Hok.
    destruct (decide (dictionary_combination (kind hj) (strictness hj))) as [H|H];
      [exact H|].
    rewrite (Hrej H) in Hok. discriminate Hok.
  - intros Hcomb.
    destruct (dictionary_dispatch_ok _ _ Hcomb) as (s' & Hdisp & Hs').
    unfold joinBlock.
    rewrite bool_decide_eq_false_2 by exact Hcross.
    assert (Hblock :
      (if bool_decide (kind hj = Right) || bool_decide (kind hj = Full)
       then let b := materializeBlock block in
            if nullable_left_side hj then convertColumnsToNullable b else b
       else block) = block).
    { destruct Hcomb as [[-> _] | [-> _]]; reflexivity. }
    cbv zeta in Hblock |- *. rewrite Hblock, Hdict, Hdisp.
    unfold join_with. rewrite Hkeys. simpl bool_decide. cbn [orb andb]. cbv iota zeta.
    assert (Hasof : is_asof_join s' = false)
      by (destruct Hs' as [->|[->| ->]]; reflexivity).
    rewrite Hasof.
    destruct (AddedColumns_ctor hj (sample_block_with_columns_to_add hj) block false)
      as [[columns right_indexes]|e]; [|discriminate Hadded].
    rewrite Hdict.
    assert (Hs'b : bool_decide (s' = Any) || bool_decide (s' = Semi)
                   || bool_decide (s' = Anti) = true)
      by (destruct Hs' as [->|[->| ->]]; reflexivity).
    rewrite Hs'b. cbn [andb].
    destruct Hreader as [reader ->]. rewrite Hfirst.
    destruct (reader first) as [[read_result found] positions].
    cbn [fst]. apply joinBlockImpl_ok. exact Hsources.
Qed.

(** The dictionary-backed LEFT ALL join of the fixtures meets the
    hypotheses of [joinBlock_over_dictionary]. *)
Lemma joinBlock_over_dictionary_witness :
  overDictionary (build (dict_join Left All) kv_sample [] true) = true
  /\ kind (build (dict_join Left All) kv_sample [] true) <> Cross
  /\ probe_ready (build (dict_join Left All) kv_sample [] true) k_left_25
  /\ dictionary_combination Left All
  /\ throws (joinBlock rt0 (build (dict_join Left All) kv_sample [] true)
               k_left_25 None).1.1 = false.
Proof.
  assert (Hready : probe_ready (build (dict_join Left All) kv_sample [] true) k_left_25).
  { split; [eexists; vm_compute; reflexivity|].
    split; [do 3 eexists; split; vm_compute; reflexivity|].
    split; [vm_compute; reflexivity|].
    unfold required_sources_in. vm_compute. constructor. }
  assert (Hcomb : dictionary_combination Left All).
  { left. split; [reflexivity|]. right. left. reflexivity. }
  split; [vm_compute; reflexivity|].
  split; [intros H; vm_compute in H; discriminate H|].
  split; [exact Hready|].
  split; [exact Hcomb|].
  apply (joinBlock_over_dictionary rt0
           (build (dict_join Left All) kv_sample [] true) k_left_25 None).
  - vm_compute; reflexivity.
  - intros H; vm_compute in H; discriminate H.
  - exact Hready.
  - exact Hcomb.
Defined.

(** ** Multi-disjunct ALL joins *)

(** C1 at scenario S6: the right rows (a=1,b=2,v=p) and (a=3,b=2,v=q) are
    ingested as one block, the disjuncts are [a] or [b], the left row is
    (a=1,b=2).  Both tables are filled (row 1 is in the chain of b=2), yet
    the probe emits the single row p: after the first disjunct appended
    row 0, the block of that row is known and every further row of the same
    block is bypassed.  When the same two keys arrive as two one-row
    blocks, the second row is emitted twice. *)
Theorem multi_disjunct_all_drops_and_repeats_rows :
  type (data (build s6_join s6_sample [s6_right] true)) = key64
  /\ (maps (data (build s6_join s6_sample [s6_right] true)) !! 1)
       ≫= (fun m : HashMap => mapped_chain <$> (snd <$> m !! [VInt 2]))
     = Some [mkRowRef (StoredBlock 0) 0; mkRowRef (StoredBlock 0) 1]
  /\ cells_of "v"
       (output_of (joinBlock rt0 (build s6_join s6_sample [s6_right] true) s6_left None))
     = [Some (VStr "p")]
  /\ cells_of "v"
       (output_of (joinBlock rt0
                     (build s6_join s6_sample [s6_right_p; s6_right_q] true)
                     s6_left None))
     = [Some (VStr "p"); Some (VStr "q"); Some (VStr "q")].
Proof. repeat split; vm_compute; reflexivity. Qed.

(** ** Ingestion *)

(** C4 at a failing input: the S6 block ingested with check_limits = false.
    The call returns true, the table of the first disjunct holds both
    rows, and the table of the second disjunct stays empty although both
    rows have a non-null b: the loop over the disjuncts returns after its
    first iteration. *)
Theorem unchecked_ingestion_fills_first_disjunct_only :
  HashJoin_ctor s6_join s6_sample false
    = Ok (build s6_join s6_sample [] false)
  /\ (addJoinedBlock rt0 (build s6_join s6_sample [] false) s6_right false).1 = Ok true
  /\ map (fun m : HashMap => size m)
       (maps (data (addJoinedBlock rt0 (build s6_join s6_sample [] false)
                      s6_right false).2))
     = [2; 0]
  /\ map (fun m : HashMap => size m)
       (maps (data (addJoinedBlock rt0 (build s6_join s6_sample [] false)
                      s6_right true).2))
     = [2; 1].
Proof. repeat split; vm_compute; reflexivity. Qed.


(** ** Cross join *)

(** C2, as stated, fails on scenario S7: the first call emits 30 rows, more
    than max_joined_block_rows = 17, and the calls emit 30, 30, 30, 30, 30
    and 0 rows rather than 17, 13 and 120. *)
Lemma cross_join_exceeds_cap :
  type (data s7_built) = CROSS
  /\ map block_rows (blocks (data s7_built)) = [10; 10; 10]
  /\ maxJoinedBlockRows (table_join s7_built) = 17
  /\ block_rows (joinBlockImplCross s7_built s7_left None).1 = 30
  /\ ~ block_rows (joinBlockImplCross s7_built s7_left None).1
        <= maxJoinedBlockRows (table_join s7_built)
  /\ cross_calls 10 s7_built s7_left None = [30; 30; 30; 30; 30; 0].
Proof.
  repeat split; try (vm_compute; reflexivity).
  intros H. vm_compute in H. lia.
Qed.

(** ** ANY joins *)


Lemma first_column_rows_block_rows (dst_columns : list Column) (n : nat) :
  first_column_rows dst_columns n -> block_rows dst_columns = n.
Proof. intros (d & rest & -> & <-). reflexivity. Qed.

Lemma cross_right_blocks_rows (right_blocks : list Block) :
  forall block_number start_right_block left_row src num_existing dst rows_added,
    0 < num_existing ->
    first_column_rows dst rows_added ->
    let r := cross_right_blocks right_blocks block_number start_right_block left_row
               src num_existing dst rows_added in
    first_column_rows r.1.1 r.1.2
    /\ rows_added <= r.1.2
    /\ r.1.2 <= rows_added + sum_list (map block_rows right_blocks).
Proof.
  induction right_blocks as [|block_right rest IH];
    intros block_number start_right_block left_row src num_existing dst rows_added
           Hpos Hfirst; cbv zeta; simpl.
  - split; [exact Hfirst | split; lia].
  - destruct (S block_number <? start_right_block).
    + specialize (IH (S block_number) start_right_block left_row src num_existing
                    dst rows_added Hpos Hfirst).
      simpl in IH. destruct IH as (H1 & H2 & H3).
      split; [exact H1 | split; [exact H2 | lia]].
    + match goal with
      | |- context [cross_right_blocks rest _ _ _ _ _ ?dst' ?ra'] =>
          specialize (IH (S block_number) start_right_block left_row src
                        num_existing dst' ra' Hpos)
      end.
      simpl in IH. destruct IH as (H1 & H2 & H3).
      * destruct Hfirst as (d & tl & -> & Hd). simpl.
        destruct num_existing as [|n]; [lia|]. simpl.
        eexists _, _. split; [reflexivity|].
        unfold column_rows in *. simpl. rewrite length_app, length_replicate. lia.
      * split; [exact H1 | split; lia].
Qed.

Lemma cross_left_rows_rows (max_rows_ : nat) (right_blocks : list Block)
    (left_rows : list nat) :
  forall start_right_block src num_existing dst rows_added,
    0 < num_existing ->
    first_column_rows dst rows_added ->
    rows_added <= max_rows_ ->
    let r := cross_left_rows max_rows_ right_blocks left_rows start_right_block
               src num_existing dst rows_added in
    first_column_rows r.1.1 r.1.2
    /\ r.1.2 <= max_rows_ + sum_list (map block_rows right_blocks)
    /\ (is_Some r.2 <-> max_rows_ < r.1.2).
Proof.
  induction left_rows as [|left_row rest IH];
    intros start_right_block src num_existing dst rows_added Hpos Hfirst Hle;
    cbv zeta; simpl.
  - split; [exact Hfirst | split; [lia | split; [intros [x Hx]; discriminate Hx | lia]]].
  - pose proof (cross_right_blocks_rows right_blocks 0 start_right_block left_row
                  src num_existing dst rows_added Hpos Hfirst) as Hr.
    simpl in Hr.
    destruct (cross_right_blocks right_blocks 0 start_right_block left_row src
                num_existing dst rows_added) as [[dst' rows_added'] block_number].
    simpl in Hr. destruct Hr as (H1 & H2 & H3).
    destruct (Nat.ltb_spec max_rows_ rows_added') as [Hgt|Hok]; simpl.
    + split; [exact H1 | split; [lia | split; [intros _; exact Hgt | intros _; eexists; reflexivity]]].
    + apply IH; assumption.
Qed.

(** C2, amended: a call of the cross-join probe joins whole left rows and
    compares the accumulated count with max_joined_block_rows only after
    each left row.  It therefore emits at most max_joined_block_rows plus
    the number of right rows, and it stores a continuation exactly when it
    emitted more than max_joined_block_rows.  In scenario S7 (three right
    blocks of ten rows, five left rows, a cap of 17) the successive calls
    emit 30, 30, 30, 30, 30 and 0 rows. *)
Theorem joinBlockImplCross_soft_cap :
  (forall (hj : HashJoin) (block : Block)
          (not_processed : option NotProcessedCrossJoin),
      block_rows (joinBlockImplCross hj block not_processed).1
        <= maxJoinedBlockRows (table_join hj)
           + sum_list (map block_rows (blocks (data hj)))
      /\ (is_Some (joinBlockImplCross hj block not_processed).2
          <-> maxJoinedBlockRows (table_join hj)
              < block_rows (joinBlockImplCross hj block not_processed).1))
  /\ cross_calls 10 s7_built s7_left None = [30; 30; 30; 30; 30; 0].
Proof.
  split; [|vm_compute; reflexivity].
  intros hj block not_processed. unfold joinBlockImplCross.
  set (start := match not_processed with
                | Some continuation =>
                    (left_position continuation, right_block continuation)
                | None => (0, 0)
                end).
  destruct start as [start_left_row start_right_block].
  destruct block as [|c block'].
  - change (block_rows []) with 0. rewrite Nat.sub_0_l. simpl.
    destruct (sample_block_with_columns_to_add hj) as [|s ss];
      simpl; unfold column_rows; simpl;
      (split; [lia | split; [intros [x Hx]; discriminate Hx | lia]]).
  - pose proof (cross_left_rows_rows (maxJoinedBlockRows (table_join hj))
                  (blocks (data hj))
                  (seq start_left_row (block_rows (c :: block') - start_left_row))
                  start_right_block (c :: block') (length (c :: block'))
                  (map cloneEmpty (c :: block')
                   ++ map cloneEmpty (sample_block_with_columns_to_add hj)) 0)
      as Hr.
    simpl in Hr.
    destruct (cross_left_rows _ _ _ _ _ _ _ _) as [[dst rows_added] continuation].
    destruct Hr as (H1 & H2 & H3); [lia | | lia |].
    { eexists _, _. split; reflexivity. }
    simpl in H1, H2, H3. simpl.
    rewrite (first_column_rows_block_rows _ _ H1).
    split; [exact H2|].
    destruct continuation as [[left_row next]|]; simpl.
    + split; [intros _; apply H3; eexists; reflexivity | intros _; eexists; reflexivity].
    + split; [intros [x Hx]; discriminate Hx|].
      intros Hlt. apply H3 in Hlt. destruct Hlt as [x Hx]. discriminate Hx.
Qed.

(** ** Ingestion: what the per-disjunct loop preserves *)

Lemma same_config_refl (hj : HashJoin) : same_config hj hj.
Proof. repeat split. Qed.

Lemma same_config_trans (a b c : HashJoin) :
  same_config a b -> same_config b c -> same_config a c.
Proof.
  unfold same_config. intros (A1 & A2 & A3 & A4 & A5 & A6 & A7)
                             (B1 & B2 & B3 & B4 & B5 & B6 & B7).
  repeat split; congruence.
Qed.

Lemma same_storage_refl (hj : HashJoin) : same_storage hj hj.
Proof. split; reflexivity. Qed.

Lemma same_storage_trans (a b c : HashJoin) :
  same_storage a b -> same_storage b c -> same_storage a c.
Proof. unfold same_storage. intros [A1 A2] [B1 B2]. split; congruence. Qed.

Lemma addJoinedBlock_insert_preserves (rt : Runtime) (hj : HashJoin) (d rows : nat)
    (key_columns : list Column) (stored_block : BlockPtr)
    (null_map : option (list bool)) :
  same_config hj (addJoinedBlock_insert rt hj d rows key_columns stored_block null_map)
  /\ same_storage hj
       (addJoinedBlock_insert rt hj d rows key_columns stored_block null_map).
Proof.
  unfold addJoinedBlock_insert.
  destruct (bool_decide (kind hj = Cross));
    [split; [apply same_config_refl | apply same_storage_refl]|].
  destruct (joinDispatch_matches (kind hj) (strictness hj));
    [|split; [apply same_config_refl | apply same_storage_refl]].
  destruct (maps (data hj) !! d) as [m|];
    [|split; [apply same_config_refl | apply same_storage_refl]].
  destruct (insertFromBlockImpl rt _ _ _ _ _ _ _ _ _) as [m' size].
  split; [|split; reflexivity].
  repeat split. simpl. apply length_insert.
Qed.

Lemma addJoinedBlock_disjuncts_preserves (rt : Runtime) (ds : list nat) :
  forall indexes all_key_columns rows stored_block check_limits hj save tr tb,
    match addJoinedBlock_disjuncts rt ds indexes all_key_columns rows stored_block
            check_limits hj save tr tb with
    | LoopDone hj' _ _ _ => same_config hj hj' /\ same_storage hj hj'
    | LoopReturn hj' r => same_config hj hj' /\ same_storage hj hj' /\ r = true
    | LoopThrow hj' e => same_config hj hj' /\ same_storage hj hj' /\ e = LOGICAL_ERROR
    end.
Proof.
  induction ds as [|d ds IH];
    intros indexes all_key_columns rows stored_block check_limits hj save tr tb; simpl.
  - split; [apply same_config_refl | apply same_storage_refl].
  - destruct (extractNestedColumnsAndNullMap _) as [key_columns null_map].
    destruct (storage_join_lock hj).
    + split; [apply same_config_refl | split; [apply same_storage_refl | reflexivity]].
    + pose proof (addJoinedBlock_insert_preserves rt hj d rows key_columns
                    stored_block null_map) as [Hc Hs].
      destruct check_limits; simpl.
      * match goal with
        | |- context [addJoinedBlock_disjuncts rt ds ?i ?a ?r ?sb ?cl ?h ?s ?x ?y] =>
            specialize (IH i a r sb cl h s x y);
            destruct (addJoinedBlock_disjuncts rt ds i a r sb cl h s x y)
        end.
        -- destruct IH as [IH1 IH2].
           split; [eapply same_config_trans | eapply same_storage_trans]; eassumption.
        -- destruct IH as (IH1 & IH2 & IH3).
           split; [eapply same_config_trans; eassumption|].
           split; [eapply same_storage_trans; eassumption | exact IH3].
        -- destruct IH as (IH1 & IH2 & IH3).
           split; [eapply same_config_trans; eassumption|].
           split; [eapply same_storage_trans; eassumption | exact IH3].
      * split; [exact Hc | split; [exact Hs | reflexivity]].
Qed.

(** ** Used flags after ingestion *)





Lemma Forall_seq_lt (n : nat) : Forall (fun x => x < n) (seq 0 n).
Proof. apply Forall_forall. intros x Hx. apply list_elem_of_In, in_seq in Hx. lia. Qed.



(** ** The oversize check of ingestion *)

Lemma omapM_throws {A B} (f : A -> Outcome B) (l : list A) (code e : ErrorCode) :
  (forall a e', f a = Throw e' -> e' = code) ->
  omapM f l = Throw e -> e = code.
Proof.
  intros Hf. induction l as [|a l IH]; simpl; [discriminate|].
  destruct (f a) as [b|e'] eqn:Hfa; simpl.
  - destruct (omapM f l) as [bs|e'']; simpl; [discriminate|].
    intros [= <-]. apply IH. reflexivity.
  - intros [= <-]. eapply Hf. exact Hfa.
Qed.

Lemma omapM_ok {A B} (f : A -> Outcome B) (l : list A) :
  (forall a, In a l -> throws (f a) = false) ->
  exists bs, omapM f l = Ok bs /\ length bs = length l.
Proof.
  induction l as [|a l IH]; intros Hf; simpl; [exists []; split; reflexivity|].
  pose proof (Hf a (or_introl eq_refl)) as Ha.
  destruct (f a) as [b|e]; [|discriminate Ha].
  destruct IH as (bs & Hbs & Hlen); [intros x Hx; apply Hf; right; exact Hx|].
  rewrite Hbs. simpl. exists (b :: bs). split; [reflexivity | simpl; congruence].
Qed.

Lemma getByName_throws (b : Block) (n : string) (e : ErrorCode) :
  getByName b n = Throw e -> e = NOT_FOUND_COLUMN_IN_BLOCK.
Proof. unfold getByName. destruct (findByName b n); congruence. Qed.

Lemma getByName_has (b : Block) (n : string) :
  block_has b n = true -> exists c, getByName b n = Ok c /\ col_name c = n.
Proof.
  unfold block_has, getByName, findByName.
  induction b as [|c b IH]; simpl; [discriminate|].
  destruct (bool_decide (col_name c = n)) eqn:Hc; simpl.
  - intros _. exists c. split; [reflexivity|].
    apply bool_decide_eq_true in Hc. exact Hc.
  - exact IH.
Qed.

Lemma block_has_materializeBlock (b : Block) (n : string) :
  block_has (materializeBlock b) n = block_has b n.
Proof.
  unfold block_has, materializeBlock. induction b as [|c b IH]; simpl; [reflexivity|].
  rewrite IH. f_equal. unfold convertToFullColumnIfConst.
  destruct (col_class (col_type c)); reflexivity.
Qed.

Lemma materializeColumns_throws (b : Block) (names : list string) (e : ErrorCode) :
  materializeColumns b names = Throw e -> e = NOT_FOUND_COLUMN_IN_BLOCK.
Proof.
  apply omapM_throws. intros n e'.
  destruct (getByName b n) as [c|e''] eqn:Hg; simpl; [discriminate|].
  intros [= <-]. eapply getByName_throws. exact Hg.
Qed.

Lemma structureRightBlock_throws (hj : HashJoin) (b : Block) (e : ErrorCode) :
  structureRightBlock hj b = Throw e -> e = NOT_FOUND_COLUMN_IN_BLOCK.
Proof.
  apply omapM_throws. intros c e'.
  destruct (getByName b (col_name c)) as [c'|e''] eqn:Hg; simpl; [discriminate|].
  intros [= <-]. eapply getByName_throws. exact Hg.
Qed.

Lemma materializeColumns_ok (b : Block) (names : list string) :
  has_columns b names = true -> throws (materializeColumns b names) = false.
Proof.
  intros Hhas. unfold materializeColumns.
  destruct (omapM_ok (fun n => do c <- getByName b n; Ok (convertToFullColumnIfConst c))
              names) as (bs & -> & _); [|reflexivity].
  intros n Hn. unfold has_columns in Hhas.
  rewrite forallb_forall in Hhas.
  destruct (getByName_has b n) as (c & -> & _); [|reflexivity].
  apply Hhas. exact Hn.
Qed.

Lemma structureRightBlock_ok (hj : HashJoin) (b : Block) :
  has_columns b (map col_name (sample_block (data hj))) = true ->
  exists structured,
    structureRightBlock hj b = Ok structured
    /\ length structured = length (sample_block (data hj)).
Proof.
  intros Hhas. unfold structureRightBlock.
  apply omapM_ok. intros c Hc. unfold has_columns in Hhas.
  rewrite forallb_forall in Hhas.
  destruct (getByName_has b (col_name c)) as (c' & -> & _); [|reflexivity].
  apply Hhas. apply in_map. exact Hc.
Qed.


Lemma has_columns_materializeBlock (b : Block) (names : list string) :
  has_columns (materializeBlock b) names = has_columns b names.
Proof.
  unfold has_columns. induction names as [|n names IH]; simpl; [reflexivity|].
  rewrite IH, block_has_materializeBlock. reflexivity.
Qed.



(** ** alwaysReturnsEmptySet *)

Lemma block_rows_materializeBlock (b : Block) :
  block_rows (materializeBlock b) = block_rows b.
Proof.
  destruct b as [|c b]; [reflexivity|]. simpl. unfold column_rows, convertToFullColumnIfConst.
  destruct (col_class (col_type c)); reflexivity.
Qed.

Lemma HashJoin_ctor_empty (tj : TableJoin) (sample : Block) (atl : bool) (hj : HashJoin) :
  HashJoin_ctor tj sample atl = Ok hj ->
  empty (data hj) = true /\ blocks (data hj) = [] /\ kind hj = tj_kind tj.
Proof.
  unfold HashJoin_ctor.
  destruct (if 1 <? length (keyNamesRight tj) then _ else _) as [keys to_add].
  destruct (if 1 <? length (keyNamesRight tj) then Ok _ else _)
    as [[required sources]|e0]; simpl; [|discriminate].
  destruct (ctor_disjuncts tj keys (keyNamesRight tj) EMPTY) as [[jm sizes]|e]; simpl;
    [|discriminate].
  intros [= <-]. repeat split.
Qed.

(** What a call of addJoinedBlock does to the right storage: nothing, or
    one block more with the empty flag cleared when the block has rows. *)
Lemma addJoinedBlock_storage (rt : Runtime) (hj : HashJoin) (source_block : Block)
    (check_limits : bool) :
  let hj' := (addJoinedBlock rt hj source_block check_limits).2 in
  kind hj' = kind hj
  /\ type (data hj') = type (data hj)
  /\ ((blocks (data hj') = blocks (data hj) /\ empty (data hj') = empty (data hj))
      \/ (exists stored,
            blocks (data hj') = blocks (data hj) ++ [stored]
            /\ empty (data hj')
               = if bool_decide (block_rows source_block = 0)
                 then empty (data hj) else false)).
Proof.
  cbv zeta. unfold addJoinedBlock.
  destruct (HashJoin_empty hj); [repeat split; left; split; reflexivity|].
  destruct (overDictionary hj); [repeat split; left; split; reflexivity|].
  destruct (u32_max <? N.of_nat (block_rows source_block))%N;
    [repeat split; left; split; reflexivity|].
  destruct (key_names_right_indexes (key_names_right hj))
    as [all_key_names_right indexes].
  destruct (materializeColumns _ _) as [all_key_columns|e];
    [|repeat split; left; split; reflexivity].
  destruct (structureRightBlock hj _) as [structured_block|e];
    [|repeat split; left; split; reflexivity].
  cbv zeta. rewrite block_rows_materializeBlock.
  match goal with
  | |- context [addJoinedBlock_disjuncts rt ?ds ?i ?a ?r ?sb ?cl ?h ?s ?x ?y] =>
      pose proof (addJoinedBlock_disjuncts_preserves rt ds i a r sb cl h s x y) as Hpres;
      destruct (addJoinedBlock_disjuncts rt ds i a r sb cl h s x y)
        as [hj1 save_a_nullmap total_rows total_bytes | hj1 ret | hj1 err]
  end; cbn [snd].
  - destruct Hpres as [(_ & Hk & _ & _ & _ & Ht & _) [He Hb]]. simpl in Hk, Ht, He, Hb.
    assert (Hsave :
      forall h, h = (if save_a_nullmap
                     then save_nullmap_of hj1 (length (blocks (data hj))) all_key_columns
                     else hj1) ->
      kind h = kind hj1 /\ type (data h) = type (data hj1)
      /\ blocks (data h) = blocks (data hj1) /\ empty (data h) = empty (data hj1)).
    { intros h ->. destruct save_a_nullmap; [|repeat split].
      unfold save_nullmap_of.
      destruct (extractNestedColumnsAndNullMap all_key_columns) as [? ?].
      repeat split. }
    destruct (Hsave _ eq_refl) as (S1 & S2 & S3 & S4).
    split; [congruence|]. split; [congruence|].
    right. eexists. split; [rewrite S3; exact Hb | rewrite S4; exact He].
  - destruct Hpres as ((_ & Hk & _ & _ & _ & Ht & _) & [He Hb] & _).
    simpl in Hk, Ht, He, Hb.
    split; [exact Hk|]. split; [exact Ht|].
    right. eexists. split; [exact Hb | exact He].
  - destruct Hpres as ((_ & Hk & _ & _ & _ & Ht & _) & [He Hb] & _).
    simpl in Hk, Ht, He, Hb.
    split; [exact Hk|]. split; [exact Ht|].
    right. eexists. split; [exact Hb | exact He].
Qed.

Lemma getByName_Ok_has (b : Block) (n : string) (c : Column) :
  getByName b n = Ok c -> block_has b n = true.
Proof.
  unfold getByName, findByName, block_has.
  induction b as [|x b IH]; simpl; [discriminate|].
  destruct (bool_decide (col_name x = n)); [reflexivity | exact IH].
Qed.

Lemma materializeColumns_has (b : Block) (names : list string) (cs : list Column) :
  materializeColumns b names = Ok cs -> has_columns b names = true.
Proof.
  unfold materializeColumns, has_columns. revert cs.
  induction names as [|n names IH]; intros cs; simpl; [reflexivity|].
  destruct (getByName b n) as [c|e] eqn:Hc; simpl; [|discriminate].
  destruct (omapM _ names) as [cs'|e] eqn:Hrest; simpl; [|discriminate].
  intros _. rewrite (getByName_Ok_has _ _ _ Hc). apply (IH cs'). reflexivity.
Qed.

Lemma structureRightBlock_has (hj : HashJoin) (b structured : Block) :
  structureRightBlock hj b = Ok structured ->
  has_columns b (map col_name (sample_block (data hj))) = true.
Proof.
  unfold structureRightBlock, has_columns. revert structured.
  induction (sample_block (data hj)) as [|x sample IH]; intros structured; simpl;
    [reflexivity|].
  destruct (getByName b (col_name x)) as [c|e] eqn:Hc; simpl; [|discriminate].
  destruct (omapM _ sample) as [cs'|e] eqn:Hrest; simpl; [|discriminate].
  intros _. rewrite (getByName_Ok_has _ _ _ Hc). apply (IH cs'). reflexivity.
Qed.

(** A call that takes its block in clears the empty flag when the block
    has rows; a call that turns its block away throws and leaves the
    instance as it was. *)
Lemma addJoinedBlock_accepted (rt : Runtime) (hj : HashJoin) (source_block : Block)
    (check_limits : bool) :
  (block_accepted hj source_block = true ->
   empty (data (addJoinedBlock rt hj source_block check_limits).2)
   = if bool_decide (block_rows source_block = 0) then empty (data hj) else false)
  /\ (block_accepted hj source_block = false ->
      (addJoinedBlock rt hj source_block check_limits).2 = hj
      /\ throws (addJoinedBlock rt hj source_block check_limits).1 = true).
Proof.
  unfold block_accepted, addJoinedBlock.
  destruct (HashJoin_empty hj); [split; [discriminate | split; reflexivity]|].
  destruct (overDictionary hj); [split; [discriminate | split; reflexivity]|].
  destruct (u32_max <? N.of_nat (block_rows source_block))%N;
    [split; [discriminate | split; reflexivity]|].
  cbn [negb andb].
  destruct (key_names_right_indexes (key_names_right hj))
    as [all_key_names_right indexes].
  cbn [fst].
  rewrite <- (has_columns_materializeBlock source_block all_key_names_right).
  rewrite <- (has_columns_materializeBlock source_block
                (map col_name (sample_block (data hj)))).
  destruct (materializeColumns _ _) as [all_key_columns|e] eqn:Hm.
  2:{ destruct (has_columns (materializeBlock source_block) all_key_names_right) eqn:Hk.
      - apply materializeColumns_ok in Hk. rewrite Hm in Hk. discriminate Hk.
      - split; [discriminate | split; reflexivity]. }
  rewrite (materializeColumns_has _ _ _ Hm). cbn [andb].
  destruct (structureRightBlock hj _) as [structured_block|e] eqn:Hs.
  2:{ destruct (has_columns (materializeBlock source_block)
                  (map col_name (sample_block (data hj)))) eqn:Hk.
      - destruct (structureRightBlock_ok hj _ Hk) as (st & Hst & _).
        rewrite Hs in Hst. discriminate Hst.
      - split; [discriminate | split; reflexivity]. }
  rewrite (structureRightBlock_has _ _ _ Hs).
  split; [intros _ | discriminate].
  cbv zeta. rewrite block_rows_materializeBlock.
  match goal with
  | |- context [addJoinedBlock_disjuncts rt ?ds ?i ?a ?r ?sb ?cl ?h ?s ?x ?y] =>
      pose proof (addJoinedBlock_disjuncts_preserves rt ds i a r sb cl h s x y) as Hpres;
      destruct (addJoinedBlock_disjuncts rt ds i a r sb cl h s x y)
        as [hj1 save_a_nullmap total_rows total_bytes | hj1 ret | hj1 err]
  end; cbn [snd].
  - destruct Hpres as [_ [He _]]. simpl in He.
    destruct save_a_nullmap; [|exact He].
    unfold save_nullmap_of.
    destruct (extractNestedColumnsAndNullMap all_key_columns) as [? ?]. exact He.
  - destruct Hpres as (_ & [He _] & _). exact He.
  - destruct Hpres as (_ & [He _] & _). exact He.
Qed.

Lemma addJoinedBlock_kind_type (rt : Runtime) (hj : HashJoin) (source_block : Block)
    (check_limits : bool) :
  kind (addJoinedBlock rt hj source_block check_limits).2 = kind hj
  /\ type (data (addJoinedBlock rt hj source_block check_limits).2) = type (data hj).
Proof.
  destruct (addJoinedBlock_storage rt hj source_block check_limits) as (Hk & Ht & _).
  split; assumption.
Qed.

Lemma received_empty_flag (rt : Runtime) (hj : HashJoin) (n : nat) :
  received rt hj n -> (empty (data hj) = true <-> n = 0).
Proof.
  induction 1 as [tj sample atl hj Hctor | hj n block check_limits Hrec IH].
  - apply HashJoin_ctor_empty in Hctor as (-> & _). split; reflexivity.
  - destruct (addJoinedBlock_accepted rt hj block check_limits) as [Hyes Hno].
    destruct (block_accepted hj block).
    + rewrite (Hyes eq_refl).
      destruct (bool_decide_reflect (block_rows block = 0)) as [Hz|Hnz].
      * rewrite Hz, Nat.add_0_r. exact IH.
      * split; [discriminate | lia].
    + destruct (Hno eq_refl) as [-> _]. exact IH.
Qed.

(** C10: on every instance construction and ingestion produce,
    alwaysReturnsEmptySet answers true exactly when the kind is Inner or
    Right, no right row has been passed in by a call that took its block
    in, and the instance is not dictionary-backed.  In particular it
    answers false for Left, Full and Cross joins and for every
    dictionary-backed join.  The rows counted are those of every call
    that returned: a call whose block is not counted throws and leaves the
    instance as it was. *)
Theorem alwaysReturnsEmptySet_iff (rt : Runtime) (hj : HashJoin) (n : nat) :
  received rt hj n ->
  (alwaysReturnsEmptySet hj = true
   <-> ((kind hj = Inner \/ kind hj = Right) /\ n = 0 /\ type (data hj) <> DICT))
  /\ (kind hj = Left \/ kind hj = Full \/ kind hj = Cross \/ type (data hj) = DICT ->
      alwaysReturnsEmptySet hj = false)
  /\ (forall (block : Block) (check_limits : bool),
        block_accepted hj block = false ->
        (addJoinedBlock rt hj block check_limits).2 = hj
        /\ throws (addJoinedBlock rt hj block check_limits).1 = true).
Proof.
  intros Hrec. pose proof (received_empty_flag rt hj n Hrec) as Hempty.
  unfold alwaysReturnsEmptySet, isInnerOrRight, overDictionary.
  split; [|split].
  - rewrite !andb_true_iff, orb_true_iff, negb_true_iff,
      !bool_decide_eq_true, bool_decide_eq_false, Hempty.
    tauto.
  - intros [-> | [-> | [-> | ->]]]; simpl; try reflexivity.
    rewrite andb_false_r. reflexivity.
  - intros block check_limits Hno.
    apply (addJoinedBlock_accepted rt hj block check_limits). exact Hno.
Qed.

(** An INNER ALL join that took in a block of one row is an instance with
    one right row received: alwaysReturnsEmptySet answers false. *)
Lemma alwaysReturnsEmptySet_iff_witness :
  received rt0 (build (kv_join Inner All) kv_sample [kv_right_one] true) 1
  /\ alwaysReturnsEmptySet (build (kv_join Inner All) kv_sample [kv_right_one] true)
     = false
  /\ (alwaysReturnsEmptySet (build (kv_join Inner All) kv_sample [kv_right_one] true)
      = true
      <-> ((kind (build (kv_join Inner All) kv_sample [kv_right_one] true) = Inner
            \/ kind (build (kv_join Inner All) kv_sample [kv_right_one] true) = Right)
           /\ 1 = 0
           /\ type (data (build (kv_join Inner All) kv_sample [kv_right_one] true))
              <> DICT)).
Proof.
  assert (Hnew : received rt0 (build (kv_join Inner All) kv_sample [] true) 0).
  { eapply (received_new rt0 (kv_join Inner All) kv_sample false). vm_compute. reflexivity. }
  assert (Hone : received rt0 (build (kv_join Inner All) kv_sample [kv_right_one] true) 1).
  { exact (received_add rt0 (build (kv_join Inner All) kv_sample [] true) 0
             kv_right_one true Hnew). }
  split; [exact Hone|]. split; [vm_compute; reflexivity|].
  apply (alwaysReturnsEmptySet_iff rt0 _ 1 Hone).
Defined.

(** ** The left block under the kinds Right and Full *)

Lemma left_block_cells (right_or_full nullable : bool) (block : Block) :
  map col_cells
    (if right_or_full then
       let block := materializeBlock block in
       if nullable then convertColumnsToNullable block else block
     else block)
  = map col_cells block.
Proof.
  destruct right_or_full; [|reflexivity]. cbv zeta.
  assert (Hm : map col_cells (materializeBlock block) = map col_cells block).
  { unfold materializeBlock. rewrite map_map. apply map_ext. intros c.
    unfold convertToFullColumnIfConst. destruct (col_class (col_type c)); reflexivity. }
  destruct nullable; [|exact Hm].
  unfold convertColumnsToNullable. rewrite map_map. exact Hm.
Qed.

Lemma same_cells_shape (b b' : Block) :
  map col_cells b' = map col_cells b ->
  length b' = length b
  /\ block_rows b' = block_rows b
  /\ forall n, Forall (fun c => column_rows c = n) b ->
               Forall (fun c => column_rows c = n) b'.
Proof.
  intros Hcells. split; [|split].
  - rewrite <- (length_map col_cells b'), Hcells. apply length_map.
  - destruct b as [|c b], b' as [|c' b']; try discriminate Hcells; [reflexivity|].
    simpl in *. unfold column_rows. congruence.
  - intros n Hb. unfold column_rows in *.
    rewrite <- (Forall_fmap col_cells (fun cells => length cells = n)) in Hb |- *.
    change (col_cells <$> b') with (map col_cells b').
    rewrite Hcells. exact Hb.
Qed.

Lemma left_keys_length (block : Block) (names : list (list string))
    (keys : list (list Column * option (list bool))) :
  left_keys block names = Ok keys -> length keys = length names.
Proof.
  revert keys. induction names as [|n names IH]; intros keys; simpl.
  - intros [= <-]. reflexivity.
  - destruct (materializeColumns block n) as [m|e]; simpl; [|discriminate].
    destruct (left_keys block names) as [others|e]; simpl; [|discriminate].
    intros [= <-]. simpl. f_equal. apply IH. reflexivity.
Qed.

(** ** The probe of one left row: what it leaves alone *)

Lemma row_frame_refl (i : nat) (st : ProbeState) : row_frame i st st.
Proof. repeat split. Qed.

Lemma row_frame_trans (i : nat) (a b c : ProbeState) :
  row_frame i a b -> row_frame i b c -> row_frame i a c.
Proof.
  intros (A1 & A2 & A3) (B1 & B2 & B3). split; [congruence|]. split; [congruence|].
  intros j Hj. rewrite B3, A3 by exact Hj. reflexivity.
Qed.

Lemma row_frame_same (i : nat) (st st' : ProbeState) :
  ps_offsets_to_replicate st' = ps_offsets_to_replicate st ->
  ps_filter st' = ps_filter st ->
  row_frame i st st'.
Proof. intros H1 H2. unfold row_frame. rewrite H1, H2. repeat split. Qed.

Lemma applyLazyDefaults_frame (i : nat) (st : ProbeState) :
  row_frame i st (applyLazyDefaults st).
Proof.
  unfold applyLazyDefaults. destruct (bool_decide _); apply row_frame_same; reflexivity.
Qed.

Lemma appendFromBlock_frame (env : ProbeEnv) (has_defaults : bool) (ref : RowRef)
    (i : nat) (st : ProbeState) :
  row_frame i st (appendFromBlock env has_defaults ref st).
Proof.
  unfold appendFromBlock. destruct has_defaults; [|apply row_frame_same; reflexivity].
  unfold applyLazyDefaults. destruct (bool_decide _); apply row_frame_same; reflexivity.
Qed.

Lemma addNotFoundRow_frame (add_missing_ need_offset : bool) (i : nat)
    (st : ProbeState) :
  row_frame i st (addNotFoundRow add_missing_ need_offset st).
Proof. destruct add_missing_, need_offset; apply row_frame_same; reflexivity. Qed.

Lemma set_filter_frame (i : nat) (st : ProbeState) : row_frame i st (set_filter i st).
Proof.
  split; [reflexivity|]. split; [apply length_insert|].
  intros j Hj. simpl. apply list_lookup_insert_ne. congruence.
Qed.

Lemma with_flags_frame (f : JoinUsedFlags) (i : nat) (st : ProbeState) :
  row_frame i st (with_flags f st).
Proof. apply row_frame_same; reflexivity. Qed.

Lemma addFoundRowAll_loop_frame (env : ProbeEnv) (i : nat) (chain : list RowRef) :
  forall known new st,
    row_frame i st (addFoundRowAll_loop env chain known new st).1.
Proof.
  induction chain as [|it chain IH]; intros known new st; simpl.
  - apply row_frame_refl.
  - destruct (negb _); [|apply IH].
    eapply row_frame_trans; [|apply IH].
    eapply row_frame_trans; [apply (appendFromBlock_frame env false it)|].
    apply row_frame_same; reflexivity.
Qed.

Lemma addFoundRowAll_frame (env : ProbeEnv) (add_missing_ : bool) (mapped : Mapped)
    (known : KnownRowsHolder) (i : nat) (st : ProbeState) :
  row_frame i st (addFoundRowAll env add_missing_ mapped known st).1.
Proof.
  unfold addFoundRowAll.
  set (st1 := if add_missing_ then applyLazyDefaults st else st).
  assert (H1 : row_frame i st st1).
  { subst st1. destruct add_missing_; [apply applyLazyDefaults_frame | apply row_frame_refl]. }
  pose proof (addFoundRowAll_loop_frame env i (mapped_chain mapped) known None st1) as H2.
  destruct (addFoundRowAll_loop env (mapped_chain mapped) known None st1) as [st2 new].
  simpl in H2. destruct new; simpl; eapply row_frame_trans; eassumption.
Qed.

Lemma on_found_frame (rt : Runtime) (env : ProbeEnv) (i offset : nat) (mapped : Mapped)
    (known : KnownRowsHolder) (st : ProbeState) :
  row_frame i st (on_found rt env i offset mapped known st).1.1.
Proof.
  unfold on_found. cbv zeta.
  destruct (is_asof_join (pe_strictness env)).
  { destruct mapped as [r|l|a]; try apply row_frame_refl.
    destruct (findAsof _ _ a) as [found|]; cbn [fst].
    - eapply row_frame_trans; [|apply appendFromBlock_frame].
      eapply row_frame_trans; [apply set_filter_frame | apply with_flags_frame].
    - apply addNotFoundRow_frame. }
  destruct (is_all_join (pe_strictness env)).
  { match goal with
    | |- context [addFoundRowAll env ?am mapped known ?st1] =>
        pose proof (addFoundRowAll_frame env am mapped known i st1) as H;
        destruct (addFoundRowAll env am mapped known st1) as [st2 kr2]
    end.
    cbn [fst] in *. eapply row_frame_trans; [|exact H].
    eapply row_frame_trans; [apply set_filter_frame | apply with_flags_frame]. }
  destruct ((is_any_join (pe_strictness env) || is_semi_join (pe_strictness env))
            && bool_decide (pe_kind env = Right)).
  { destruct (setUsedOnce _ offset (ps_flags st)) as [[|] f]; cbn [fst].
    - match goal with
      | |- context [addFoundRowAll env ?am mapped known ?st1] =>
          pose proof (addFoundRowAll_frame env am mapped known i st1) as H;
          destruct (addFoundRowAll env am mapped known st1) as [st2 kr2]
      end.
      cbn [fst] in *. eapply row_frame_trans; [|exact H].
      eapply row_frame_trans; [apply with_flags_frame | apply set_filter_frame].
    - apply with_flags_frame. }
  destruct (is_any_join (pe_strictness env) && bool_decide (pe_kind env = Inner)).
  { destruct (setUsedOnce _ offset (ps_flags st)) as [[|] f]; cbn [fst].
    - destruct (mapped_row mapped) as [r|]; cbn [fst].
      + eapply row_frame_trans; [|apply appendFromBlock_frame].
        eapply row_frame_trans; [apply with_flags_frame | apply set_filter_frame].
      + eapply row_frame_trans; [apply with_flags_frame | apply set_filter_frame].
    - apply with_flags_frame. }
  destruct (is_any_join (pe_strictness env) && bool_decide (pe_kind env = Full));
    [apply row_frame_refl|].
  destruct (is_anti_join (pe_strictness env)).
  { destruct (_ && _); cbn [fst]; [apply with_flags_frame | apply row_frame_refl]. }
  cbn [fst].
  destruct (mapped_row mapped) as [r|].
  - eapply row_frame_trans; [|apply appendFromBlock_frame].
    eapply row_frame_trans; [apply set_filter_frame | apply with_flags_frame].
  - eapply row_frame_trans; [apply set_filter_frame | apply with_flags_frame].
Qed.

Lemma probe_disjuncts_frame (rt : Runtime) (env : ProbeEnv) (i : nat) (ds : list nat) :
  forall found null_found known st,
    row_frame i st (probe_disjuncts rt env i ds found null_found known st).1.1.
Proof.
  induction ds as [|d ds IH]; intros found null_found known st; simpl.
  - apply row_frame_refl.
  - destruct (null_at _ i); [apply IH|].
    destruct ((pe_find env !! d) ≫= (fun find => find i)) as [[offset mapped]|];
      [|apply IH].
    pose proof (on_found_frame rt env i offset mapped known st) as H.
    destruct (on_found rt env i offset mapped known st) as [[st' kr'] brk].
    cbn [fst] in H. destruct brk; [exact H|].
    eapply row_frame_trans; [exact H | apply IH].
Qed.

Lemma probe_disjuncts_found (rt : Runtime) (env : ProbeEnv) (i : nat) (ds : list nat) :
  forall null_found known st,
    (probe_disjuncts rt env i ds true null_found known st).1.2 = true.
Proof.
  induction ds as [|d ds IH]; intros null_found known st; simpl; [reflexivity|].
  destruct (null_at _ i); [apply IH|].
  destruct ((pe_find env !! d) ≫= (fun find => find i)) as [[offset mapped]|];
    [|apply IH].
  destruct (on_found rt env i offset mapped known st) as [[st' kr'] brk].
  destruct brk; [reflexivity | apply IH].
Qed.

(** The do-while either finds the key under some disjunct or leaves the
    state as it was. *)
Lemma probe_disjuncts_cases (rt : Runtime) (env : ProbeEnv) (i : nat) (ds : list nat) :
  forall null_found known st,
    ((probe_disjuncts rt env i ds false null_found known st).1.2 = true
     /\ found_in env i)
    \/ ((probe_disjuncts rt env i ds false null_found known st).1.2 = false
        /\ (probe_disjuncts rt env i ds false null_found known st).1.1 = st).
Proof.
  induction ds as [|d ds IH]; intros null_found known st; simpl.
  - right. split; reflexivity.
  - destruct (null_at (mjoin (pe_null_map env !! d)) i) eqn:Hnull; [apply IH|].
    destruct (pe_find env !! d) as [find|] eqn:Hfind; simpl; [|apply IH].
    destruct (find i) as [[offset mapped]|] eqn:Hi; [|apply IH].
    assert (Hfound : found_in env i).
    { exists d, find. split; [exact Hnull|]. split; [exact Hfind|].
      rewrite Hi. eexists. reflexivity. }
    left. split; [|exact Hfound].
    destruct (on_found rt env i offset mapped known st) as [[st' kr'] brk].
    destruct brk; [reflexivity | apply probe_disjuncts_found].
Qed.

(** One iteration of the loop over the left rows, for every shape but
    ANTI LEFT: the filter changes at the row only and only when the row
    found its key; a row that did not find its key and gets no default row
    keeps the running offset; the offset recorded for the row is the
    running offset. *)
Lemma join_row_cases (rt : Runtime) (env : ProbeEnv) (i : nat) (st : ProbeState) :
  ~ (pe_kind env = Left /\ pe_strictness env = Anti) ->
  let st' := join_row rt env st i in
  length (ps_filter st') = length (ps_filter st)
  /\ (forall j, j <> i -> ps_filter st' !! j = ps_filter st !! j)
  /\ (need_replication (pe_kind env) (pe_strictness env) = true ->
      ps_offsets_to_replicate st'
      = <[i := ps_current_offset st']> (ps_offsets_to_replicate st))
  /\ (found_in env i
      \/ (ps_filter st' = ps_filter st
          /\ (add_missing (pe_kind env) (pe_strictness env) = false ->
              ps_current_offset st' = ps_current_offset st))).
Proof.
  intros Hshape. cbv zeta. unfold join_row. cbv zeta.
  pose proof (probe_disjuncts_frame rt env i (disjuncts_to_probe env) false false
                KnownRowsHolder_init st) as (F1 & F2 & F3).
  pose proof (probe_disjuncts_cases rt env i (disjuncts_to_probe env) false
                KnownRowsHolder_init st) as Hcases.
  destruct (probe_disjuncts rt env i (disjuncts_to_probe env) false false
              KnownRowsHolder_init st) as [[st1 found] null_found].
  cbn [fst snd] in *.
  assert (Hanti : is_anti_join (pe_strictness env) && bool_decide (pe_kind env = Left)
                  = false).
  { apply andb_false_iff. unfold is_anti_join.
    destruct (bool_decide_reflect (pe_strictness env = Anti)) as [Hs|Hs];
      [|left; reflexivity].
    right. apply bool_decide_eq_false_2. intros Hk. apply Hshape. split; assumption. }
  rewrite Hanti.
  set (am := add_missing (pe_kind env) (pe_strictness env)) in *.
  set (nr := need_replication (pe_kind env) (pe_strictness env)) in *.
  assert (Hnot : forall st2,
    ps_filter (addNotFoundRow am nr st2) = ps_filter st2
    /\ ps_offsets_to_replicate (addNotFoundRow am nr st2) = ps_offsets_to_replicate st2
    /\ (am = false -> addNotFoundRow am nr st2 = st2)).
  { intros st2. unfold addNotFoundRow. destruct am, nr; repeat split; discriminate. }
  assert (Hrec : forall st2,
    ps_filter (if nr then record_offset i st2 else st2) = ps_filter st2
    /\ ps_current_offset (if nr then record_offset i st2 else st2)
       = ps_current_offset st2
    /\ (nr = true ->
        ps_offsets_to_replicate (if nr then record_offset i st2 else st2)
        = <[i := ps_current_offset st2]> (ps_offsets_to_replicate st2))).
  { intros st2. destruct nr; repeat split; discriminate. }
  assert (Hgoal : forall st2,
    ps_filter st2 = ps_filter st1 ->
    ps_offsets_to_replicate st2 = ps_offsets_to_replicate st1 ->
    (found = false -> am = false -> ps_current_offset st2 = ps_current_offset st1) ->
    length (ps_filter (if nr then record_offset i st2 else st2)) = length (ps_filter st)
    /\ (forall j, j <> i ->
                  ps_filter (if nr then record_offset i st2 else st2) !! j
                  = ps_filter st !! j)
    /\ (nr = true ->
        ps_offsets_to_replicate (if nr then record_offset i st2 else st2)
        = <[i := ps_current_offset (if nr then record_offset i st2 else st2)]>
            (ps_offsets_to_replicate st))
    /\ (found_in env i
        \/ (ps_filter (if nr then record_offset i st2 else st2) = ps_filter st
            /\ (am = false ->
                ps_current_offset (if nr then record_offset i st2 else st2)
                = ps_current_offset st)))).
  { intros st2 Hf Ho Hc. destruct (Hrec st2) as (R1 & R2 & R3).
    rewrite R1, R2, Hf. split; [exact F2|]. split; [exact F3|].
    split; [intros Hnr; rewrite (R3 Hnr), Ho, F1; reflexivity|].
    destruct Hcases as [[_ Hfound] | [-> ->]]; [left; exact Hfound|].
    right. split; [reflexivity|]. intros Ham. apply Hc; [reflexivity | exact Ham]. }
  destruct (negb found && null_found).
  - destruct (Hnot st1) as (N1 & N2 & N3). apply Hgoal; [exact N1 | exact N2|].
    intros _ Ham. rewrite (N3 Ham). reflexivity.
  - destruct found; cbn [negb].
    + apply Hgoal; [reflexivity | reflexivity | discriminate].
    + destruct (Hnot st1) as (N1 & N2 & N3). apply Hgoal; [exact N1 | exact N2|].
      intros _ Ham. rewrite (N3 Ham). reflexivity.
Qed.

(** After the loop, for every shape but ANTI LEFT, the filter keeps only
    rows that found their key. *)
Lemma foldl_join_row_filter (rt : Runtime) (env : ProbeEnv) (rows : list nat) :
  ~ (pe_kind env = Left /\ pe_strictness env = Anti) ->
  forall st,
    (forall j, ps_filter st !! j = Some true -> found_in env j) ->
    length (ps_filter (foldl (join_row rt env) st rows)) = length (ps_filter st)
    /\ (forall j, ps_filter (foldl (join_row rt env) st rows) !! j = Some true ->
                  found_in env j).
Proof.
  intros Hshape. induction rows as [|i rows IH]; intros st Hst; simpl.
  - split; [reflexivity | exact Hst].
  - destruct (join_row_cases rt env i st Hshape) as (H1 & H2 & _ & H4).
    destruct (IH (join_row rt env st i)) as [I1 I2].
    + intros j Hj. destruct (decide (j = i)) as [->|Hne].
      * destruct H4 as [Hfound | [Hsame _]]; [exact Hfound|].
        rewrite Hsame in Hj. apply Hst. exact Hj.
      * rewrite H2 in Hj by exact Hne. apply Hst. exact Hj.
    + split; [rewrite I1; exact H1 | exact I2].
Qed.

Lemma joinRightColumns_filter (rt : Runtime) (env : ProbeEnv) (rows : nat)
    (columns : list Column) (f : JoinUsedFlags) :
  ~ (pe_kind env = Left /\ pe_strictness env = Anti) ->
  length (ps_filter (joinRightColumns rt env rows columns f)) = rows
  /\ (forall j, ps_filter (joinRightColumns rt env rows columns f) !! j = Some true ->
                found_in env j).
Proof.
  intros Hshape. unfold joinRightColumns.
  match goal with
  | |- context [foldl (join_row rt env) ?st0 ?l] =>
      destruct (foldl_join_row_filter rt env l Hshape st0) as [H1 H2];
        [|set (st1 := foldl (join_row rt env) st0 l) in *]
  end.
  - simpl. intros j Hj. apply lookup_replicate in Hj as [Hj _]. discriminate Hj.
  - assert (Hf : ps_filter (applyLazyDefaults st1) = ps_filter st1)
      by (unfold applyLazyDefaults; destruct (bool_decide _); reflexivity).
    rewrite Hf. simpl in H1. rewrite length_replicate in H1. split; assumption.
Qed.



(** ** ANY LEFT: one joined row per left row *)

Lemma applyLazyDefaults_balanced (n : nat) (st : ProbeState) :
  balanced n st ->
  balanced n (applyLazyDefaults st)
  /\ ps_lazy_defaults_count (applyLazyDefaults st) = 0
  /\ length (ps_columns (applyLazyDefaults st)) = length (ps_columns st).
Proof.
  unfold balanced, applyLazyDefaults. intros Hb.
  destruct (bool_decide_reflect (ps_lazy_defaults_count st = 0)) as [Hz|Hnz].
  - repeat split; assumption.
  - simpl. split; [|split; [reflexivity | apply length_map]].
    apply Forall_map. eapply Forall_impl; [exact Hb|].
    intros c Hc. unfold column_rows, insertManyDefaults in *. simpl.
    rewrite length_app, length_replicate. lia.
Qed.

Lemma appendFromBlock_balanced (env : ProbeEnv) (has_defaults : bool) (ref : RowRef)
    (n : nat) (st : ProbeState) :
  length (pe_right_indexes env) = length (ps_columns st) ->
  balanced n (if has_defaults then applyLazyDefaults st else st) ->
  balanced (S n) (appendFromBlock env has_defaults ref st)
  /\ length (ps_columns (appendFromBlock env has_defaults ref st))
     = length (ps_columns st).
Proof.
  intros Hlen Hb. unfold appendFromBlock.
  set (st1 := if has_defaults then applyLazyDefaults st else st) in *.
  assert (Hlen1 : length (ps_columns st1) = length (ps_columns st)).
  { subst st1. destruct has_defaults; [|reflexivity].
    unfold applyLazyDefaults. destruct (bool_decide _); [reflexivity | apply length_map]. }
  split; [|simpl; rewrite length_imap; exact Hlen1].
  unfold balanced in *. simpl. apply Forall_lookup. intros j c' Hj.
  rewrite list_lookup_imap in Hj.
  destruct (ps_columns st1 !! j) as [c|] eqn:Hc; [|discriminate Hj].
  simpl in Hj. injection Hj as <-.
  rewrite Forall_lookup in Hb. specialize (Hb j c Hc).
  destruct (lookup_lt_is_Some_2 (pe_right_indexes env) j) as [idx ->].
  { rewrite Hlen, <- Hlen1. eapply lookup_lt_Some. exact Hc. }
  unfold column_rows, insertFrom in *. simpl. rewrite length_app. simpl. lia.
Qed.

Lemma on_found_left_any (rt : Runtime) (env : ProbeEnv) (i offset n : nat)
    (mapped : Mapped) (known_rows : KnownRowsHolder) (st : ProbeState) :
  pe_kind env = Left ->
  pe_strictness env = Any ->
  is_Some (mapped_row mapped) ->
  length (pe_right_indexes env) = length (ps_columns st) ->
  balanced n st ->
  balanced (S n) (on_found rt env i offset mapped known_rows st).1.1
  /\ length (ps_columns (on_found rt env i offset mapped known_rows st).1.1)
     = length (ps_columns st)
  /\ (on_found rt env i offset mapped known_rows st).2 = true.
Proof.
  intros Hk Hs [r Hr] Hlen Hb. unfold on_found. rewrite Hk, Hs, Hr.
  join_features Left Any. cbn [fst snd].
  match goal with
  | |- context [appendFromBlock env true r ?st1] =>
      destruct (appendFromBlock_balanced env true r n st1) as [H1 H2];
        [exact Hlen | apply (applyLazyDefaults_balanced n st1); exact Hb |]
  end.
  split; [exact H1 | split; [exact H2 | reflexivity]].
Qed.

Lemma probe_disjuncts_left_any (rt : Runtime) (env : ProbeEnv) (i n : nat)
    (ds : list nat) :
  pe_kind env = Left ->
  pe_strictness env = Any ->
  finds_rows env ->
  forall null_element_found known_rows st,
    length (pe_right_indexes env) = length (ps_columns st) ->
    balanced n st ->
    let r := probe_disjuncts rt env i ds false null_element_found known_rows st in
    length (ps_columns r.1.1) = length (ps_columns st)
    /\ ((r.1.2 = true /\ balanced (S n) r.1.1)
        \/ (r.1.2 = false /\ r.1.1 = st)).
Proof.
  intros Hk Hs Hfinds.
  induction ds as [|d ds IH]; intros nf known_rows st Hlen Hb; cbv zeta; simpl.
  - split; [reflexivity | right; split; reflexivity].
  - destruct (null_at (mjoin (pe_null_map env !! d)) i); [apply IH; assumption|].
    destruct (pe_find env !! d) as [find|] eqn:Hfind; simpl; [|apply IH; assumption].
    destruct (find i) as [[offset mapped]|] eqn:Hi; [|apply IH; assumption].
    pose proof (Hfinds d find i offset mapped Hfind Hi) as Hrow.
    destruct (on_found_left_any rt env i offset n mapped known_rows st Hk Hs Hrow Hlen Hb)
      as (H1 & H2 & H3).
    destruct (on_found rt env i offset mapped known_rows st) as [[st' kr'] brk].
    simpl in H1, H2, H3. subst brk. simpl.
    split; [exact H2 | left; split; [reflexivity | exact H1]].
Qed.

Lemma balanced_default_row (n : nat) (st : ProbeState) :
  balanced n st -> balanced (S n) (appendDefaultRow st).
Proof.
  unfold balanced. simpl. intros Hb. eapply Forall_impl; [exact Hb|].
  intros c Hc. simpl in *. lia.
Qed.

Lemma join_row_left_any (rt : Runtime) (env : ProbeEnv) (i n : nat) (st : ProbeState) :
  pe_kind env = Left ->
  pe_strictness env = Any ->
  finds_rows env ->
  length (pe_right_indexes env) = length (ps_columns st) ->
  balanced n st ->
  balanced (S n) (join_row rt env st i)
  /\ length (ps_columns (join_row rt env st i)) = length (ps_columns st).
Proof.
  intros Hk Hs Hfinds Hlen Hb. unfold join_row.
  pose proof (probe_disjuncts_left_any rt env i n (disjuncts_to_probe env) Hk Hs Hfinds
                false KnownRowsHolder_init st Hlen Hb) as Hp.
  cbv zeta in Hp.
  destruct (probe_disjuncts rt env i (disjuncts_to_probe env) false false
              KnownRowsHolder_init st) as [[st' found] null_found].
  simpl in Hp. destruct Hp as [Hl [[-> Hb'] | [-> ->]]]; rewrite Hk, Hs;
    join_features Left Any; unfold addNotFoundRow.
  - destruct null_found; split; assumption.
  - destruct null_found; (split; [apply balanced_default_row; exact Hb | reflexivity]).
Qed.

Lemma foldl_join_row_left_any (rt : Runtime) (env : ProbeEnv) (rows : list nat) :
  pe_kind env = Left ->
  pe_strictness env = Any ->
  finds_rows env ->
  forall n st,
    length (pe_right_indexes env) = length (ps_columns st) ->
    balanced n st ->
    balanced (n + length rows) (foldl (join_row rt env) st rows).
Proof.
  intros Hk Hs Hfinds. induction rows as [|i rows IH]; intros n st Hlen Hb; simpl.
  - rewrite Nat.add_0_r. exact Hb.
  - destruct (join_row_left_any rt env i n st Hk Hs Hfinds Hlen Hb) as [H1 H2].
    replace (n + S (length rows)) with (S n + length rows) by lia.
    apply IH; [rewrite H2; exact Hlen | exact H1].
Qed.

Lemma joinRightColumns_left_any (rt : Runtime) (env : ProbeEnv) (rows : nat)
    (columns : list Column) (f : JoinUsedFlags) :
  pe_kind env = Left ->
  pe_strictness env = Any ->
  finds_rows env ->
  length (pe_right_indexes env) = length columns ->
  Forall (fun c => column_rows c = 0) columns ->
  Forall (fun c => column_rows c = rows)
    (ps_columns (joinRightColumns rt env rows columns f)).
Proof.
  intros Hk Hs Hfinds Hlen Hempty. unfold joinRightColumns.
  match goal with
  | |- context [foldl (join_row rt env) ?st0 ?l] =>
      pose proof (foldl_join_row_left_any rt env l Hk Hs Hfinds 0 st0 Hlen) as Hb
  end.
  rewrite length_seq in Hb. simpl in Hb.
  destruct (applyLazyDefaults_balanced rows _ (Hb ltac:(
    unfold balanced; simpl; eapply Forall_impl; [exact Hempty | intros c Hc; simpl in *; lia])))
    as (H1 & H2 & _).
  unfold balanced in H1. rewrite H2 in H1.
  eapply Forall_impl; [exact H1|]. intros c Hc. simpl in Hc. lia.
Qed.

Lemma omapM_length {A B} (f : A -> Outcome B) (l : list A) (bs : list B) :
  omapM f l = Ok bs -> length bs = length l.
Proof.
  revert bs. induction l as [|a l IH]; intros bs; simpl.
  - intros [= <-]. reflexivity.
  - destruct (f a) as [b|e]; simpl; [|discriminate].
    destruct (omapM f l) as [bs'|e]; simpl; [|discriminate].
    intros [= <-]. simpl. f_equal. apply IH. reflexivity.
Qed.

Lemma omapM_lookup {A B} (f : A -> Outcome B) (l : list A) (bs : list B) (i : nat) (a : A) :
  omapM f l = Ok bs -> l !! i = Some a -> exists b, bs !! i = Some b /\ f a = Ok b.
Proof.
  revert bs i. induction l as [|x l IH]; intros bs i; simpl; [intros _ H; discriminate H|].
  destruct (f x) as [b|e] eqn:Hfx; simpl; [|discriminate].
  destruct (omapM f l) as [bs'|e]; simpl; [|discriminate].
  intros [= <-]. destruct i as [|i]; simpl.
  - intros [= <-]. exists b. split; [reflexivity | exact Hfx].
  - intros Hi. apply (IH bs' i eq_refl Hi).
Qed.

Lemma AddedColumns_ctor_shape (hj : HashJoin) (to_add block : Block)
    (columns : list Column) (right_indexes : list nat) :
  AddedColumns_ctor hj to_add block false = Ok (columns, right_indexes) ->
  length right_indexes = length columns
  /\ Forall (fun c => column_rows c = 0) columns.
Proof.
  unfold AddedColumns_ctor. simpl.
  destruct (omapM _ _) as [ri|e] eqn:Hri; simpl; [|discriminate].
  intros [= <- <-]. split.
  - eapply omapM_length. exact Hri.
  - apply Forall_map. apply Forall_forall. intros c _. reflexivity.
Qed.

Lemma dict_find_finds_rows (found : list bool) (positions : list nat) (i off : nat)
    (mapped : Mapped) :
  dict_find found positions i = Some (off, mapped) -> is_Some (mapped_row mapped).
Proof.
  unfold dict_find. destruct (default false (found !! i)); [|discriminate].
  intros [= <- <-]. eexists. reflexivity.
Qed.




Section LeftAnyCells.

Variable rt : Runtime.
Variable env : ProbeEnv.
Variable columns : list Column.
Hypothesis Hk : pe_kind env = Left.
Hypothesis Hs : pe_strictness env = Any.
Hypothesis Hfinds : finds_rows env.
Hypothesis Hlen : length (pe_right_indexes env) = length columns.







End LeftAnyCells.







(** ** ANY INNER: no row for a left row without match *)











(** join_with on the hash tables: the keys, the columns to fill, the probe
    and joinBlockImpl on its result. *)
Lemma join_with_hash (rt : Runtime) (hj : HashJoin) (k : Kind) (s : Strictness)
    (block out : Block) (names : list (list string)) (to_add : Block)
    (existing_columns : nat) :
  overDictionary hj = false ->
  (join_with rt hj k s block names to_add existing_columns).1 = Ok out ->
  exists keys columns right_indexes,
    left_keys block names = Ok keys
    /\ AddedColumns_ctor hj to_add
         (if bool_decide (k = Right) || bool_decide (k = Full)
          then if nullable_left_side hj
               then convertColumnsToNullable (materializeBlock block)
               else materializeBlock block
          else block) (is_asof_join s) = Ok (columns, right_indexes)
    /\ joinBlockImpl hj k s
         ((if bool_decide (k = Right) || bool_decide (k = Full)
           then if nullable_left_side hj
                then convertColumnsToNullable (materializeBlock block)
                else materializeBlock block
           else block)
          ++ ps_columns
               (joinRightColumns rt (hash_env hj k s keys right_indexes)
                  (block_rows
                     (if bool_decide (k = Right) || bool_decide (k = Full)
                      then if nullable_left_side hj
                           then convertColumnsToNullable (materializeBlock block)
                           else materializeBlock block
                      else block))
                  columns (used_flags hj)))
         (ps_filter
            (joinRightColumns rt (hash_env hj k s keys right_indexes)
               (block_rows
                  (if bool_decide (k = Right) || bool_decide (k = Full)
                   then if nullable_left_side hj
                        then convertColumnsToNullable (materializeBlock block)
                        else materializeBlock block
                   else block))
               columns (used_flags hj)))
         (ps_offsets_to_replicate
            (joinRightColumns rt (hash_env hj k s keys right_indexes)
               (block_rows
                  (if bool_decide (k = Right) || bool_decide (k = Full)
                   then if nullable_left_side hj
                        then convertColumnsToNullable (materializeBlock block)
                        else materializeBlock block
                   else block))
               columns (used_flags hj)))
         existing_columns
       = Ok out.
Proof.
  intros Hdict. unfold join_with.
  destruct (left_keys block names) as [keys|e]; [|discriminate].
  cbv zeta.
  destruct (AddedColumns_ctor hj to_add _ (is_asof_join s))
    as [[columns right_indexes]|e]; [|discriminate].
  rewrite Hdict.
  destruct (is_join_variant (type (data hj))); [|discriminate].
  cbn [fst]. intros Hout. exists keys, columns, right_indexes.
  split; [reflexivity|]. split; [reflexivity | exact Hout].
Qed.








(** ** Ingestion with check_limits: every disjunct receives the rows *)

Lemma insertAll_rows (m : HashMap) (key : Key) (ref : RowRef) :
  holds_chains m ->
  holds_chains (insertAll m key ref)
  /\ forall r, rows_in (insertAll m key ref) r <-> rows_in m r \/ r = ref.
Proof.
  intros Hm. unfold insertAll.
  destruct (m !! key) as [[off mapped]|] eqn:Hkey.
  - destruct (Hm key (off, mapped) Hkey) as [l Hl]. simpl in Hl. subst mapped.
    split.
    + apply map_Forall_insert_2; [eexists; reflexivity | exact Hm].
    + intros r. unfold rows_in. split.
      * intros (key' & off' & l' & Hl' & Hin).
        destruct (decide (key = key')) as [<-|Hne].
        -- rewrite lookup_insert_eq in Hl'. injection Hl' as <- <-.
           simpl in Hin. destruct Hin as [Hin|[Hin|Hin]].
           ++ left. exists key, off, l. split; [exact Hkey | left; exact Hin].
           ++ right. symmetry. exact Hin.
           ++ left. exists key, off, l. split; [exact Hkey | right; exact Hin].
        -- rewrite lookup_insert_ne in Hl' by exact Hne.
           left. exists key', off', l'. split; assumption.
      * intros [(key' & off' & l' & Hl' & Hin) | ->].
        -- destruct (decide (key = key')) as [<-|Hne].
           ++ rewrite Hkey in Hl'. injection Hl' as <- <-.
              exists key, off, (RowRefList_insert ref l).
              split; [apply lookup_insert_eq|].
              simpl in *. tauto.
           ++ exists key', off', l'. split; [|exact Hin].
              rewrite lookup_insert_ne by exact Hne. exact Hl'.
        -- exists key, off, (RowRefList_insert ref l).
           split; [apply lookup_insert_eq | simpl; tauto].
  - split.
    + apply map_Forall_insert_2; [eexists; reflexivity | exact Hm].
    + intros r. unfold rows_in. split.
      * intros (key' & off' & l' & Hl' & Hin).
        destruct (decide (key = key')) as [<-|Hne].
        -- rewrite lookup_insert_eq in Hl'. injection Hl' as <- <-.
           simpl in Hin. destruct Hin as [Hin|[]]. right. symmetry. exact Hin.
        -- rewrite lookup_insert_ne in Hl' by exact Hne.
           left. exists key', off', l'. split; assumption.
      * intros [(key' & off' & l' & Hl' & Hin) | ->].
        -- exists key', off', l'. split; [|exact Hin].
           rewrite lookup_insert_ne by (intros <-; congruence). exact Hl'.
        -- eexists key, _, _. split; [apply lookup_insert_eq | simpl; tauto].
Qed.

Lemma insert_row_All (k : Kind) (atl : bool) (key_columns : list Column)
    (stored_block : BlockPtr) (null_map : option (list bool)) (m : HashMap) (i : nat) :
  insert_row k All atl key_columns stored_block null_map m i
  = if null_at null_map i then m
    else insertAll m (key_at key_columns i) (mkRowRef stored_block i).
Proof. unfold insert_row. destruct (null_at null_map i), k; reflexivity. Qed.

Lemma foldl_insert_rows (k : Kind) (atl : bool) (key_columns : list Column)
    (stored_block : BlockPtr) (null_map : option (list bool)) (m : HashMap) (n : nat) :
  holds_chains m ->
  let m' := foldl (insert_row k All atl key_columns stored_block null_map) m (seq 0 n) in
  holds_chains m'
  /\ forall r,
       rows_in m' r
       <-> rows_in m r
           \/ exists i, i < n /\ null_at null_map i = false /\ r = mkRowRef stored_block i.
Proof.
  intros Hm. cbv zeta. induction n as [|n [IH1 IH2]].
  - simpl. split; [exact Hm|]. intros r. split; [tauto|].
    intros [H | (i & Hi & _)]; [exact H | lia].
  - rewrite seq_S, foldl_app. simpl. rewrite insert_row_All.
    destruct (null_at null_map n) eqn:Hnull.
    + split; [exact IH1|]. intros r. rewrite IH2. split.
      * intros [H | (i & Hi & Hn & Hr)]; [left; exact H|].
        right. exists i. split; [lia | split; assumption].
      * intros [H | (i & Hi & Hn & Hr)]; [left; exact H|].
        right. exists i. split; [|split; assumption].
        destruct (decide (i = n)) as [->|Hne]; [congruence | lia].
    + destruct (insertAll_rows _ (key_at key_columns n) (mkRowRef stored_block n) IH1)
        as [H1 H2].
      split; [exact H1|]. intros r. rewrite H2, IH2. split.
      * intros [[H | (i & Hi & Hn & Hr)] | ->].
        -- left. exact H.
        -- right. exists i. split; [lia | split; assumption].
        -- right. exists n. split; [lia | split; [exact Hnull | reflexivity]].
      * intros [H | (i & Hi & Hn & Hr)]; [left; left; exact H|].
        destruct (decide (i = n)) as [->|Hne]; [right; exact Hr|].
        left. right. exists i. split; [lia | split; assumption].
Qed.

Lemma addJoinedBlock_insert_maps (rt : Runtime) (hj : HashJoin) (d rows : nat)
    (key_columns : list Column) (stored_block : BlockPtr)
    (null_map : option (list bool)) :
  kind hj <> Cross ->
  is_join_variant (type (data hj)) = true ->
  maps (data (addJoinedBlock_insert rt hj d rows key_columns stored_block null_map))
  = match maps (data hj) !! d with
    | Some m =>
        <[d := foldl (insert_row (kind hj) (strictness hj) (any_take_last_row hj)
                        key_columns stored_block null_map) m (seq 0 rows)]>
          (maps (data hj))
    | None => maps (data hj)
    end.
Proof.
  intros Hcross Hvariant. unfold addJoinedBlock_insert.
  rewrite bool_decide_eq_false_2 by exact Hcross.
  unfold joinDispatch_matches. rewrite bool_decide_eq_false_2 by exact Hcross.
  cbn [negb].
  destruct (maps (data hj) !! d) as [m|]; [|reflexivity].
  destruct (type (data hj)); try discriminate Hvariant; reflexivity.
Qed.

Lemma addJoinedBlock_disjuncts_maps (rt : Runtime) (ds : list nat) :
  forall indexes all_key_columns rows stored_block hj save tr tb hj' save' tr' tb',
    NoDup ds ->
    strictness hj = All ->
    kind hj <> Cross ->
    is_join_variant (type (data hj)) = true ->
    Forall holds_chains (maps (data hj)) ->
    addJoinedBlock_disjuncts rt ds indexes all_key_columns rows stored_block true
      hj save tr tb = LoopDone hj' save' tr' tb' ->
    forall d m,
      maps (data hj) !! d = Some m ->
      exists m',
        maps (data hj') !! d = Some m'
        /\ forall r,
             rows_in m' r
             <-> rows_in m r
                 \/ (In d ds
                     /\ exists i,
                          i < rows
                          /\ null_at (disjunct_keys indexes all_key_columns d).2 i = false
                          /\ r = mkRowRef stored_block i).
Proof.
  induction ds as [|d0 ds IH];
    intros indexes all_key_columns rows stored_block hj save tr tb hj' save' tr' tb'
           Hnodup Hs Hcross Hvariant Hchains Hloop d m Hd.
  - simpl in Hloop. injection Hloop as <- _ _ _.
    exists m. split; [exact Hd|]. intros r. split; [tauto|].
    intros [H | [[] _]]. exact H.
  - cbn [addJoinedBlock_disjuncts] in Hloop.
    change (extractNestedColumnsAndNullMap
              (omap (fun ind => all_key_columns !! ind) (default [] (indexes !! d0))))
      with (disjunct_keys indexes all_key_columns d0) in Hloop.
    destruct (disjunct_keys indexes all_key_columns d0) as [key_columns null_map] eqn:Hkeys.
    destruct (storage_join_lock hj); [discriminate Hloop|].
    cbn [negb] in Hloop.
    pose proof (addJoinedBlock_insert_preserves rt hj d0 rows key_columns
                  stored_block null_map) as [(_ & Hk1 & Hs1 & _ & _ & Ht1 & _) _].
    pose proof (addJoinedBlock_insert_maps rt hj d0 rows key_columns stored_block
                  null_map Hcross Hvariant) as Hmaps1.
    apply NoDup_cons in Hnodup as [Hnotin Hnodup].
    assert (Hnotin' : ~ In d0 ds) by (rewrite <- list_elem_of_In; exact Hnotin).
    set (hj1 := addJoinedBlock_insert rt hj d0 rows key_columns stored_block null_map) in *.
    assert (Hchains1 : Forall holds_chains (maps (data hj1))).
    { rewrite Hmaps1. destruct (maps (data hj) !! d0) as [m0|] eqn:Hm0; [|exact Hchains].
      apply Forall_insert; [exact Hchains|]. rewrite Hs.
      apply foldl_insert_rows. rewrite Forall_lookup in Hchains. eapply Hchains. exact Hm0. }
    specialize (IH indexes all_key_columns rows stored_block hj1 _ _ _ hj' save' tr' tb'
                  Hnodup (eq_trans Hs1 Hs)
                  ltac:(rewrite Hk1; exact Hcross)
                  ltac:(rewrite Ht1; exact Hvariant) Hchains1 Hloop).
    destruct (decide (d = d0)) as [->|Hne].
    + rewrite Hd in Hmaps1.
      destruct (IH d0 _ ltac:(rewrite Hmaps1; apply list_lookup_insert_eq;
                               eapply lookup_lt_Some; exact Hd)) as (m' & Hm' & Hrows).
      exists m'. split; [exact Hm'|]. intros r. rewrite Hrows, Hs.
      rewrite Forall_lookup in Hchains.
      destruct (foldl_insert_rows (kind hj) (any_take_last_row hj) key_columns
                  stored_block null_map m rows (Hchains _ _ Hd)) as [_ Hfold].
      cbv zeta in Hfold. rewrite Hfold. rewrite Hkeys. cbn [snd]. split.
      * intros [[H | H] | [Hin _]]; [left; exact H | | contradiction].
        right. split; [left; reflexivity | exact H].
      * intros [H | [_ H]]; [left; left; exact H | left; right; exact H].
    + destruct (IH d m) as (m' & Hm' & Hrows).
      { rewrite Hmaps1. destruct (maps (data hj) !! d0); [|exact Hd].
        rewrite list_lookup_insert_ne by (intros ->; contradiction). exact Hd. }
      exists m'. split; [exact Hm'|]. intros r. rewrite Hrows. split.
      * intros [H | [Hin H]]; [left; exact H | right; split; [right; exact Hin | exact H]].
      * intros [H | [[Heq | Hin] H]]; [left; exact H | congruence | right; split; assumption].
Qed.

Lemma getNullMapData_at (c : Column) (i : nat) :
  i < column_rows c ->
  default false (getNullMapData c !! i) = bool_decide (col_cells c !! i = Some None).
Proof.
  unfold getNullMapData, column_rows. intros Hi.
  change (map ?f ?l) with (f <$> l). rewrite list_lookup_fmap.
  destruct (lookup_lt_is_Some_2 _ _ Hi) as [x Hx]. rewrite Hx. simpl.
  destruct x as [v|]; [|reflexivity].
  symmetry. apply bool_decide_eq_false_2. congruence.
Qed.

Lemma extractNested_many_null_at (key_columns : list Column) (i : nat) :
  Forall (fun c => i < column_rows c) key_columns ->
  forall holder,
    from_option (fun h => i < length h) True holder ->
    null_at (extractNested_many key_columns holder).2 i
    = null_at holder i || key_has_null key_columns i.
Proof.
  induction 1 as [|c rest Hc Hrest IH]; intros holder Hholder; simpl.
  - rewrite orb_false_r. reflexivity.
  - destruct (col_nullable c) eqn:Hn; simpl.
    + match goal with
      | |- context [extractNested_many rest ?h] =>
          specialize (IH h); destruct (extractNested_many rest h) as [rest' res]
      end.
      simpl in *. rewrite IH.
      * rewrite orb_assoc. f_equal.
        destruct holder as [h|]; simpl.
        -- unfold or_null_maps. rewrite list_lookup_imap.
           simpl in Hholder.
           destruct (lookup_lt_is_Some_2 _ _ Hholder) as [b ->]. simpl.
           rewrite getNullMapData_at by exact Hc. reflexivity.
        -- apply getNullMapData_at. exact Hc.
      * destruct holder as [h|]; simpl.
        -- unfold or_null_maps. rewrite length_imap. exact Hholder.
        -- unfold getNullMapData. rewrite length_map. exact Hc.
    + specialize (IH holder Hholder).
      destruct (extractNested_many rest holder) as [rest' res]. simpl in *. exact IH.
Qed.

(** X20: the null map extractNestedColumnsAndNullMap returns marks row i
    exactly when some nullable key column is NULL at row i: the maps of the
    nullable columns are combined by disjunction. *)
Lemma extractNestedColumnsAndNullMap_null_at (key_columns : list Column) (i : nat) :
  Forall (fun c => i < column_rows c) key_columns ->
  null_at (extractNestedColumnsAndNullMap key_columns).2 i = key_has_null key_columns i.
Proof.
  intros Hrows. unfold extractNestedColumnsAndNullMap.
  destruct key_columns as [|c [|c2 rest]].
  - reflexivity.
  - simpl. inversion Hrows as [|? ? Hc _]; subst.
    destruct (col_nullable c); simpl; [|reflexivity].
    rewrite orb_false_r. apply getNullMapData_at. exact Hc.
  - apply (extractNested_many_null_at _ i Hrows None). exact I.
Qed.

Lemma addJoinedBlock_disjuncts_checked (rt : Runtime) (ds : list nat) :
  forall indexes all_key_columns rows stored_block hj save tr tb hj' ret,
    addJoinedBlock_disjuncts rt ds indexes all_key_columns rows stored_block true
      hj save tr tb = LoopReturn hj' ret -> False.
Proof.
  induction ds as [|d ds IH];
    intros indexes all_key_columns rows stored_block hj save tr tb hj' ret; simpl.
  - discriminate.
  - destruct (extractNestedColumnsAndNullMap _) as [key_columns null_map].
    destruct (storage_join_lock hj); [discriminate|]. simpl. apply IH.
Qed.

(** X7: with check_limits set, ingestion into an ALL-strictness (chain-mapped)
    join adds to the table of every disjunct exactly the rows of the block
    whose combined null map is clear, under the reference of the stored
    block; rows already held stay. *)
Lemma checked_ingestion_fills_every_disjunct (rt : Runtime) (hj : HashJoin)
    (source_block : Block) :
  strictness hj = All ->
  kind hj <> Cross ->
  is_join_variant (type (data hj)) = true ->
  Forall holds_chains (maps (data hj)) ->
  throws (addJoinedBlock rt hj source_block true).1 = false ->
  exists all_key_columns,
    materializeColumns (materializeBlock source_block)
      (key_names_right_indexes (key_names_right hj)).1 = Ok all_key_columns
    /\ forall d m,
         d < length (key_names_right hj) ->
         maps (data hj) !! d = Some m ->
         exists m',
           maps (data (addJoinedBlock rt hj source_block true).2) !! d = Some m'
           /\ forall r,
                rows_in m' r
                <-> rows_in m r
                    \/ exists i,
                         i < block_rows source_block
                         /\ null_at
                              (disjunct_keys (key_names_right_indexes (key_names_right hj)).2
                                 all_key_columns d).2 i = false
                         /\ r = mkRowRef (StoredBlock (length (blocks (data hj)))) i.
Proof.
  intros Hs Hcross Hvariant Hchains. unfold addJoinedBlock.
  destruct (HashJoin_empty hj); [discriminate|].
  destruct (overDictionary hj); [discriminate|].
  destruct (u32_max <? N.of_nat (block_rows source_block))%N; [discriminate|].
  destruct (key_names_right_indexes (key_names_right hj))
    as [all_key_names_right indexes].
  cbn [fst snd].
  destruct (materializeColumns _ _) as [all_key_columns|e]; [|discriminate].
  destruct (structureRightBlock hj _) as [structured_block|e]; [|discriminate].
  cbv zeta. rewrite block_rows_materializeBlock.
  match goal with
  | |- context [addJoinedBlock_disjuncts rt ?ds ?i ?a ?r ?sb ?cl ?h ?s ?x ?y] =>
      pose proof (fun hj' s' x' y' =>
                    addJoinedBlock_disjuncts_maps rt ds i a r sb h s x y hj' s' x' y'
                      (NoDup_seq _ _) Hs Hcross Hvariant Hchains) as Hloop;
      pose proof (fun hj' r' =>
                    addJoinedBlock_disjuncts_checked rt ds i a r sb h s x y hj' r')
        as Hnoret;
      destruct (addJoinedBlock_disjuncts rt ds i a r sb cl h s x y)
        as [hj1 save_a_nullmap total_rows total_bytes | hj1 ret | hj1 err]
  end; cbn [fst snd]; [| |discriminate].
  - intros _. exists all_key_columns. split; [reflexivity|].
    intros d m Hd Hm.
    destruct (Hloop _ _ _ _ eq_refl d m Hm) as (m' & Hm' & Hrows).
    exists m'. split.
    + destruct save_a_nullmap; [|exact Hm'].
      unfold save_nullmap_of.
      destruct (extractNestedColumnsAndNullMap all_key_columns) as [? ?]. exact Hm'.
    + intros r. rewrite Hrows. split.
      * intros [H | [_ H]]; [left; exact H | right; exact H].
      * intros [H | H]; [left; exact H | right; split; [|exact H]].
        apply in_seq. lia.
  - exfalso. exact (Hnoret _ _ eq_refl).
Qed.

(** ** Used flags *)

(** X1: on a flag inside the vector, setUsedOnce<true> succeeds exactly
    when the flag was clear, leaves it set, fails when repeated, and
    touches no other flag. *)
Theorem setUsedOnce_claims_once (i : nat) (f : JoinUsedFlags) :
  i < length (flags f) ->
  (setUsedOnce true i f).1 = negb (getUsed true i f)
  /\ getUsed true i (setUsedOnce true i f).2 = true
  /\ (setUsedOnce true i (setUsedOnce true i f).2).1 = false
  /\ (forall j, j <> i ->
        getUsed true j (setUsedOnce true i f).2 = getUsed true j f).
Proof.
  intros Hi. unfold setUsedOnce, getUsed.
  destruct (lookup_lt_is_Some_2 _ _ Hi) as [b Hb]. rewrite Hb. simpl.
  destruct b; simpl.
  - rewrite Hb. simpl. repeat split.
  - rewrite list_lookup_insert_eq by exact Hi. simpl.
    split; [reflexivity|]. split; [reflexivity|]. split; [reflexivity|].
    intros j Hj. rewrite list_lookup_insert_ne by congruence. reflexivity.
Qed.

Lemma setUsedOnce_claims_once_witness :
  1 < length (flags (mkJoinUsedFlags true [true; false; false]))
  /\ (setUsedOnce true 1 (mkJoinUsedFlags true [true; false; false])).1 = true.
Proof.
  split; [simpl; lia|].
  rewrite (proj1 (setUsedOnce_claims_once 1 (mkJoinUsedFlags true [true; false; false])
                    ltac:(simpl; lia))).
  reflexivity.
Defined.

(** ** Null maps *)

Lemma extractNested_many_nested (key_columns : list Column) :
  forall holder,
    Forall (fun c => col_nullable c = false) (extractNested_many key_columns holder).1
    /\ map col_name (extractNested_many key_columns holder).1 = map col_name key_columns
    /\ map column_rows (extractNested_many key_columns holder).1
       = map column_rows key_columns
    /\ ((extractNested_many key_columns holder).2 = None
        <-> holder = None /\ Forall (fun c => col_nullable c = false) key_columns).
Proof.
  induction key_columns as [|c rest IH]; intros holder; simpl.
  - split; [constructor|]. split; [reflexivity|]. split; [reflexivity|].
    split; [intros ->; split; [reflexivity | constructor] | intros [-> _]; reflexivity].
  - destruct (col_nullable c) eqn:Hn.
    + match goal with
      | |- context [extractNested_many rest ?h] =>
          destruct (IH h) as (H1 & H2 & H3 & H4);
          destruct (extractNested_many rest h) as [rest' res] eqn:Hrest
      end.
      simpl in *. split; [constructor; [reflexivity | exact H1]|].
      split; [f_equal; exact H2|].
      split; [f_equal; [unfold column_rows; simpl; apply length_map | exact H3]|].
      split.
      * intros Hres. apply H4 in Hres as [Hres _]. destruct holder; discriminate Hres.
      * intros [_ Hall]. inversion Hall; congruence.
    + destruct (IH holder) as (H1 & H2 & H3 & H4).
      destruct (extractNested_many rest holder) as [rest' res] eqn:Hrest.
      simpl in *. split; [constructor; assumption|].
      split; [f_equal; exact H2|]. split; [f_equal; exact H3|].
      rewrite H4. split.
      * intros [-> Hall]. split; [reflexivity | constructor; assumption].
      * intros [-> Hall]. inversion Hall; subst. split; [reflexivity | assumption].
Qed.

(** X19: extractNestedColumnsAndNullMap returns one column per key
    column, under the same name and with the same number of rows, none of
    them nullable; it returns no null map exactly when no key column is
    nullable. *)
Theorem extractNestedColumnsAndNullMap_nested (key_columns : list Column) :
  Forall (fun c => col_nullable c = false) (extractNestedColumnsAndNullMap key_columns).1
  /\ map col_name (extractNestedColumnsAndNullMap key_columns).1
     = map col_name key_columns
  /\ map column_rows (extractNestedColumnsAndNullMap key_columns).1
     = map column_rows key_columns
  /\ ((extractNestedColumnsAndNullMap key_columns).2 = None
      <-> Forall (fun c => col_nullable c = false) key_columns).
Proof.
  unfold extractNestedColumnsAndNullMap.
  destruct key_columns as [|c [|c2 rest]].
  - simpl. split; [constructor|]. split; [reflexivity|]. split; [reflexivity|].
    split; [constructor | reflexivity].
  - destruct (col_nullable c) eqn:Hn; simpl.
    + split; [repeat constructor|]. split; [reflexivity|].
      split; [unfold column_rows; simpl; rewrite length_map; reflexivity|].
      split; [discriminate|]. intros Hall. inversion Hall; congruence.
    + split; [repeat constructor; exact Hn|]. split; [reflexivity|].
      split; [reflexivity|]. split; [repeat constructor; exact Hn | reflexivity].
  - destruct (extractNested_many_nested (c :: c2 :: rest) None) as (H1 & H2 & H3 & H4).
    split; [exact H1|]. split; [exact H2|]. split; [exact H3|].
    rewrite H4. split; [intros [_ H]; exact H | intros H; split; [reflexivity | exact H]].
Qed.

(** ** joinNullMaps and filterWithBlanks *)

Lemma foldl_and_null_maps (holders : list (list bool)) (idx : list nat)
    (acc : list bool) (j : nat) :
  j < length acc ->
  length (foldl (fun m i => and_null_maps m (default [] (holders !! i))) acc idx)
  = length acc
  /\ default false
       (foldl (fun m i => and_null_maps m (default [] (holders !! i))) acc idx !! j)
     = default false (acc !! j)
       && forallb (fun i => default false (default [] (holders !! i) !! j)) idx.
Proof.
  revert acc. induction idx as [|i idx IH]; intros acc Hj; simpl.
  - rewrite andb_true_r. split; reflexivity.
  - destruct (IH (and_null_maps acc (default [] (holders !! i)))) as [IH1 IH2].
    { unfold and_null_maps. rewrite length_imap. exact Hj. }
    split.
    + rewrite IH1. unfold and_null_maps. apply length_imap.
    + rewrite IH2. unfold and_null_maps at 1. rewrite list_lookup_imap.
      destruct (lookup_lt_is_Some_2 _ _ Hj) as [b ->]. simpl.
      rewrite andb_assoc. reflexivity.
Qed.

(** X21: joinNullMaps marks a row exactly when every disjunct's null map
    marks it: byte j of the result is the conjunction of byte j of all the
    holders (extractNestedColumnsAndNullMap, by contrast, takes the
    disjunction over the key columns of one disjunct). *)
Theorem joinNullMaps_all_null (holders : list (list bool)) (j : nat) :
  Forall (fun h => j < length h) holders ->
  null_at (joinNullMaps holders (length holders)) j
  = negb (bool_decide (holders = []))
    && forallb (fun h => default false (h !! j)) holders.
Proof.
  intros Hlen. unfold joinNullMaps.
  destruct holders as [|first rest]; [reflexivity|].
  rewrite bool_decide_eq_false_2 by discriminate. cbn [negb andb null_at forallb].
  inversion Hlen as [|? ? Hfirst Hrest]; subst.
  destruct (foldl_and_null_maps (first :: rest) (seq 1 (length (first :: rest) - 1))
              first j Hfirst) as [_ Hand].
  rewrite Hand. f_equal. simpl. rewrite Nat.sub_0_r.
  clear Hand Hlen Hfirst Hrest.
  assert (Hgen : forall k pre,
             length pre = k ->
             forallb (fun i => default false (default [] ((pre ++ rest) !! i) !! j))
               (seq k (length rest))
             = forallb (fun h => default false (h !! j)) rest).
  { induction rest as [|h rest IH]; intros k pre Hk; [reflexivity|].
    simpl. rewrite lookup_app_r by lia. rewrite Hk, Nat.sub_diag. simpl. f_equal.
    specialize (IH (S k) (pre ++ [h])). rewrite <- app_assoc in IH. simpl in IH.
    apply IH. rewrite length_app. simpl. lia. }
  exact (Hgen 1 [first] eq_refl).
Qed.

Lemma joinNullMaps_all_null_witness :
  Forall (fun h => 1 < length h) [[true; true]; [false; true]]
  /\ null_at (joinNullMaps [[true; true]; [false; true]]
                (length [[true; true]; [false; true]])) 1
     = negb (bool_decide ([[true; true]; [false; true]] = []))
       && forallb (fun h => default false (h !! 1)) [[true; true]; [false; true]].
Proof.
  split; [repeat constructor|].
  apply (joinNullMaps_all_null [[true; true]; [false; true]] 1).
  repeat constructor.
Defined.

Lemma foldl_pointwise {A B} (f g : A -> B -> A) (l : list B) (a : A) :
  (forall x y, f x y = g x y) -> foldl f a l = foldl g a l.
Proof.
  intros Hfg. revert a. induction l as [|y l IH]; intros a; simpl;
    [reflexivity | rewrite Hfg; apply IH].
Qed.

Lemma filterWithBlanks_loop (column : Column) (filter : list bool) (inverse : bool)
    (n : nat) (mut : Column) :
  n <= length filter ->
  col_cells
    (foldl (fun mut_column row =>
              if xorb (default false (filter !! row)) inverse
              then insertFrom mut_column (Some column) row
              else insertDefault mut_column)
       mut (seq 0 n))
  = col_cells mut
    ++ map (fun row =>
              if xorb (default false (filter !! row)) inverse
              then default (default_cell mut) (col_cells column !! row)
              else default_cell mut)
         (seq 0 n)
  /\ default_cell
       (foldl (fun mut_column row =>
                 if xorb (default false (filter !! row)) inverse
                 then insertFrom mut_column (Some column) row
                 else insertDefault mut_column)
          mut (seq 0 n))
     = default_cell mut.
Proof.
  intros Hn. induction n as [|n IH].
  - simpl. rewrite app_nil_r. split; reflexivity.
  - destruct IH as [IH1 IH2]; [lia|].
    rewrite seq_S, foldl_app, map_app. simpl.
    set (acc := foldl _ mut (seq 0 n)) in *.
    destruct (xorb _ inverse); unfold insertDefault, insertFrom; simpl;
      (split; [rewrite IH1, <- app_assoc; fold (default_cell acc); rewrite IH2;
               reflexivity
              | etrans; [|exact IH2]; reflexivity]).
Qed.

(** X2: filterWithBlanks returns one row per filter entry: row i carries
    the source cell when the filter entry differs from inverse_filter and
    the default of the column otherwise; the inverse mode is the plain mode
    on the negated filter. *)
Theorem filterWithBlanks_rows (src_column : Column) (filter : list bool)
    (inverse_filter : bool) :
  col_cells (filterWithBlanks src_column filter inverse_filter)
  = map (fun row =>
           if xorb (default false (filter !! row)) inverse_filter
           then default (default_cell (convertToFullColumnIfConst src_column))
                  (col_cells src_column !! row)
           else default_cell (convertToFullColumnIfConst src_column))
      (seq 0 (length filter))
  /\ filterWithBlanks src_column filter true
     = filterWithBlanks src_column (map negb filter) false.
Proof.
  assert (Hcells : col_cells (convertToFullColumnIfConst src_column)
                   = col_cells src_column).
  { unfold convertToFullColumnIfConst.
    destruct (col_class (col_type src_column)); reflexivity. }
  split.
  - unfold filterWithBlanks. cbv zeta.
    destruct (filterWithBlanks_loop (convertToFullColumnIfConst src_column) filter
                inverse_filter (length filter)
                (cloneEmpty (convertToFullColumnIfConst src_column)) (le_n _))
      as [Hloop _].
    change (default_cell (cloneEmpty (convertToFullColumnIfConst src_column)))
      with (default_cell (convertToFullColumnIfConst src_column)) in Hloop.
    rewrite Hcells in Hloop. simpl in Hloop.
    destruct inverse_filter.
    + etrans; [|exact Hloop]. f_equal. apply foldl_pointwise. intros mut row.
      destruct (default false (filter !! row)); reflexivity.
    + etrans; [|exact Hloop]. f_equal. apply foldl_pointwise. intros mut row.
      destruct (default false (filter !! row)); reflexivity.
  - unfold filterWithBlanks. cbv zeta. rewrite length_map.
    generalize (cloneEmpty (convertToFullColumnIfConst src_column)) as mut.
    assert (Hseq : Forall (fun row => row < length filter) (seq 0 (length filter)))
      by apply Forall_seq_lt.
    induction Hseq as [|row rows Hrow _ IH]; intros mut; [reflexivity|].
    simpl. rewrite <- IH. f_equal.
    change (map negb filter) with (negb <$> filter). rewrite list_lookup_fmap.
    destruct (lookup_lt_is_Some_2 _ _ Hrow) as [b ->]. simpl. destruct b; reflexivity.
Qed.

(** ** Ingestion into a locked instance *)

(** X8: on an instance locked against updates, addJoinedBlock throws
    LogicalError for a block that passes the earlier checks; the throw
    comes from inside the loop over the disjuncts, after the structured
    block was appended to the right storage, so the block stays stored
    while no table and no flag has changed. *)
Theorem addJoinedBlock_locked (rt : Runtime) (hj : HashJoin) (source_block : Block)
    (check_limits : bool) :
  storage_join_lock hj = true ->
  key_names_right hj <> [] ->
  type (data hj) <> EMPTY ->
  type (data hj) <> DICT ->
  (N.of_nat (block_rows source_block) <= u32_max)%N ->
  has_columns source_block (key_names_right_indexes (key_names_right hj)).1 = true ->
  has_columns source_block (map col_name (sample_block (data hj))) = true ->
  (addJoinedBlock rt hj source_block check_limits).1 = Throw LOGICAL_ERROR
  /\ maps (data (addJoinedBlock rt hj source_block check_limits).2) = maps (data hj)
  /\ used_flags (addJoinedBlock rt hj source_block check_limits).2 = used_flags hj
  /\ (exists stored,
        blocks (data (addJoinedBlock rt hj source_block check_limits).2)
        = blocks (data hj) ++ [stored])
  /\ empty (data (addJoinedBlock rt hj source_block check_limits).2)
     = (if bool_decide (block_rows source_block = 0) then empty (data hj) else false).
Proof.
  intros Hlock Hne Hnot_empty Hnot_dict Hsmall Hkeys Hsample.
  unfold addJoinedBlock, HashJoin_empty, overDictionary.
  rewrite (bool_decide_eq_false_2 _ Hnot_empty), (bool_decide_eq_false_2 _ Hnot_dict).
  destruct (N.ltb_spec u32_max (N.of_nat (block_rows source_block))) as [Hbig|_]; [lia|].
  destruct (key_names_right_indexes (key_names_right hj))
    as [all_key_names_right indexes] eqn:Hidx.
  cbn [fst] in Hkeys.
  rewrite <- has_columns_materializeBlock in Hkeys, Hsample.
  pose proof (materializeColumns_ok _ _ Hkeys) as Hm.
  destruct (materializeColumns _ _) as [all_key_columns|e]; [|discriminate Hm].
  destruct (structureRightBlock_ok hj _ Hsample) as (structured & -> & Hlen).
  cbv zeta. rewrite block_rows_materializeBlock.
  destruct (key_names_right hj) as [|names rest] eqn:Hnames; [congruence|].
  cbn [length seq addJoinedBlock_disjuncts].
  destruct (extractNestedColumnsAndNullMap _) as [key_columns null_map].
  change (storage_join_lock (append_block ?h ?b ?r)) with (storage_join_lock h).
  rewrite Hlock. cbn [fst snd].
  split; [reflexivity|]. split; [reflexivity|]. split; [reflexivity|].
  split; [eexists; reflexivity | reflexivity].
Qed.

Lemma addJoinedBlock_locked_witness :
  storage_join_lock (setLock (build (kv_join Inner All) kv_sample [] true)) = true
  /\ (addJoinedBlock rt0 (setLock (build (kv_join Inner All) kv_sample [] true))
        kv_right_one true).1 = Throw LOGICAL_ERROR.
Proof.
  split; [reflexivity|].
  apply (addJoinedBlock_locked rt0
           (setLock (build (kv_join Inner All) kv_sample [] true)) kv_right_one true).
  - reflexivity.
  - vm_compute. discriminate.
  - vm_compute. discriminate.
  - vm_compute. discriminate.
  - vm_compute. discriminate.
  - vm_compute. reflexivity.
  - vm_compute. reflexivity.
Defined.

(** ** The map variant the constructor chooses *)

Lemma numeric_method_variant (w : N) (t : Type_) :
  numeric_method w = Ok t -> is_join_variant t = true.
Proof.
  unfold numeric_method.
  repeat (match goal with |- context [if ?b then _ else _] => destruct b end;
          [intros [= <-]; reflexivity|]).
  discriminate.
Qed.

Lemma chooseMethod_variant (key_columns : list IColumn) (key_sizes : Sizes) (t : Type_) :
  (chooseMethod key_columns key_sizes).1 = Ok t ->
  t = CROSS \/ is_join_variant t = true.
Proof.
  unfold chooseMethod.
  destruct (bool_decide (length key_columns = 0)); [intros [= <-]; left; reflexivity|].
  cbv zeta.
  destruct (chooseMethod_loop key_columns 0 _ 0%N) as [[all_fixed sizes] keys_bytes].
  destruct (from_option isNumeric false (only_column key_columns)).
  { cbn [fst]. intros H. right. eapply numeric_method_variant. exact H. }
  repeat (match goal with |- context [if ?b then _ else _] => destruct b end;
          [intros [= <-]; right; reflexivity|]).
  intros [= <-]. right. reflexivity.
Qed.

Lemma ctor_disjuncts_type (tj : TableJoin) (right_table_keys : Block)
    (disjuncts : list (list string)) :
  forall join_method t sizes,
    ctor_disjuncts tj right_table_keys disjuncts join_method = Ok (t, sizes) ->
    length sizes = length disjuncts
    /\ (disjuncts = [] -> t = join_method)
    /\ (disjuncts <> [] ->
        match dictionary_reader tj with
        | Some _ => t = DICT
        | None => join_method <> DICT -> t <> EMPTY /\ t <> DICT
        end).
Proof.
  induction disjuncts as [|names rest IH]; intros join_method t sizes; simpl.
  - intros [= <- <-]. split; [reflexivity|]. split; [reflexivity | congruence].
  - destruct (extractKeysForJoin right_table_keys names) as [key_columns|e];
      simpl; [|discriminate].
    destruct (dictionary_reader tj) as [reader|] eqn:Hreader.
    + destruct (chooseMethod _ _) as [chosen sizes0].
      destruct chosen as [t0|e]; simpl; [|discriminate].
      destruct (ctor_disjuncts tj right_table_keys rest DICT) as [[t1 sizes1]|e] eqn:Hrest;
        simpl; [|discriminate].
      intros [= <- <-].
      destruct (IH _ _ _ Hrest) as (Hlen & Hnil & Hcons).
      split; [simpl; congruence|]. split; [discriminate|]. intros _.
      destruct rest as [|names2 rest2]; [apply Hnil; reflexivity|].
      apply Hcons. discriminate.
    + match goal with
      | |- obind ?prep _ = _ -> _ => destruct prep as [[key_columns' sizes0]|e]
      end; simpl; [|discriminate].
      destruct (chooseMethod _ _) as [chosen sizes1] eqn:Hchoose.
      destruct chosen as [current|e]; simpl; [|discriminate].
      match goal with
      | |- context [ctor_disjuncts tj right_table_keys rest ?jm] =>
          set (jm' := jm);
          destruct (ctor_disjuncts tj right_table_keys rest jm')
            as [[t1 sizes2]|e] eqn:Hrest
      end; simpl; [|discriminate].
      intros [= <- <-].
      destruct (IH _ _ _ Hrest) as (Hlen & Hnil & Hcons).
      split; [simpl; congruence|]. split; [discriminate|]. intros _ Hjm.
      assert (Hcur : current <> EMPTY /\ current <> DICT).
      { pose proof (chooseMethod_variant (map col_type key_columns') sizes0 current) as Hv.
        rewrite Hchoose in Hv.
        destruct (Hv eq_refl) as [-> | Hv']; [split; discriminate|].
        split; intros ->; discriminate Hv'. }
      assert (Hjm' : jm' <> EMPTY /\ jm' <> DICT).
      { subst jm'.
        destruct (bool_decide_reflect (join_method = EMPTY)); [exact Hcur|].
        destruct (bool_decide (join_method = current)); [split; assumption|].
        split; discriminate. }
      destruct rest as [|names2 rest2]; [rewrite (Hnil eq_refl); exact Hjm'|].
      apply Hcons; [discriminate | apply Hjm'].
Qed.

(** X3: an instance the constructor returns for at least one disjunct is
    initialized (its type is not EMPTY), is dictionary-backed exactly when
    the join settings carry a dictionary reader, and has one table and one
    vector of key sizes per disjunct. *)
Theorem HashJoin_ctor_type (tj : TableJoin) (right_sample_block : Block)
    (any_take_last_row_ : bool) (hj : HashJoin) :
  HashJoin_ctor tj right_sample_block any_take_last_row_ = Ok hj ->
  keyNamesRight tj <> [] ->
  type (data hj) <> EMPTY
  /\ (type (data hj) = DICT <-> is_Some (dictionary_reader tj))
  /\ length (maps (data hj)) = length (keyNamesRight tj)
  /\ length (key_sizes hj) = length (keyNamesRight tj).
Proof.
  unfold HashJoin_ctor.
  destruct (if 1 <? length (keyNamesRight tj) then _ else _) as [keys to_add].
  destruct (if 1 <? length (keyNamesRight tj) then Ok _ else _)
    as [[required sources]|e0]; simpl; [|discriminate].
  destruct (ctor_disjuncts tj keys (keyNamesRight tj) EMPTY) as [[jm sizes]|e] eqn:Hctor;
    simpl; [|discriminate].
  intros [= <-] Hne. simpl.
  destruct (ctor_disjuncts_type _ _ _ _ _ _ Hctor) as (Hlen & _ & Hcons).
  specialize (Hcons Hne).
  destruct (dictionary_reader tj) as [reader|].
  - subst jm. split; [discriminate|]. split; [split; eauto|].
    split; [apply length_replicate | exact Hlen].
  - destruct Hcons as [H1 H2]; [discriminate|].
    split; [exact H1|]. split; [split; [contradiction | intros [? [=]]]|].
    split; [apply length_replicate | exact Hlen].
Qed.

Lemma HashJoin_ctor_type_witness :
  HashJoin_ctor (kv_join Inner All) kv_sample false
  = Ok (build (kv_join Inner All) kv_sample [] false)
  /\ type (data (build (kv_join Inner All) kv_sample [] false)) <> EMPTY.
Proof.
  split; [vm_compute; reflexivity|].
  apply (HashJoin_ctor_type (kv_join Inner All) kv_sample false
           (build (kv_join Inner All) kv_sample [] false)).
  - vm_compute. reflexivity.
  - vm_compute. discriminate.
Defined.

(** ** The widths the chooser records *)

Lemma chooseMethod_loop_sizes (key_columns : list IColumn) :
  forall j key_sizes acc,
    length key_sizes = j + length key_columns ->
    length (chooseMethod_loop key_columns j key_sizes acc).1.2 = j + length key_columns
    /\ (Forall (fun c => isFixedAndContiguous c = true) key_columns ->
        (chooseMethod_loop key_columns j key_sizes acc).1.2
        = take j key_sizes ++ map sizeOfValueIfFixed key_columns).
Proof.
  induction key_columns as [|c rest IH]; intros j key_sizes acc Hlen; simpl in *.
  - split; [exact Hlen|]. intros _. rewrite app_nil_r, take_ge; [reflexivity | lia].
  - destruct (isFixedAndContiguous c) eqn:Hc; simpl.
    + destruct (IH (S j) (<[j := sizeOfValueIfFixed c]> key_sizes)
                  (size_t_add acc (sizeOfValueIfFixed c))) as [IH1 IH2].
      { rewrite length_insert. lia. }
      split; [etrans; [exact IH1 | lia]|].
      intros Hall. inversion Hall as [|? ? _ Hrest]; subst.
      etrans; [exact (IH2 Hrest)|].
      rewrite (take_S_r _ _ (sizeOfValueIfFixed c)).
      * rewrite take_insert_ge by lia. rewrite <- app_assoc. reflexivity.
      * apply list_lookup_insert_eq. lia.
    + split; [exact Hlen|]. intros Hall. inversion Hall; congruence.
Qed.

(** X4: for a non-empty list of key columns chooseMethod leaves in
    key_sizes one entry per key column, whatever the vector held before;
    when every key column is fixed and contiguous the entries are the widths
    of the columns, in order. *)
Theorem chooseMethod_key_sizes (key_columns : list IColumn) (key_sizes : Sizes) :
  key_columns <> [] ->
  length (chooseMethod key_columns key_sizes).2 = length key_columns
  /\ (Forall (fun c => isFixedAndContiguous c = true) key_columns ->
      (chooseMethod key_columns key_sizes).2 = map sizeOfValueIfFixed key_columns).
Proof.
  intros Hne. unfold chooseMethod.
  rewrite bool_decide_eq_false_2 by (destruct key_columns; [congruence | discriminate]).
  cbv zeta.
  pose proof (chooseMethod_loop_sizes key_columns 0
                (resize (length key_columns) 0%N key_sizes) 0%N
                (length_resize _ _ _)) as [Hlen Hall].
  destruct (chooseMethod_loop key_columns 0 _ 0%N) as [[all_fixed sizes] keys_bytes].
  cbn [fst snd] in Hlen, Hall.
  assert (Hsnd : forall (t1 t2 t3 t4 t5 t6 : Outcome Type_) (b1 b2 b3 b4 b5 : bool),
             (if b1 then (t1, sizes)
              else if b2 then (t2, sizes)
              else if b3 then (t3, sizes)
              else if b4 then (t4, sizes)
              else if b5 then (t5, sizes) else (t6, sizes)).2 = sizes).
  { intros. destruct b1, b2, b3, b4, b5; reflexivity. }
  rewrite Hsnd. split; [exact Hlen | exact Hall].
Qed.

Lemma chooseMethod_key_sizes_witness :
  [int_type 8; int_type 4] <> []
  /\ (chooseMethod [int_type 8; int_type 4] [1; 2; 3]%N).2 = [8; 4]%N.
Proof.
  split; [discriminate|].
  apply (chooseMethod_key_sizes [int_type 8; int_type 4] [1; 2; 3]%N); [discriminate|].
  repeat constructor.
Defined.

(** ** Ingestion into single-row tables *)

Lemma insert_row_One (k : Kind) (s : Strictness) (atl : bool) (key_columns : list Column)
    (stored_block : BlockPtr) (null_map : option (list bool)) (m : HashMap) (i : nat) :
  MapGetter_Map k s = MapsOne ->
  insert_row k s atl key_columns stored_block null_map m i
  = if null_at null_map i then m
    else insertOne atl m (key_at key_columns i) (mkRowRef stored_block i).
Proof.
  intros Hone. unfold insert_row.
  destruct (null_at null_map i); [reflexivity|].
  destruct s; try (simpl in Hone; discriminate Hone);
    rewrite Hone; reflexivity.
Qed.

Lemma foldl_insert_row_One (k : Kind) (s : Strictness) (atl : bool)
    (key_columns : list Column) (stored_block : BlockPtr)
    (null_map : option (list bool)) (m : HashMap) (key : Key) (l : list nat) :
  MapGetter_Map k s = MapsOne ->
  snd <$> (foldl (insert_row k s atl key_columns stored_block null_map) m l !! key)
  = if atl
    then match last (rows_with_key key_columns null_map key l) with
         | Some i => Some (MRowRef (mkRowRef stored_block i))
         | None => snd <$> (m !! key)
         end
    else match m !! key with
         | Some v => Some v.2
         | None =>
             (fun i => MRowRef (mkRowRef stored_block i))
               <$> head (rows_with_key key_columns null_map key l)
         end.
Proof.
  intros Hone. induction l as [|x l IH] using rev_ind.
  - simpl. destruct atl; [reflexivity|]. destruct (m !! key); reflexivity.
  - rewrite foldl_app. simpl. rewrite insert_row_One by exact Hone.
    unfold rows_with_key in *. rewrite List.filter_app. simpl.
    set (m' := foldl (insert_row k s atl key_columns stored_block null_map) m l) in *.
    set (hits := List.filter _ l) in *.
    destruct (null_at null_map x); simpl.
    { rewrite app_nil_r. exact IH. }
    destruct (bool_decide_reflect (key_at key_columns x = key)) as [Hk|Hk].
    + rewrite Hk. unfold insertOne.
      destruct (m' !! key) as [[off old]|] eqn:Hm'.
      * destruct atl.
        -- rewrite lookup_insert_eq, last_snoc. reflexivity.
        -- rewrite Hm'. simpl in *.
           destruct (m !! key); [exact IH|].
           destruct hits as [|h hits']; [discriminate IH | exact IH].
      * rewrite lookup_insert_eq. simpl. simpl in IH. destruct atl.
        -- rewrite last_snoc. reflexivity.
        -- destruct (m !! key); [discriminate IH|].
           destruct hits as [|h hits']; [reflexivity | discriminate IH].
    + rewrite app_nil_r.
      assert (Hsame : insertOne atl m' (key_at key_columns x) (mkRowRef stored_block x)
                      !! key = m' !! key).
      { unfold insertOne. destruct (m' !! key_at key_columns x) as [[off old]|].
        - destruct atl; [|reflexivity]. apply lookup_insert_ne. exact Hk.
        - apply lookup_insert_ne. exact Hk. }
      rewrite Hsame. exact IH.
Qed.

(** X5: ingestion of a block into a table of single row references (the
    tables of ANY, SEMI and ANTI joins of kind Left or Inner, among
    others) keeps, for each key, the first row that carried it: a key the
    table already held keeps its row, a new key gets the first row of the
    block with that key and a clear null map.  With any_take_last_row the
    last such row of the block replaces whatever the key had. *)
Theorem ingestion_keeps_first_or_last_row (rt : Runtime) (k : Kind) (s : Strictness)
    (atl : bool) (key_columns : list Column) (stored_block : BlockPtr)
    (null_map : option (list bool)) (m : HashMap) (rows : nat) (key : Key) :
  MapGetter_Map k s = MapsOne ->
  snd <$> ((insertFromBlockImplTypeCase rt k s atl m rows key_columns stored_block
              null_map).1 !! key)
  = if atl
    then match last (rows_with_key key_columns null_map key (seq 0 rows)) with
         | Some i => Some (MRowRef (mkRowRef stored_block i))
         | None => snd <$> (m !! key)
         end
    else match m !! key with
         | Some v => Some v.2
         | None =>
             (fun i => MRowRef (mkRowRef stored_block i))
               <$> head (rows_with_key key_columns null_map key (seq 0 rows))
         end.
Proof.
  intros Hone. unfold insertFromBlockImplTypeCase. cbn [fst].
  apply foldl_insert_row_One. exact Hone.
Qed.

Lemma ingestion_keeps_first_or_last_row_witness :
  MapGetter_Map Left Any = MapsOne
  /\ snd <$> ((insertFromBlockImplTypeCase rt0 Left Any false ∅ 3
                 [int_col "k" [7; 7; 7]%Z] (StoredBlock 0) None).1 !! [VInt 7])
     = Some (MRowRef (mkRowRef (StoredBlock 0) 0))
  /\ snd <$> ((insertFromBlockImplTypeCase rt0 Left Any true ∅ 3
                 [int_col "k" [7; 7; 7]%Z] (StoredBlock 0) None).1 !! [VInt 7])
     = Some (MRowRef (mkRowRef (StoredBlock 0) 2)).
Proof.
  split; [reflexivity|]. split.
  - rewrite (ingestion_keeps_first_or_last_row rt0 Left Any false
               [int_col "k" [7; 7; 7]%Z] (StoredBlock 0) None ∅ 3 [VInt 7] eq_refl).
    vm_compute. reflexivity.
  - rewrite (ingestion_keeps_first_or_last_row rt0 Left Any true
               [int_col "k" [7; 7; 7]%Z] (StoredBlock 0) None ∅ 3 [VInt 7] eq_refl).
    vm_compute. reflexivity.
Defined.

(** ** Ingestion into chain tables *)

Lemma insertAll_chain_length (m : HashMap) (key key' : Key) (ref : RowRef) :
  holds_chains m ->
  holds_chains (insertAll m key ref)
  /\ chain_length (insertAll m key ref) key'
     = chain_length m key' + (if bool_decide (key = key') then 1 else 0).
Proof.
  intros Hm. split; [apply insertAll_rows; exact Hm|].
  unfold insertAll, chain_length.
  destruct (m !! key) as [[off mapped]|] eqn:Hkey.
  - destruct (Hm key (off, mapped) Hkey) as [l Hl]. simpl in Hl. subst mapped.
    destruct (bool_decide_reflect (key = key')) as [<-|Hne].
    + rewrite lookup_insert_eq, Hkey. simpl. lia.
    + rewrite lookup_insert_ne by exact Hne. lia.
  - destruct (bool_decide_reflect (key = key')) as [<-|Hne].
    + rewrite lookup_insert_eq, Hkey. reflexivity.
    + rewrite lookup_insert_ne by exact Hne. lia.
Qed.

Lemma foldl_insert_row_All_length (k : Kind) (atl : bool) (key_columns : list Column)
    (stored_block : BlockPtr) (null_map : option (list bool)) (m : HashMap)
    (key : Key) (l : list nat) :
  holds_chains m ->
  holds_chains (foldl (insert_row k All atl key_columns stored_block null_map) m l)
  /\ chain_length (foldl (insert_row k All atl key_columns stored_block null_map) m l) key
     = chain_length m key + length (rows_with_key key_columns null_map key l).
Proof.
  intros Hm. induction l as [|x l [IH1 IH2]] using rev_ind.
  - simpl. split; [exact Hm | lia].
  - rewrite foldl_app. simpl. rewrite insert_row_All.
    unfold rows_with_key in *. rewrite List.filter_app, length_app. simpl.
    destruct (null_at null_map x); simpl.
    + split; [exact IH1 | rewrite IH2; lia].
    + destruct (insertAll_chain_length _ (key_at key_columns x) key
                  (mkRowRef stored_block x) IH1) as [H1 H2].
      split; [exact H1|]. rewrite H2, IH2.
      destruct (bool_decide (key_at key_columns x = key)); simpl; lia.
Qed.

(** X6: ingestion of a block into a chain table (ALL strictness) adds
    to the chain of every key one row reference per row of the block that
    carries the key under a clear null map, and nothing else: duplicates
    are kept, rows with a NULL key are left out. *)
Theorem ingestion_all_chain_length (rt : Runtime) (k : Kind) (atl : bool)
    (key_columns : list Column) (stored_block : BlockPtr)
    (null_map : option (list bool)) (m : HashMap) (rows : nat) (key : Key) :
  holds_chains m ->
  chain_length
    (insertFromBlockImplTypeCase rt k All atl m rows key_columns stored_block
       null_map).1 key
  = chain_length m key
    + length (rows_with_key key_columns null_map key (seq 0 rows)).
Proof.
  intros Hm. unfold insertFromBlockImplTypeCase. cbn [fst].
  apply foldl_insert_row_All_length. exact Hm.
Qed.

Lemma ingestion_all_chain_length_witness :
  holds_chains (∅ : HashMap)
  /\ chain_length
       (insertFromBlockImplTypeCase rt0 Inner All false ∅ 3
          [int_col "k" [1; 1; 7]%Z] (StoredBlock 0) None).1 [VInt 1]
     = chain_length ∅ [VInt 1]
       + length (rows_with_key [int_col "k" [1; 1; 7]%Z] None [VInt 1] (seq 0 3)).
Proof.
  split; [apply map_Forall_empty|].
  apply (ingestion_all_chain_length rt0 Inner false [int_col "k" [1; 1; 7]%Z]
           (StoredBlock 0) None ∅ 3 [VInt 1]).
  apply map_Forall_empty.
Defined.

Lemma extractNestedColumnsAndNullMap_null_at_witness :
  Forall (fun c => 1 < column_rows c) [nullable_key; int_col "b" [2; 3]%Z]
  /\ null_at (extractNestedColumnsAndNullMap [nullable_key; int_col "b" [2; 3]%Z]).2 1
     = key_has_null [nullable_key; int_col "b" [2; 3]%Z] 1.
Proof.
  split; [repeat constructor|].
  apply (extractNestedColumnsAndNullMap_null_at [nullable_key; int_col "b" [2; 3]%Z] 1).
  repeat constructor.
Defined.

Lemma checked_ingestion_fills_every_disjunct_witness :
  exists all_key_columns,
    materializeColumns (materializeBlock s6_right)
      (key_names_right_indexes (key_names_right (build s6_join s6_sample [] true))).1
    = Ok all_key_columns
    /\ forall d m,
         d < length (key_names_right (build s6_join s6_sample [] true)) ->
         maps (data (build s6_join s6_sample [] true)) !! d = Some m ->
         exists m',
           maps (data (addJoinedBlock rt0 (build s6_join s6_sample [] true)
                         s6_right true).2) !! d = Some m'
           /\ forall r,
                rows_in m' r
                <-> rows_in m r
                    \/ exists i,
                         i < block_rows s6_right
                         /\ null_at
                              (disjunct_keys
                                 (key_names_right_indexes
                                    (key_names_right (build s6_join s6_sample [] true))).2
                                 all_key_columns d).2 i = false
                         /\ r = mkRowRef
                                  (StoredBlock
                                     (length (blocks (data (build s6_join s6_sample
                                                              [] true))))) i.
Proof.
  apply (checked_ingestion_fills_every_disjunct rt0 (build s6_join s6_sample [] true)
           s6_right).
  - vm_compute. reflexivity.
  - vm_compute. discriminate.
  - vm_compute. reflexivity.
  - replace (maps (data (build s6_join s6_sample [] true))) with [(∅ : HashMap); ∅]
      by (vm_compute; reflexivity).
    repeat constructor; apply map_Forall_empty.
  - vm_compute. reflexivity.
Defined.

(** ** Row references point into the right storage *)

Lemma refs_below_mono (n n' : nat) (m : HashMap) :
  n <= n' -> refs_below n m -> refs_below n' m.
Proof.
  intros Hle Hm key v Hv. specialize (Hm key v Hv). simpl in *.
  eapply Forall_impl; [exact Hm|]. intros r (b & Hb & Hlt). exists b. split; [exact Hb | lia].
Qed.

Lemma insert_row_refs_below (n b : nat) (k : Kind) (s : Strictness) (atl : bool)
    (key_columns : list Column) (null_map : option (list bool)) (m : HashMap) (i : nat) :
  b < n ->
  refs_below n m ->
  refs_below n (insert_row k s atl key_columns (StoredBlock b) null_map m i).
Proof.
  intros Hb Hm. unfold insert_row.
  assert (Hnew : exists b', rr_block (mkRowRef (StoredBlock b) i) = StoredBlock b' /\ b' < n)
    by (exists b; split; [reflexivity | exact Hb]).
  destruct (null_at null_map i); [exact Hm|].
  destruct (bool_decide (s = Asof)).
  { destruct (last key_columns) as [asof_column|]; [|exact Hm].
    unfold insertAsof.
    match goal with |- context [m !! ?key] => destruct (m !! key) as [[off old]|] eqn:Hold end.
    - destruct old as [r|l|a]; try exact Hm.
      apply map_Forall_insert_2; [|exact Hm]. simpl.
      unfold AsofRowRefs_insert. rewrite fmap_app. apply Forall_app. split.
      + exact (Hm _ _ Hold).
      + repeat constructor. exact Hnew.
    - apply map_Forall_insert_2; [|exact Hm]. repeat constructor. exact Hnew. }
  destruct (MapGetter_Map k s).
  - unfold insertOne.
    match goal with |- context [m !! ?key] => destruct (m !! key) as [[off old]|] eqn:Hold end.
    + destruct atl; [|exact Hm].
      apply map_Forall_insert_2; [|exact Hm]. repeat constructor. exact Hnew.
    + apply map_Forall_insert_2; [|exact Hm]. repeat constructor. exact Hnew.
  - unfold insertAll.
    match goal with |- context [m !! ?key] => destruct (m !! key) as [[off old]|] eqn:Hold end.
    + destruct old as [r|l|a]; try exact Hm.
      apply map_Forall_insert_2; [|exact Hm]. simpl.
      pose proof (Hm _ _ Hold) as Hl. simpl in Hl.
      inversion Hl as [|? ? Hhead Hnext]; subst.
      constructor; [exact Hhead|]. constructor; [exact Hnew | exact Hnext].
    + apply map_Forall_insert_2; [|exact Hm]. repeat constructor. exact Hnew.
  - unfold insertAll.
    match goal with |- context [m !! ?key] => destruct (m !! key) as [[off old]|] eqn:Hold end.
    + destruct old as [r|l|a]; try exact Hm.
      apply map_Forall_insert_2; [|exact Hm]. simpl.
      pose proof (Hm _ _ Hold) as Hl. simpl in Hl.
      inversion Hl as [|? ? Hhead Hnext]; subst.
      constructor; [exact Hhead|]. constructor; [exact Hnew | exact Hnext].
    + apply map_Forall_insert_2; [|exact Hm]. repeat constructor. exact Hnew.
Qed.

Lemma insertFromBlockImpl_refs_below (rt : Runtime) (n b : nat) (k : Kind)
    (s : Strictness) (atl : bool) (t : Type_) (m : HashMap) (rows : nat)
    (key_columns : list Column) (null_map : option (list bool)) :
  b < n ->
  refs_below n m ->
  refs_below n
    (insertFromBlockImpl rt k s atl t m rows key_columns (StoredBlock b) null_map).1.
Proof.
  intros Hb Hm.
  assert (Hfold : forall l,
             refs_below n
               (foldl (insert_row k s atl key_columns (StoredBlock b) null_map) m l)).
  { intros l. induction l as [|x l IH] using rev_ind; [exact Hm|].
    rewrite foldl_app. simpl. apply insert_row_refs_below; assumption. }
  destruct t; simpl; try exact Hm; apply Hfold.
Qed.

Lemma addJoinedBlock_insert_refs_below (rt : Runtime) (n b : nat) (hj : HashJoin)
    (d rows : nat) (key_columns : list Column) (null_map : option (list bool)) :
  b < n ->
  Forall (refs_below n) (maps (data hj)) ->
  Forall (refs_below n)
    (maps (data (addJoinedBlock_insert rt hj d rows key_columns (StoredBlock b) null_map))).
Proof.
  intros Hb Hm. unfold addJoinedBlock_insert.
  destruct (bool_decide (kind hj = Cross)); [exact Hm|].
  destruct (joinDispatch_matches (kind hj) (strictness hj)); [|exact Hm].
  destruct (maps (data hj) !! d) as [m|] eqn:Hd; [|exact Hm].
  pose proof (insertFromBlockImpl_refs_below rt n b (kind hj) (strictness hj)
                (any_take_last_row hj) (type (data hj)) m rows key_columns null_map Hb)
    as Hins.
  destruct (insertFromBlockImpl rt _ _ _ _ _ _ _ _ _) as [m' size]. simpl in *.
  apply Forall_insert; [exact Hm|]. apply Hins.
  rewrite Forall_lookup in Hm. eapply Hm. exact Hd.
Qed.

Lemma addJoinedBlock_disjuncts_refs_below (rt : Runtime) (n b : nat) (ds : list nat) :
  forall indexes all_key_columns rows check_limits hj save tr tb,
    b < n ->
    Forall (refs_below n) (maps (data hj)) ->
    match addJoinedBlock_disjuncts rt ds indexes all_key_columns rows (StoredBlock b)
            check_limits hj save tr tb with
    | LoopDone hj' _ _ _ | LoopReturn hj' _ | LoopThrow hj' _ =>
        Forall (refs_below n) (maps (data hj'))
    end.
Proof.
  induction ds as [|d ds IH];
    intros indexes all_key_columns rows check_limits hj save tr tb Hb Hm; simpl.
  - exact Hm.
  - destruct (extractNestedColumnsAndNullMap _) as [key_columns null_map].
    destruct (storage_join_lock hj); [exact Hm|].
    pose proof (addJoinedBlock_insert_refs_below rt n b hj d rows key_columns null_map
                  Hb Hm) as Hins.
    destruct check_limits; simpl; [|exact Hins].
    apply IH; assumption.
Qed.

Lemma addJoinedBlock_refs_in_storage (rt : Runtime) (hj : HashJoin) (source_block : Block)
    (check_limits : bool) :
  refs_in_storage hj ->
  refs_in_storage (addJoinedBlock rt hj source_block check_limits).2.
Proof.
  unfold refs_in_storage. intros Hrefs.
  pose proof (addJoinedBlock_storage rt hj source_block check_limits) as (_ & _ & Hstore).
  cbv zeta in Hstore. revert Hstore. unfold addJoinedBlock.
  destruct (HashJoin_empty hj); [intros _; exact Hrefs|].
  destruct (overDictionary hj); [intros _; exact Hrefs|].
  destruct (u32_max <? N.of_nat (block_rows source_block))%N; [intros _; exact Hrefs|].
  destruct (key_names_right_indexes (key_names_right hj))
    as [all_key_names_right indexes].
  destruct (materializeColumns _ _) as [all_key_columns|e]; [|intros _; exact Hrefs].
  destruct (structureRightBlock hj _) as [structured_block|e]; [|intros _; exact Hrefs].
  cbv zeta.
  assert (Hgrown : Forall (refs_below (S (length (blocks (data hj))))) (maps (data hj))).
  { eapply Forall_impl; [exact Hrefs|]. intros m. apply refs_below_mono. lia. }
  match goal with
  | |- context [addJoinedBlock_disjuncts rt ?ds ?i ?a ?r (StoredBlock ?b) ?cl ?h ?s ?x ?y] =>
      pose proof (addJoinedBlock_disjuncts_refs_below rt (S (length (blocks (data hj))))
                    b ds i a r cl h s x y (Nat.lt_succ_diag_r _) Hgrown) as Hloop;
      pose proof (addJoinedBlock_disjuncts_preserves rt ds i a r (StoredBlock b) cl h s x y)
        as Hpres;
      destruct (addJoinedBlock_disjuncts rt ds i a r (StoredBlock b) cl h s x y)
        as [hj1 save_a_nullmap total_rows total_bytes | hj1 ret | hj1 err]
  end; cbn [snd]; intros _.
  - destruct Hpres as [_ [_ Hb]]. simpl in Hb.
    assert (Hhj1 : Forall (refs_below (length (blocks (data hj1)))) (maps (data hj1))).
    { rewrite Hb, length_app. simpl. rewrite Nat.add_1_r. exact Hloop. }
    destruct save_a_nullmap; [|exact Hhj1].
    unfold save_nullmap_of.
    destruct (extractNestedColumnsAndNullMap all_key_columns) as [? ?]. exact Hhj1.
  - destruct Hpres as (_ & [_ Hb] & _). simpl in Hb.
    rewrite Hb, length_app. simpl. rewrite Nat.add_1_r. exact Hloop.
  - destruct Hpres as (_ & [_ Hb] & _). simpl in Hb.
    rewrite Hb, length_app. simpl. rewrite Nat.add_1_r. exact Hloop.
Qed.

(** X9: on every instance construction and ingestion produce, each row
    reference held by a table (a single reference, a chain or an ASOF
    structure) points at a block of the right storage: ingestion stores the
    block before it inserts references to it, and the storage only grows. *)
Theorem ingested_refs_in_storage (rt : Runtime) (hj : HashJoin) (n : nat) :
  ingested rt hj n -> refs_in_storage hj.
Proof.
  induction 1 as [tj sample atl hj Hctor | hj n block check_limits Hing IH].
  - unfold HashJoin_ctor in Hctor.
    destruct (if 1 <? length (keyNamesRight tj) then _ else _) as [keys to_add].
    destruct (if 1 <? length (keyNamesRight tj) then Ok _ else _)
      as [[required sources]|e0]; simpl in Hctor; [|discriminate].
    destruct (ctor_disjuncts tj keys (keyNamesRight tj) EMPTY) as [[jm sizes]|e];
      simpl in Hctor; [|discriminate].
    injection Hctor as <-. unfold refs_in_storage. simpl.
    apply Forall_replicate. intros key v Hv. rewrite lookup_empty in Hv. discriminate.
  - apply addJoinedBlock_refs_in_storage. exact IH.
Qed.

Lemma ingested_refs_in_storage_witness :
  refs_in_storage (build (kv_join Inner All) kv_sample [kv_right_dup] true).
Proof.
  apply (ingested_refs_in_storage rt0 _
           (if bool_decide
                 (length (blocks (data (addJoinedBlock rt0
                    (build (kv_join Inner All) kv_sample [] true) kv_right_dup true).2))
                  = length (blocks (data (build (kv_join Inner All) kv_sample [] true))))
            then 0 else 0 + block_rows kv_right_dup)).
  change (build (kv_join Inner All) kv_sample [kv_right_dup] true)
    with (addJoinedBlock rt0 (build (kv_join Inner All) kv_sample [] true)
            kv_right_dup true).2.
  apply ingested_add.
  apply (ingested_new rt0 (kv_join Inner All) kv_sample false).
  vm_compute. reflexivity.
Defined.

(** ** The key columns of a disjunct *)

Lemma index_of_lookup (name : string) (l : list string) :
  forall pos p, index_of name l pos = Some p -> pos <= p /\ l !! (p - pos) = Some name.
Proof.
  induction l as [|n l IH]; intros pos p; simpl; [discriminate|].
  destruct (bool_decide_reflect (n = name)) as [->|Hne].
  - intros [= <-]. rewrite Nat.sub_diag. split; [lia | reflexivity].
  - intros Hp. destruct (IH _ _ Hp) as [Hle Hl]. split; [lia|].
    replace (p - pos) with (S (p - S pos)) by lia. exact Hl.
Qed.

Lemma key_indexes_of_names (names : list string) :
  forall all,
    exists extra,
      (key_indexes_of names all).2 = all ++ extra
      /\ Forall2 (fun i n => (all ++ extra) !! i = Some n) (key_indexes_of names all).1 names.
Proof.
  induction names as [|n names IH]; intros all; simpl.
  - exists []. rewrite app_nil_r. split; [reflexivity | constructor].
  - destruct (index_of n all 0) as [p|] eqn:Hp.
    + destruct (IH all) as (extra & Hall & Hidx).
      destruct (key_indexes_of names all) as [idx all']. simpl in *.
      exists extra. split; [exact Hall|]. constructor; [|exact Hidx].
      apply index_of_lookup in Hp as [_ Hp]. rewrite Nat.sub_0_r in Hp.
      apply lookup_app_l_Some. exact Hp.
    + destruct (IH (all ++ [n])) as (extra & Hall & Hidx).
      destruct (key_indexes_of names (all ++ [n])) as [idx all']. simpl in *.
      exists ([n] ++ extra). rewrite app_assoc. split; [exact Hall|].
      constructor; [|exact Hidx].
      rewrite <- app_assoc. rewrite lookup_app_r by lia.
      rewrite Nat.sub_diag. reflexivity.
Qed.

Lemma key_indexes_from_names (disjuncts : list (list string)) :
  forall all,
    exists extra,
      (key_indexes_from disjuncts all).2 = all ++ extra
      /\ Forall2 (fun idx names =>
                    Forall2 (fun i n => (all ++ extra) !! i = Some n) idx names)
           (key_indexes_from disjuncts all).1 disjuncts.
Proof.
  induction disjuncts as [|names rest IH]; intros all; simpl.
  - exists []. rewrite app_nil_r. split; [reflexivity | constructor].
  - destruct (key_indexes_of_names names all) as (extra1 & Hall1 & Hidx1).
    destruct (key_indexes_of names all) as [idx all1]. simpl in *. subst all1.
    destruct (IH (all ++ extra1)) as (extra2 & Hall2 & Hidx2).
    destruct (key_indexes_from rest (all ++ extra1)) as [idxs all2]. simpl in *.
    exists (extra1 ++ extra2). rewrite app_assoc. split; [exact Hall2|].
    constructor; [|exact Hidx2].
    eapply Forall2_impl; [exact Hidx1|]. intros i n Hi. simpl in Hi.
    apply lookup_app_l_Some. exact Hi.
Qed.

Lemma key_names_right_indexes_names (key_names_right : list (list string))
    (d : nat) (names : list string) :
  key_names_right !! d = Some names ->
  exists idx,
    (key_names_right_indexes key_names_right).2 !! d = Some idx
    /\ Forall2 (fun i n => (key_names_right_indexes key_names_right).1 !! i = Some n)
         idx names.
Proof.
  unfold key_names_right_indexes.
  destruct key_names_right as [|first rest]; [discriminate|]. simpl.
  destruct (key_indexes_from_names rest first) as (extra & Hall & Hidx).
  destruct (key_indexes_from rest first) as [idxs all]. simpl in *. subst all.
  destruct d as [|d]; simpl.
  - intros [= <-]. exists (seq 0 (length first)). split; [reflexivity|].
    clear. apply Forall2_same_length_lookup. split; [apply length_seq|].
    intros i x y Hx Hy. apply lookup_seq in Hx as [-> Hlt]. simpl.
    apply lookup_app_l_Some. exact Hy.
  - intros Hd.
    destruct (Forall2_lookup_r _ _ _ _ _ Hidx Hd) as (idx & Hi & Hnames).
    exists idx. split; assumption.
Qed.

(** X22: the key columns the loop of addJoinedBlock takes for disjunct d
    through key_names_right_indexes are the materialized columns named by
    key_names_right[d], in order: the shared vector of key columns and the
    per-disjunct positions address the same columns as a lookup by name
    would. *)
Theorem disjunct_key_columns_by_name (hj : HashJoin) (block : Block)
    (all_key_columns : list Column) (d : nat) (names : list string) :
  materializeColumns block (key_names_right_indexes (key_names_right hj)).1
  = Ok all_key_columns ->
  key_names_right hj !! d = Some names ->
  materializeColumns block names
  = Ok (omap (fun ind => all_key_columns !! ind)
          (default [] ((key_names_right_indexes (key_names_right hj)).2 !! d))).
Proof.
  intros Hall Hd.
  destruct (key_names_right_indexes_names _ _ _ Hd) as (idx & -> & Hidx). simpl.
  clear Hd. unfold materializeColumns in *.
  induction Hidx as [|i n idx names Hi _ IH]; [reflexivity|].
  simpl. destruct (omapM_lookup _ _ _ _ _ Hall Hi) as (c & Hc & Hf).
  rewrite Hf, IH, Hc. reflexivity.
Qed.

Lemma disjunct_key_columns_by_name_witness :
  materializeColumns s6_right
    (key_names_right_indexes (key_names_right (build s6_join s6_sample [] true))).1
  = Ok [int_col "a" [1; 3]%Z; int_col "b" [2; 2]%Z]
  /\ materializeColumns s6_right ["b"]%string
     = Ok (omap (fun ind => [int_col "a" [1; 3]%Z; int_col "b" [2; 2]%Z] !! ind)
             (default []
                ((key_names_right_indexes
                    (key_names_right (build s6_join s6_sample [] true))).2 !! 1))).
Proof.
  split; [vm_compute; reflexivity|].
  apply (disjunct_key_columns_by_name (build s6_join s6_sample [] true) s6_right
           [int_col "a" [1; 3]%Z; int_col "b" [2; 2]%Z] 1 ["b"]%string).
  - vm_compute. reflexivity.
  - vm_compute. reflexivity.
Defined.

(** ** The stored blocks follow the saved sample *)

Lemma structureRightBlock_names (hj : HashJoin) (block structured : Block) :
  structureRightBlock hj block = Ok structured ->
  map col_name structured = map col_name (sample_block (data hj)).
Proof.
  unfold structureRightBlock. generalize (sample_block (data hj)) as sample.
  intros sample. revert structured.
  induction sample as [|s sample IH]; intros structured; simpl.
  - intros [= <-]. reflexivity.
  - destruct (getByName block (col_name s)) as [c|e] eqn:Hc; simpl; [|discriminate].
    destruct (omapM _ sample) as [rest|e]; simpl; [|discriminate].
    intros [= <-]. simpl. f_equal; [|apply IH; reflexivity].
    unfold getByName, findByName in Hc.
    destruct (List.find _ block) as [c'|] eqn:Hfind; [|discriminate Hc].
    injection Hc as <-. apply find_some in Hfind as [_ Hname].
    apply bool_decide_eq_true in Hname.
    destruct (col_nullable s); exact Hname.
Qed.

Lemma addJoinedBlock_insert_sample (rt : Runtime) (hj : HashJoin) (d rows : nat)
    (key_columns : list Column) (stored_block : BlockPtr)
    (null_map : option (list bool)) :
  sample_block (data (addJoinedBlock_insert rt hj d rows key_columns stored_block null_map))
  = sample_block (data hj).
Proof.
  unfold addJoinedBlock_insert.
  destruct (bool_decide (kind hj = Cross)); [reflexivity|].
  destruct (joinDispatch_matches (kind hj) (strictness hj)); [|reflexivity].
  destruct (maps (data hj) !! d) as [m|]; [|reflexivity].
  destruct (insertFromBlockImpl rt _ _ _ _ _ _ _ _ _) as [m' size]. reflexivity.
Qed.

Lemma addJoinedBlock_disjuncts_sample (rt : Runtime) (ds : list nat) :
  forall indexes all_key_columns rows stored_block check_limits hj save tr tb,
    match addJoinedBlock_disjuncts rt ds indexes all_key_columns rows stored_block
            check_limits hj save tr tb with
    | LoopDone hj' _ _ _ | LoopReturn hj' _ | LoopThrow hj' _ =>
        sample_block (data hj') = sample_block (data hj)
    end.
Proof.
  induction ds as [|d ds IH];
    intros indexes all_key_columns rows stored_block check_limits hj save tr tb; simpl.
  - reflexivity.
  - destruct (extractNestedColumnsAndNullMap _) as [key_columns null_map].
    destruct (storage_join_lock hj); [reflexivity|].
    pose proof (addJoinedBlock_insert_sample rt hj d rows key_columns stored_block
                  null_map) as Hins.
    destruct check_limits; simpl; [|exact Hins].
    match goal with
    | |- context [addJoinedBlock_disjuncts rt ds ?i ?a ?r ?sb ?cl ?h ?s ?x ?y] =>
        specialize (IH i a r sb cl h s x y);
        destruct (addJoinedBlock_disjuncts rt ds i a r sb cl h s x y)
    end; congruence.
Qed.

Lemma addJoinedBlock_structured (rt : Runtime) (hj : HashJoin) (source_block : Block)
    (check_limits : bool) :
  blocks_structured hj ->
  blocks_structured (addJoinedBlock rt hj source_block check_limits).2.
Proof.
  unfold blocks_structured. intros Hold. unfold addJoinedBlock.
  destruct (HashJoin_empty hj); [exact Hold|].
  destruct (overDictionary hj); [exact Hold|].
  destruct (u32_max <? N.of_nat (block_rows source_block))%N; [exact Hold|].
  destruct (key_names_right_indexes (key_names_right hj))
    as [all_key_names_right indexes].
  destruct (materializeColumns _ _) as [all_key_columns|e]; [|exact Hold].
  destruct (structureRightBlock hj _) as [structured_block|e] eqn:Hs; [|exact Hold].
  apply structureRightBlock_names in Hs.
  cbv zeta.
  set (stored := if nullable_right_side hj && (1 <? length (key_names_right hj))
                 then convertColumnsToNullable structured_block else structured_block).
  assert (Hstored : map col_name stored = map col_name (sample_block (data hj))).
  { subst stored. destruct (_ && _); [|exact Hs].
    unfold convertColumnsToNullable. rewrite map_map. exact Hs. }
  match goal with
  | |- context [addJoinedBlock_disjuncts rt ?ds ?i ?a ?r ?sb ?cl ?h ?s ?x ?y] =>
      pose proof (addJoinedBlock_disjuncts_sample rt ds i a r sb cl h s x y) as Hsample;
      pose proof (addJoinedBlock_disjuncts_preserves rt ds i a r sb cl h s x y) as Hpres;
      destruct (addJoinedBlock_disjuncts rt ds i a r sb cl h s x y)
        as [hj1 save_a_nullmap total_rows total_bytes | hj1 ret | hj1 err]
  end; cbn [snd].
  - destruct Hpres as [_ [_ Hb]]. simpl in Hb, Hsample.
    assert (Hhj1 : Forall (fun b : Block =>
                             map col_name b = map col_name (sample_block (data hj1)))
                     (blocks (data hj1))).
    { rewrite Hb, Hsample. apply Forall_app. split; [exact Hold|].
      constructor; [exact Hstored | constructor]. }
    destruct save_a_nullmap; [|exact Hhj1].
    unfold save_nullmap_of.
    destruct (extractNestedColumnsAndNullMap all_key_columns) as [? ?]. exact Hhj1.
  - destruct Hpres as (_ & [_ Hb] & _). simpl in Hb, Hsample.
    rewrite Hb, Hsample. apply Forall_app. split; [exact Hold|].
    constructor; [exact Hstored | constructor].
  - destruct Hpres as (_ & [_ Hb] & _). simpl in Hb, Hsample.
    rewrite Hb, Hsample. apply Forall_app. split; [exact Hold|].
    constructor; [exact Hstored | constructor].
Qed.

(** X23: on every instance construction and ingestion produce, each block
    of the right storage carries exactly the columns of the saved sample
    block, under the same names and in the same order, so the positions the
    probe and the non-joined stream compute from the sample address the same
    column in every stored block. *)
Theorem ingested_blocks_structured (rt : Runtime) (hj : HashJoin) (n : nat) :
  ingested rt hj n -> blocks_structured hj.
Proof.
  induction 1 as [tj sample atl hj Hctor | hj n block check_limits Hing IH].
  - unfold HashJoin_ctor in Hctor.
    destruct (if 1 <? length (keyNamesRight tj) then _ else _) as [keys to_add].
    destruct (if 1 <? length (keyNamesRight tj) then Ok _ else _)
      as [[required sources]|e0]; simpl in Hctor; [|discriminate].
    destruct (ctor_disjuncts tj keys (keyNamesRight tj) EMPTY) as [[jm sizes]|e];
      simpl in Hctor; [|discriminate].
    injection Hctor as <-. constructor.
  - apply addJoinedBlock_structured. exact IH.
Qed.

Lemma ingested_blocks_structured_witness :
  blocks_structured (build (kv_join Inner All) kv_sample [kv_right_dup] true).
Proof.
  apply (ingested_blocks_structured rt0 _
           (if bool_decide
                 (length (blocks (data (addJoinedBlock rt0
                    (build (kv_join Inner All) kv_sample [] true) kv_right_dup true).2))
                  = length (blocks (data (build (kv_join Inner All) kv_sample [] true))))
            then 0 else 0 + block_rows kv_right_dup)).
  change (build (kv_join Inner All) kv_sample [kv_right_dup] true)
    with (addJoinedBlock rt0 (build (kv_join Inner All) kv_sample [] true)
            kv_right_dup true).2.
  apply ingested_add.
  apply (ingested_new rt0 (kv_join Inner All) kv_sample false).
  vm_compute. reflexivity.
Defined.

(** ** Size limits of ingestion *)

Lemma SizeLimits_check_nothing (l : SizeLimits) (code : ErrorCode) :
  SizeLimits_check l 0 0 code = Ok true.
Proof.
  unfold SizeLimits_check.
  replace (max_rows l <? 0) with false by (symmetry; apply Nat.ltb_ge; lia).
  replace (max_bytes l <? 0) with false by (symmetry; apply Nat.ltb_ge; lia).
  rewrite !andb_false_r. reflexivity.
Qed.

(** X24: addJoinedBlock consults the size limits only when check_limits is
    set and the loop over the disjuncts ran to its end: it returns false or
    throws SetSizeLimitExceeded only with check_limits set and a limit
    configured, false only under overflow mode BREAK and the exception only
    under THROW. *)
Theorem addJoinedBlock_limits (rt : Runtime) (hj : HashJoin) (source_block : Block)
    (check_limits : bool) :
  ((addJoinedBlock rt hj source_block check_limits).1 = Ok false
   \/ (addJoinedBlock rt hj source_block check_limits).1 = Throw SET_SIZE_LIMIT_EXCEEDED ->
   check_limits = true
   /\ (max_rows (sizeLimits (table_join hj)) <> 0
       \/ max_bytes (sizeLimits (table_join hj)) <> 0))
  /\ ((addJoinedBlock rt hj source_block check_limits).1 = Ok false ->
      overflow_mode (sizeLimits (table_join hj)) = BREAK)
  /\ ((addJoinedBlock rt hj source_block check_limits).1 = Throw SET_SIZE_LIMIT_EXCEEDED ->
      overflow_mode (sizeLimits (table_join hj)) = THROW).
Proof.
  assert (Hcheck : forall rows bytes,
    (SizeLimits_check (sizeLimits (table_join hj)) rows bytes SET_SIZE_LIMIT_EXCEEDED
       = Ok false
     \/ SizeLimits_check (sizeLimits (table_join hj)) rows bytes SET_SIZE_LIMIT_EXCEEDED
        = Throw SET_SIZE_LIMIT_EXCEEDED ->
     max_rows (sizeLimits (table_join hj)) <> 0
     \/ max_bytes (sizeLimits (table_join hj)) <> 0)
    /\ (SizeLimits_check (sizeLimits (table_join hj)) rows bytes SET_SIZE_LIMIT_EXCEEDED
        = Ok false -> overflow_mode (sizeLimits (table_join hj)) = BREAK)
    /\ (SizeLimits_check (sizeLimits (table_join hj)) rows bytes SET_SIZE_LIMIT_EXCEEDED
        = Throw SET_SIZE_LIMIT_EXCEEDED ->
        overflow_mode (sizeLimits (table_join hj)) = THROW)).
  { intros rows bytes. unfold SizeLimits_check.
    destruct (_ || _) eqn:Hcond.
    - assert (Hset : max_rows (sizeLimits (table_join hj)) <> 0
                     \/ max_bytes (sizeLimits (table_join hj)) <> 0).
      { destruct (max_rows (sizeLimits (table_join hj))) as [|mr]; [|left; discriminate].
        destruct (max_bytes (sizeLimits (table_join hj))) as [|mb]; [|right; discriminate].
        discriminate Hcond. }
      destruct (overflow_mode (sizeLimits (table_join hj)));
        (split; [intros _; exact Hset | split; congruence]).
    - split; [intros [H|H]; discriminate H | split; discriminate]. }
  assert (Hnone : forall (o : Outcome bool),
    o <> Ok false -> o <> Throw SET_SIZE_LIMIT_EXCEEDED ->
    ((o = Ok false \/ o = Throw SET_SIZE_LIMIT_EXCEEDED) ->
     check_limits = true
     /\ (max_rows (sizeLimits (table_join hj)) <> 0
         \/ max_bytes (sizeLimits (table_join hj)) <> 0))
    /\ (o = Ok false -> overflow_mode (sizeLimits (table_join hj)) = BREAK)
    /\ (o = Throw SET_SIZE_LIMIT_EXCEEDED ->
        overflow_mode (sizeLimits (table_join hj)) = THROW)).
  { intros o H1 H2. split; [intros [H|H]; contradiction|].
    split; intros H; contradiction. }
  unfold addJoinedBlock.
  destruct (HashJoin_empty hj); [apply Hnone; discriminate|].
  destruct (overDictionary hj); [apply Hnone; discriminate|].
  destruct (u32_max <? N.of_nat (block_rows source_block))%N; [apply Hnone; discriminate|].
  destruct (key_names_right_indexes (key_names_right hj))
    as [all_key_names_right indexes].
  destruct (materializeColumns _ _) as [all_key_columns|e] eqn:Hm.
  2:{ apply materializeColumns_throws in Hm. subst e. apply Hnone; discriminate. }
  destruct (structureRightBlock hj _) as [structured_block|e] eqn:Hs.
  2:{ apply structureRightBlock_throws in Hs. subst e. apply Hnone; discriminate. }
  cbv zeta.
  destruct (key_names_right hj) as [|names rest] eqn:Hnames.
  - simpl. rewrite SizeLimits_check_nothing. apply Hnone; discriminate.
  - match goal with
    | |- context [addJoinedBlock_disjuncts rt ?ds ?i ?a ?r ?sb ?cl ?h ?s ?x ?y] =>
        pose proof (addJoinedBlock_disjuncts_preserves rt ds i a r sb cl h s x y) as Hpres;
        destruct (addJoinedBlock_disjuncts rt ds i a r sb cl h s x y)
          as [hj1 save_a_nullmap total_rows total_bytes | hj1 ret | hj1 err] eqn:Hloop
    end; cbn [fst].
    + destruct (Hcheck total_rows total_bytes) as (H1 & H2 & H3).
      split; [|split; assumption].
      intros H. split; [|apply H1; exact H].
      destruct check_limits; [reflexivity|]. exfalso.
      cbn [length seq addJoinedBlock_disjuncts] in Hloop.
      destruct (extractNestedColumnsAndNullMap _) as [key_columns null_map] in Hloop.
      destruct (storage_join_lock _) in Hloop; discriminate Hloop.
    + destruct Hpres as (_ & _ & ->). apply Hnone; discriminate.
    + destruct Hpres as (_ & _ & ->). apply Hnone; discriminate.
Qed.

(** ** ASOF instances *)

Lemma extractKeysForJoin_length (block_keys : Block) (names : list string)
    (key_columns : list Column) :
  extractKeysForJoin block_keys names = Ok key_columns ->
  length key_columns = length names.
Proof. apply omapM_length. Qed.

Lemma ctor_disjuncts_asof (tj : TableJoin) (right_table_keys : Block)
    (disjuncts : list (list string)) :
  tj_strictness tj = Asof ->
  dictionary_reader tj = None ->
  forall join_method r,
    ctor_disjuncts tj right_table_keys disjuncts join_method = Ok r ->
    Forall (fun names => 2 <= length names) disjuncts
    /\ (disjuncts <> [] -> tj_kind tj = Left \/ tj_kind tj = Inner).
Proof.
  intros Hasof Hreader.
  induction disjuncts as [|names rest IH]; intros join_method r; simpl.
  - intros _. split; [constructor | congruence].
  - destruct (extractKeysForJoin right_table_keys names) as [key_columns|e] eqn:Hkeys;
      simpl; [|discriminate].
    apply extractKeysForJoin_length in Hkeys.
    rewrite Hreader, Hasof. rewrite bool_decide_eq_true_2 by reflexivity.
    unfold isLeft, isInner.
    destruct (bool_decide_reflect (tj_kind tj = Left)) as [Hl|Hl];
      destruct (bool_decide_reflect (tj_kind tj = Inner)) as [Hi|Hi];
      cbn [negb andb]; try discriminate;
      (destruct (Nat.leb_spec (length key_columns) 1) as [Hfew|Hmany];
       [discriminate|];
       destruct (getByName _ _) as [asof_column|e]; simpl; [|discriminate];
       destruct (col_nullable asof_column); simpl; [discriminate|];
       destruct (chooseMethod _ _) as [chosen sizes];
       destruct chosen as [current|e]; simpl; [|discriminate];
       match goal with
       | |- context [ctor_disjuncts tj right_table_keys rest ?jm] =>
           destruct (ctor_disjuncts tj right_table_keys rest jm) as [r'|e] eqn:Hrest
       end; simpl; [|discriminate];
       intros _; destruct (IH _ _ Hrest) as [Hall _];
       split; [constructor; [lia | exact Hall] | intros _; tauto]).
Qed.

(** X25: an ASOF instance the constructor returns without a dictionary
    reader has at least two key columns in every disjunct (an equi-join key
    besides the ASOF column) and, when it has a disjunct, is of kind Left or
    Inner: the constructor throws for every other ASOF configuration. *)
Theorem HashJoin_ctor_asof (tj : TableJoin) (right_sample_block : Block)
    (any_take_last_row_ : bool) (hj : HashJoin) :
  HashJoin_ctor tj right_sample_block any_take_last_row_ = Ok hj ->
  tj_strictness tj = Asof ->
  dictionary_reader tj = None ->
  Forall (fun names => 2 <= length names) (key_names_right hj)
  /\ (key_names_right hj <> [] -> kind hj = Left \/ kind hj = Inner).
Proof.
  unfold HashJoin_ctor.
  destruct (if 1 <? length (keyNamesRight tj) then _ else _) as [keys to_add].
  destruct (if 1 <? length (keyNamesRight tj) then Ok _ else _)
    as [[required sources]|e0]; simpl; [|discriminate].
  destruct (ctor_disjuncts tj keys (keyNamesRight tj) EMPTY) as [[jm sizes]|e] eqn:Hctor;
    simpl; [|discriminate].
  intros [= <-] Hasof Hreader. simpl.
  exact (ctor_disjuncts_asof tj keys (keyNamesRight tj) Hasof Hreader _ _ Hctor).
Qed.

Lemma HashJoin_ctor_asof_witness :
  HashJoin_ctor (asof_join Left) asof_sample false
  = Ok (build (asof_join Left) asof_sample [] false)
  /\ Forall (fun names => 2 <= length names)
       (key_names_right (build (asof_join Left) asof_sample [] false))
  /\ (key_names_right (build (asof_join Left) asof_sample [] false) <> [] ->
      kind (build (asof_join Left) asof_sample [] false) = Left
      \/ kind (build (asof_join Left) asof_sample [] false) = Inner).
Proof.
  split; [vm_compute; reflexivity|].
  apply (HashJoin_ctor_asof (asof_join Left) asof_sample false
           (build (asof_join Left) asof_sample [] false)).
  - vm_compute. reflexivity.
  - reflexivity.
  - reflexivity.
Defined.

(** ** KnownRowsHolder *)

Lemma KnownRowsHolder_add_holds (new all : list BlockPtr) (kr : KnownRowsHolder) :
  KnownRowsHolder_holds kr all ->
  KnownRowsHolder_holds (KnownRowsHolder_add new kr) (all ++ new).
Proof.
  intros (Hitems & Hlin & Hlog). unfold KnownRowsHolder_add, KnownRowsHolder_holds.
  destruct (Nat.leb_spec (items kr + length new) MAX_LINEAR) as [Hfit|Hover]; simpl.
  - split; [rewrite length_app; lia|]. split; [|lia].
    intros _. rewrite Hlin by lia.
    apply take_ge. rewrite length_app. lia.
  - split; [rewrite length_app; lia|]. split; [lia|].
    intros _ p. rewrite elem_of_union, elem_of_list_to_set, elem_of_app.
    destruct (Nat.leb_spec (items kr) MAX_LINEAR) as [Hlinear|Hset].
    + rewrite elem_of_list_to_set, Hlin by exact Hlinear. reflexivity.
    + rewrite Hlog by exact Hset. reflexivity.
Qed.

Lemma KnownRowsHolder_after_holds (adds : list (list BlockPtr)) :
  KnownRowsHolder_holds (KnownRowsHolder_after adds) (concat adds).
Proof.
  unfold KnownRowsHolder_after.
  induction adds as [|new adds IH] using rev_ind.
  - split; [reflexivity|]. split; [reflexivity|].
    unfold MAX_LINEAR. simpl. lia.
  - rewrite foldl_app, concat_app. simpl. rewrite app_nil_r.
    apply KnownRowsHolder_add_holds. exact IH.
Qed.

(** X10: after any sequence of calls of KnownRowsHolder<true>::add,
    isKnown answers true exactly for the pointers that were added, on
    either side of the switch from the linear array to the set. *)
Theorem KnownRowsHolder_isKnown_iff (adds : list (list BlockPtr)) (ptr : BlockPtr) :
  KnownRowsHolder_isKnown ptr (KnownRowsHolder_after adds) = true
  <-> ptr ∈ concat adds.
Proof.
  destruct (KnownRowsHolder_after_holds adds) as (Hitems & Hlin & Hlog).
  unfold KnownRowsHolder_isKnown.
  destruct (Nat.leb_spec (items (KnownRowsHolder_after adds)) MAX_LINEAR) as [Hl|Hs].
  - rewrite bool_decide_eq_true, Hlin by exact Hl. reflexivity.
  - rewrite bool_decide_eq_true. apply Hlog. exact Hs.
Qed.

(** ** ALL joins: the joined block is rectangular, one row per match *)

Lemma running_totals_app (from : nat) (a b : list nat) :
  running_totals from (a ++ b)
  = running_totals from a ++ running_totals (from + sum_list a) b.
Proof.
  revert from. induction a as [|c a IH]; intros from; simpl.
  - rewrite Nat.add_0_r. reflexivity.
  - rewrite IH. do 3 f_equal. lia.
Qed.

Lemma length_running_totals (from : nat) (counts : list nat) :
  length (running_totals from counts) = length counts.
Proof.
  revert from. induction counts as [|c counts IH]; intros from; simpl;
    [reflexivity | rewrite IH; reflexivity].
Qed.

Lemma replicate_cells_running_totals {A} (cells : list A) (counts : list nat) :
  forall from,
    length cells = length counts ->
    length (replicate_cells cells (running_totals from counts) from) = sum_list counts.
Proof.
  revert cells. induction counts as [|c counts IH]; intros cells from Hlen.
  - destruct cells; [reflexivity | discriminate Hlen].
  - destruct cells as [|x cells]; [discriminate Hlen|]. simpl.
    rewrite length_app, length_replicate, IH by (simpl in Hlen; lia). lia.
Qed.

Section All.

Variable rt : Runtime.
Variable env : ProbeEnv.
Hypothesis Hall : pe_strictness env = All.

Lemma addFoundRowAll_loop_all (chain : list RowRef) :
  forall known new st,
    length (pe_right_indexes env) = length (ps_columns st) ->
    balanced (ps_current_offset st) st ->
    exists c,
      balanced (ps_current_offset st + c) (addFoundRowAll_loop env chain known new st).1
      /\ ps_current_offset (addFoundRowAll_loop env chain known new st).1
         = ps_current_offset st + c
      /\ ps_offsets_to_replicate (addFoundRowAll_loop env chain known new st).1
         = ps_offsets_to_replicate st
      /\ length (ps_columns (addFoundRowAll_loop env chain known new st).1)
         = length (ps_columns st)
      /\ (pe_multiple_disjuncts env = false -> c = length chain).
Proof.
  induction chain as [|it chain IH]; intros known new st Hlen Hbal.
  - exists 0. simpl. rewrite Nat.add_0_r. repeat split; try reflexivity. exact Hbal.
  - cbn [addFoundRowAll_loop].
    destruct (known_isKnown (pe_multiple_disjuncts env) (rr_block it) known) eqn:Hknown;
      cbn [negb].
    + destruct (IH known new st Hlen Hbal) as (c & H1 & H2 & H3 & H4 & H5).
      exists c. repeat split; try assumption.
      intros Hsingle. rewrite Hsingle in Hknown. discriminate Hknown.
    + destruct (appendFromBlock_balanced env false it (ps_current_offset st) st Hlen Hbal)
        as [Hb1 Hl1].
      match goal with
      | |- context [addFoundRowAll_loop env chain known ?new' ?st'] =>
          destruct (IH known new' st') as (c & H1 & H2 & H3 & H4 & H5)
      end.
      * simpl. rewrite length_imap. exact Hlen.
      * exact Hb1.
      * exists (S c). cbn [bump_offset ps_current_offset] in *.
        replace (ps_current_offset st + S c) with (S (ps_current_offset st) + c) by lia.
        split; [exact H1|]. split; [exact H2|]. split; [exact H3|].
        split; [rewrite H4; simpl; apply length_imap|].
        intros Hsingle. simpl. f_equal. apply H5. exact Hsingle.
Qed.

Lemma on_found_all (i offset : nat) (mapped : Mapped) (known : KnownRowsHolder)
    (st : ProbeState) :
  length (pe_right_indexes env) = length (ps_columns st) ->
  balanced (ps_current_offset st) st ->
  exists c,
    balanced (ps_current_offset st + c) (on_found rt env i offset mapped known st).1.1
    /\ ps_current_offset (on_found rt env i offset mapped known st).1.1
       = ps_current_offset st + c
    /\ ps_offsets_to_replicate (on_found rt env i offset mapped known st).1.1
       = ps_offsets_to_replicate st
    /\ length (ps_columns (on_found rt env i offset mapped known st).1.1)
       = length (ps_columns st)
    /\ (on_found rt env i offset mapped known st).2 = false
    /\ (pe_multiple_disjuncts env = false -> c = length (mapped_chain mapped)).
Proof.
  intros Hlen Hbal. unfold on_found. rewrite Hall.
  change (is_asof_join All) with false. change (is_all_join All) with true.
  cbv iota. unfold addFoundRowAll.
  set (st1 := with_flags _ (set_filter i st)).
  set (st2 := if add_missing (pe_kind env) All then applyLazyDefaults st1 else st1).
  assert (Hst2 : length (pe_right_indexes env) = length (ps_columns st2)
                 /\ balanced (ps_current_offset st2) st2
                 /\ ps_current_offset st2 = ps_current_offset st
                 /\ ps_offsets_to_replicate st2 = ps_offsets_to_replicate st).
  { subst st2. destruct (add_missing (pe_kind env) All).
    - destruct (applyLazyDefaults_balanced (ps_current_offset st) st1 Hbal)
        as (Hb & _ & Hl).
      unfold applyLazyDefaults in *. destruct (bool_decide _); simpl in *.
      + repeat split; assumption.
      + split; [rewrite length_map; exact Hlen|]. repeat split. exact Hb.
    - repeat split; assumption. }
  destruct Hst2 as (Hlen2 & Hbal2 & Hcur2 & Hoff2).
  destruct (addFoundRowAll_loop_all (mapped_chain mapped) known None st2 Hlen2 Hbal2)
    as (c & H1 & H2 & H3 & H4 & H5).
  destruct (addFoundRowAll_loop env (mapped_chain mapped) known None st2)
    as [st' new'].
  cbn [fst snd] in *. exists c. rewrite <- Hcur2.
  assert (Hl : length (ps_columns st') = length (ps_columns st)) by congruence.
  destruct new'; cbn [fst snd]; repeat split; try assumption; congruence.
Qed.

Lemma probe_disjuncts_all (i : nat) (ds : list nat) :
  forall found null known st,
    length (pe_right_indexes env) = length (ps_columns st) ->
    balanced (ps_current_offset st) st ->
    exists c,
      balanced (ps_current_offset st + c)
        (probe_disjuncts rt env i ds found null known st).1.1
      /\ ps_current_offset (probe_disjuncts rt env i ds found null known st).1.1
         = ps_current_offset st + c
      /\ ps_offsets_to_replicate (probe_disjuncts rt env i ds found null known st).1.1
         = ps_offsets_to_replicate st
      /\ length (ps_columns (probe_disjuncts rt env i ds found null known st).1.1)
         = length (ps_columns st).
Proof.
  induction ds as [|d ds IH]; intros found null known st Hlen Hbal; cbn [probe_disjuncts].
  - exists 0. rewrite Nat.add_0_r. repeat split. exact Hbal.
  - destruct (null_at _ i); [apply IH; assumption|].
    destruct (_ ≫= _) as [[offset mapped]|]; [|apply IH; assumption].
    destruct (on_found_all i offset mapped known st Hlen Hbal)
      as (c & H1 & H2 & H3 & H4 & H5 & _).
    destruct (on_found rt env i offset mapped known st) as [[st' known'] brk].
    cbn [fst snd] in *. subst brk.
    destruct (IH true null known' st') as (c' & G1 & G2 & G3 & G4);
      [congruence | rewrite H2; exact H1 |].
    exists (c + c'). rewrite Nat.add_assoc, <- H2.
    split; [exact G1|]. split; [exact G2|]. split; congruence.
Qed.

(** The single disjunct probed for left row [i]. *)
Lemma probe_single_all (i : nat) (st : ProbeState) :
  pe_multiple_disjuncts env = false ->
  length (pe_right_indexes env) = length (ps_columns st) ->
  balanced (ps_current_offset st) st ->
  exists c found,
    balanced (ps_current_offset st + c)
      (probe_disjuncts rt env i [0] false false KnownRowsHolder_init st).1.1
    /\ ps_current_offset
         (probe_disjuncts rt env i [0] false false KnownRowsHolder_init st).1.1
       = ps_current_offset st + c
    /\ (probe_disjuncts rt env i [0] false false KnownRowsHolder_init st).1.2 = found
    /\ c + (if found then 0
            else if add_missing (pe_kind env) (pe_strictness env) then 1 else 0)
       = all_rows_of env i.
Proof.
  intros Hsingle Hlen Hbal. cbn [probe_disjuncts]. unfold all_rows_of. cbv zeta.
  destruct (null_at _ i).
  { exists 0, false. rewrite Nat.add_0_r. repeat split. exact Hbal. }
  destruct (_ ≫= _) as [[offset mapped]|].
  2:{ exists 0, false. rewrite Nat.add_0_r. repeat split. exact Hbal. }
  destruct (on_found_all i offset mapped KnownRowsHolder_init st Hlen Hbal)
    as (c & H1 & H2 & H3 & H4 & H5 & H6).
  destruct (on_found rt env i offset mapped KnownRowsHolder_init st)
    as [[st' known'] brk].
  cbn [fst snd] in *. subst brk. exists c, true.
  split; [exact H1|]. split; [exact H2|]. split; [reflexivity|].
  rewrite Nat.add_0_r. apply H6. exact Hsingle.
Qed.

Lemma join_row_all (rows i : nat) (counts : list nat) (st : ProbeState) :
  length counts = i ->
  i < rows ->
  all_inv env rows counts st ->
  exists c,
    all_inv env rows (counts ++ [c]) (join_row rt env st i)
    /\ (pe_multiple_disjuncts env = false -> c = all_rows_of env i).
Proof.
  intros Hi Hrows (Hbal & Hlen & Hoffs & Htake & Hcur).
  assert (Hrecord : forall c st',
    balanced (ps_current_offset st + c) st' ->
    ps_current_offset st' = ps_current_offset st + c ->
    ps_offsets_to_replicate st' = ps_offsets_to_replicate st ->
    length (ps_columns st') = length (ps_columns st) ->
    all_inv env rows (counts ++ [c]) (record_offset i st')).
  { intros c st' B1 B2 B3 B4. unfold all_inv, record_offset. simpl.
    split; [rewrite B2; exact B1|]. split; [congruence|].
    split; [rewrite length_insert; congruence|].
    split.
    - rewrite length_app. simpl. rewrite Nat.add_1_r, Hi.
      rewrite (take_S_r _ _ (ps_current_offset st')).
      + rewrite take_insert_ge by lia. rewrite B3, <- Hi, Htake.
        rewrite running_totals_app. simpl. rewrite <- Hcur, B2. reflexivity.
      + apply list_lookup_insert_eq. rewrite B3. lia.
    - unfold sum_list in *. rewrite foldr_app. simpl.
      rewrite B2, Hcur. clear. induction counts as [|x l IH]; simpl; lia. }
  assert (Hmissing : forall st',
    balanced (ps_current_offset st') st' ->
    let st'' := addNotFoundRow (add_missing (pe_kind env) (pe_strictness env)) true st' in
    balanced (ps_current_offset st'') st''
    /\ ps_current_offset st''
       = ps_current_offset st'
         + (if add_missing (pe_kind env) (pe_strictness env) then 1 else 0)
    /\ ps_offsets_to_replicate st'' = ps_offsets_to_replicate st'
    /\ length (ps_columns st'') = length (ps_columns st')).
  { intros st' B. cbv zeta. unfold addNotFoundRow.
    destruct (add_missing _ _); simpl.
    - split; [apply (balanced_default_row _ st' B)|]. repeat split. lia.
    - rewrite Nat.add_0_r. repeat split. exact B. }
  assert (Hrep : need_replication (pe_kind env) (pe_strictness env) = true).
  { rewrite Hall. reflexivity. }
  unfold join_row. cbv zeta. rewrite Hrep.
  assert (Hanti : is_anti_join (pe_strictness env) = false) by (rewrite Hall; reflexivity).
  rewrite Hanti. cbn [andb].
  destruct (pe_multiple_disjuncts env) eqn:Hmulti.
  - destruct (probe_disjuncts_all i (disjuncts_to_probe env) false false
                KnownRowsHolder_init st Hlen Hbal) as (c & H1 & H2 & H3 & H4).
    destruct (probe_disjuncts rt env i (disjuncts_to_probe env) false false
                KnownRowsHolder_init st) as [[st' found] null].
    cbn [fst snd] in *.
    assert (B : balanced (ps_current_offset st') st') by (rewrite H2; exact H1).
    destruct (Hmissing st' B) as (M1 & M2 & M3 & M4). cbv zeta in *.
    assert (Hwith : exists c', all_inv env rows (counts ++ [c'])
               (record_offset i
                  (addNotFoundRow (add_missing (pe_kind env) (pe_strictness env))
                     true st'))).
    { eexists. apply Hrecord; [|rewrite M2, H2, <- Nat.add_assoc; reflexivity
                               |congruence|congruence].
      rewrite Nat.add_assoc, <- H2, <- M2. exact M1. }
    assert (Hwithout : exists c', all_inv env rows (counts ++ [c']) (record_offset i st')).
    { exists c. apply Hrecord; assumption. }
    destruct (negb found && null).
    + destruct Hwith as [c' Hc']. exists c'. split; [exact Hc' | discriminate].
    + destruct (negb found).
      * destruct Hwith as [c' Hc']. exists c'. split; [exact Hc' | discriminate].
      * destruct Hwithout as [c' Hc']. exists c'. split; [exact Hc' | discriminate].
  - unfold disjuncts_to_probe. rewrite Hmulti.
    destruct (probe_single_all i st Hmulti Hlen Hbal) as (c & found & H1 & H2 & H3 & H4).
    pose proof (probe_disjuncts_all i [0] false false KnownRowsHolder_init st Hlen Hbal)
      as (c0 & _ & G2 & G3 & G4).
    destruct (probe_disjuncts rt env i [0] false false KnownRowsHolder_init st)
      as [[st' found'] null].
    cbn [fst snd] in *. subst found'.
    assert (B : balanced (ps_current_offset st') st') by (rewrite H2; exact H1).
    destruct (Hmissing st' B) as (M1 & M2 & M3 & M4). cbv zeta in *.
    exists (all_rows_of env i). split; [|reflexivity]. rewrite <- H4.
    destruct found; cbn [negb andb].
    + rewrite Nat.add_0_r. apply Hrecord; assumption.
    + assert (Hgoal : all_inv env rows
                (counts ++ [c + (if add_missing (pe_kind env) (pe_strictness env)
                                 then 1 else 0)])
                (record_offset i
                   (addNotFoundRow (add_missing (pe_kind env) (pe_strictness env))
                      true st'))).
      { apply Hrecord; [|rewrite M2, H2, <- Nat.add_assoc; reflexivity
                        |congruence|congruence].
        rewrite Nat.add_assoc, <- H2, <- M2. exact M1. }
      destruct null; exact Hgoal.
Qed.

Lemma foldl_join_row_all (rows n : nat) (st0 : ProbeState) :
  n <= rows ->
  all_inv env rows [] st0 ->
  exists counts,
    length counts = n
    /\ all_inv env rows counts (foldl (join_row rt env) st0 (seq 0 n))
    /\ (pe_multiple_disjuncts env = false -> counts = map (all_rows_of env) (seq 0 n)).
Proof.
  intros Hn Hinv. induction n as [|n IH].
  - exists []. split; [reflexivity|]. split; [exact Hinv | reflexivity].
  - destruct IH as (counts & Hlen & Hinv' & Hsingle); [lia|].
    rewrite seq_S, foldl_app. simpl.
    destruct (join_row_all rows n counts _ Hlen ltac:(lia) Hinv') as (c & Hc & Hcs).
    exists (counts ++ [c]). split; [rewrite length_app; simpl; lia|].
    split; [exact Hc|]. intros Hs. rewrite map_app, (Hsingle Hs), (Hcs Hs). reflexivity.
Qed.

(** The probe of an ALL join: the offsets are the running totals of the
    rows each left row received, and every added column holds their sum. *)
Lemma joinRightColumns_all (rows : nat) (columns : list Column) (f : JoinUsedFlags) :
  length (pe_right_indexes env) = length columns ->
  Forall (fun c => column_rows c = 0) columns ->
  exists counts,
    length counts = rows
    /\ ps_offsets_to_replicate (joinRightColumns rt env rows columns f)
       = running_totals 0 counts
    /\ Forall (fun c => column_rows c = sum_list counts)
         (ps_columns (joinRightColumns rt env rows columns f))
    /\ (pe_multiple_disjuncts env = false -> counts = map (all_rows_of env) (seq 0 rows)).
Proof.
  intros Hlen Hempty. unfold joinRightColumns.
  assert (Hrep : need_replication (pe_kind env) (pe_strictness env) = true).
  { rewrite Hall. reflexivity. }
  rewrite Hrep.
  match goal with
  | |- context [foldl (join_row rt env) ?st0 _] =>
      destruct (foldl_join_row_all rows rows st0 (le_n _))
        as (counts & Hcounts & (Hbal & Hl & Hoffs & Htake & Hcur) & Hsingle)
  end.
  { split; [|split; [exact Hlen|]].
    - unfold balanced. simpl. eapply Forall_impl; [exact Hempty|].
      intros c Hc. simpl in *. lia.
    - simpl. rewrite length_replicate. repeat split. }
  exists counts. split; [exact Hcounts|].
  destruct (applyLazyDefaults_balanced _ _ Hbal) as (Hb & Hz & _).
  split; [|split; [|exact Hsingle]].
  - rewrite <- Htake, take_ge by lia.
    unfold applyLazyDefaults. destruct (bool_decide _); reflexivity.
  - unfold balanced in Hb. rewrite Hz in Hb.
    eapply Forall_impl; [exact Hb|]. intros c Hc. simpl in Hc. lia.
Qed.

End All.

Lemma join_with_all (rt : Runtime) (hj : HashJoin) (k : Kind) (block out : Block)
    (names : list (list string)) (to_add : Block) :
  overDictionary hj = false ->
  Forall (fun c => column_rows c = block_rows block) block ->
  (join_with rt hj k All block names to_add (length block)).1 = Ok out ->
  exists keys counts,
    left_keys block names = Ok keys
    /\ length counts = block_rows block
    /\ Forall (fun c => column_rows c = sum_list counts) out
    /\ (forall key_columns null_map,
          keys = [(key_columns, null_map)] ->
          counts
          = map (fun i =>
                   let missing := if add_missing k All then 1 else 0 in
                   if null_at null_map i then missing
                   else match default ∅ (maps (data hj) !! 0) !! key_at key_columns i with
                        | Some (_, mapped) => length (mapped_chain mapped)
                        | None => missing
                        end)
              (seq 0 (block_rows block))).
Proof.
  intros Hdict Hrect Hout.
  destruct (join_with_hash _ _ _ _ _ _ _ _ _ Hdict Hout)
    as (keys & columns & right_indexes & Hkeys & Hctor & Himpl).
  set (block' := if bool_decide (k = Right) || bool_decide (k = Full) then _ else block)
    in *.
  assert (Hcells : map col_cells block' = map col_cells block)
    by apply left_block_cells.
  destruct (same_cells_shape _ _ Hcells) as (Hlen & Hrows & Hshape).
  change (is_asof_join All) with false in Hctor.
  apply AddedColumns_ctor_shape in Hctor as [Hri Hempty].
  destruct (joinRightColumns_all rt (hash_env hj k All keys right_indexes) eq_refl
              (block_rows block') columns (used_flags hj) Hri Hempty)
    as (counts & Hcounts & Hoffs & Hadded & Hsingle).
  destruct (joinRightColumns_filter rt (hash_env hj k All keys right_indexes)
              (block_rows block') columns (used_flags hj)) as [Hfilter _];
    [intros [_ H]; discriminate H|].
  set (st := joinRightColumns rt (hash_env hj k All keys right_indexes)
               (block_rows block') columns (used_flags hj)) in *.
  rewrite <- Hlen in Himpl.
  destruct (joinBlockImpl_shape _ _ _ _ _ _ _ _ Himpl) as (extra & -> & _ & Hextra).
  assert (Hnf : need_filter k All = false) by reflexivity.
  assert (Hnr : need_replication k All = true) by reflexivity.
  specialize (Hextra Hnf). rewrite Hnf, Hnr.
  exists keys, counts. split; [exact Hkeys|]. split; [congruence|]. split; [|].
  - assert (Hrep : forall cols : list Column,
              Forall (fun c => column_rows c = block_rows block') cols ->
              Forall (fun c => column_rows c = sum_list counts)
                (map (column_replicate (ps_offsets_to_replicate st)) cols)).
    { intros cols Hcols. apply Forall_map. eapply Forall_impl; [exact Hcols|].
      intros c Hc. unfold column_rows, column_replicate in *. simpl.
      rewrite Hoffs. apply replicate_cells_running_totals. congruence. }
    apply Forall_app. split; [apply Hrep; rewrite Hrows; apply Hshape; exact Hrect|].
    apply Forall_app. split; [exact Hadded|].
    apply Hrep. rewrite <- Hfilter. exact Hextra.
  - intros key_columns null_map ->. rewrite Hsingle by reflexivity.
    rewrite Hrows. apply map_ext. intros i. reflexivity.
Qed.

(** X11: under ALL strictness (any kind but Cross, not over a
    dictionary, any number of disjuncts) the block joinBlock returns for a
    rectangular left block is rectangular: the left columns, replicated by
    the recorded offsets, the added right columns and the replicated copies
    of left keys inserted for the required right keys all hold the same
    number of rows. *)
Theorem all_join_output_rectangular (rt : Runtime) (hj : HashJoin) (block out : Block)
    (not_processed : option NotProcessedCrossJoin) :
  strictness hj = All ->
  kind hj <> Cross ->
  overDictionary hj = false ->
  Forall (fun c => column_rows c = block_rows block) block ->
  (joinBlock rt hj block not_processed).1.1 = Ok out ->
  exists n, Forall (fun c => column_rows c = n) out.
Proof.
  intros Hs Hcross Hdict Hrect. unfold joinBlock.
  rewrite (bool_decide_eq_false_2 _ Hcross), Hdict. cbv zeta.
  unfold joinDispatch_matches. rewrite (bool_decide_eq_false_2 _ Hcross). cbn [negb].
  set (block' := if bool_decide (kind hj = Right) || bool_decide (kind hj = Full)
                 then _ else block).
  assert (Hcells : map col_cells block' = map col_cells block)
    by apply left_block_cells.
  destruct (same_cells_shape _ _ Hcells) as (Hlen & Hrows & Hshape).
  rewrite Hs.
  destruct (join_with rt hj (kind hj) All block' (key_names_left hj)
              (sample_block_with_columns_to_add hj) (length block')) as [o hj'] eqn:Hj.
  cbn [fst]. intros ->.
  destruct (join_with_all rt hj (kind hj) block' out (key_names_left hj)
              (sample_block_with_columns_to_add hj) Hdict)
    as (keys & counts & _ & _ & Hout & _).
  - rewrite Hrows. apply Hshape. exact Hrect.
  - rewrite Hj. reflexivity.
  - exists (sum_list counts). exact Hout.
Qed.

Lemma all_join_output_rectangular_witness :
  map col_name
    (output_of (joinBlock rt0 (build (lk_join Left All) kv_sample [kv_right_dup] true)
                  lk_left None))
  = ["lk"; "v"; "k"]%string
  /\ exists n,
       Forall (fun c => column_rows c = n)
         (output_of (joinBlock rt0
                       (build (lk_join Left All) kv_sample [kv_right_dup] true)
                       lk_left None)).
Proof.
  split; [vm_compute; reflexivity|].
  apply (all_join_output_rectangular rt0
           (build (lk_join Left All) kv_sample [kv_right_dup] true) lk_left _ None).
  - vm_compute. reflexivity.
  - vm_compute. discriminate.
  - vm_compute. reflexivity.
  - repeat constructor.
  - vm_compute. reflexivity.
Defined.

(** X12: under ALL strictness with a single disjunct, joinBlock emits for
    each left row one row per row reference of the chain its key maps to
    in the table; a left row whose key is NULL or absent from the table
    gets one default row for the kinds Left and Full and none for Inner
    and Right.  Every column of the joined block, the copies of left keys
    inserted for the required right keys included, holds the sum of these
    counts. *)
Theorem all_join_cardinality (rt : Runtime) (hj : HashJoin) (block out : Block)
    (not_processed : option NotProcessedCrossJoin) :
  strictness hj = All ->
  kind hj <> Cross ->
  overDictionary hj = false ->
  length (key_names_left hj) = 1 ->
  Forall (fun c => column_rows c = block_rows block) block ->
  (joinBlock rt hj block not_processed).1.1 = Ok out ->
  exists key_columns null_map,
    left_keys (left_block hj block) (key_names_left hj) = Ok [(key_columns, null_map)]
    /\ Forall (fun c =>
                 column_rows c
                 = sum_list (map (all_join_rows hj key_columns null_map)
                               (seq 0 (block_rows block))))
         out.
Proof.
  intros Hs Hcross Hdict Hone Hrect. unfold joinBlock.
  rewrite (bool_decide_eq_false_2 _ Hcross), Hdict. cbv zeta.
  unfold joinDispatch_matches. rewrite (bool_decide_eq_false_2 _ Hcross). cbn [negb].
  change (if bool_decide (kind hj = Right) || bool_decide (kind hj = Full)
          then if nullable_left_side hj
               then convertColumnsToNullable (materializeBlock block)
               else materializeBlock block
          else block) with (left_block hj block).
  assert (Hcells : map col_cells (left_block hj block) = map col_cells block)
    by apply left_block_cells.
  destruct (same_cells_shape _ _ Hcells) as (Hlen & Hrows & Hshape).
  rewrite Hs.
  destruct (join_with rt hj (kind hj) All (left_block hj block) (key_names_left hj)
              (sample_block_with_columns_to_add hj) (length (left_block hj block)))
    as [o hj'] eqn:Hj.
  cbn [fst]. intros ->.
  destruct (join_with_all rt hj (kind hj) (left_block hj block) out (key_names_left hj)
              (sample_block_with_columns_to_add hj) Hdict)
    as (keys & counts & Hkeys & _ & Hout & Hsingle).
  - rewrite Hrows. apply Hshape. exact Hrect.
  - rewrite Hj. reflexivity.
  - pose proof (left_keys_length _ _ _ Hkeys) as Hklen. rewrite Hone in Hklen.
    destruct keys as [|[key_columns null_map] [|k2 keys]]; try discriminate Hklen.
    exists key_columns, null_map. split; [exact Hkeys|].
    rewrite (Hsingle _ _ eq_refl), Hrows in Hout. exact Hout.
Qed.

Lemma all_join_cardinality_witness :
  exists key_columns null_map,
    left_keys (left_block (build (lk_join Left All) kv_sample [kv_right_dup] true)
                 lk_left)
      (key_names_left (build (lk_join Left All) kv_sample [kv_right_dup] true))
    = Ok [(key_columns, null_map)]
    /\ Forall (fun c =>
                 column_rows c
                 = sum_list
                     (map (all_join_rows
                             (build (lk_join Left All) kv_sample [kv_right_dup] true)
                             key_columns null_map)
                        (seq 0 (block_rows lk_left))))
         (output_of (joinBlock rt0
                       (build (lk_join Left All) kv_sample [kv_right_dup] true)
                       lk_left None)).
Proof.
  apply (all_join_cardinality rt0
           (build (lk_join Left All) kv_sample [kv_right_dup] true) lk_left _ None).
  - vm_compute. reflexivity.
  - vm_compute. discriminate.
  - vm_compute. reflexivity.
  - vm_compute. reflexivity.
  - repeat constructor.
  - vm_compute. reflexivity.
Defined.

(** ** What a probe changes *)


















(** ** alwaysReturnsEmptySet is sound *)

Lemma insertFromBlockImpl_no_rows (rt : Runtime) (k : Kind) (s : Strictness)
    (atl : bool) (t : Type_) (m : HashMap) (kc : list Column) (sb : BlockPtr)
    (nm : option (list bool)) :
  (insertFromBlockImpl rt k s atl t m 0 kc sb nm).1 = m.
Proof. destruct t; reflexivity. Qed.

Lemma addJoinedBlock_insert_no_rows (rt : Runtime) (hj : HashJoin) (d : nat)
    (key_columns : list Column) (stored_block : BlockPtr)
    (null_map : option (list bool)) :
  maps (data (addJoinedBlock_insert rt hj d 0 key_columns stored_block null_map))
  = maps (data hj).
Proof.
  unfold addJoinedBlock_insert.
  destruct (bool_decide (kind hj = Cross)); [reflexivity|].
  destruct (joinDispatch_matches (kind hj) (strictness hj)); [|reflexivity].
  destruct (maps (data hj) !! d) as [m|] eqn:Hd; [|reflexivity].
  pose proof (insertFromBlockImpl_no_rows rt (kind hj) (strictness hj)
                (any_take_last_row hj) (type (data hj)) m key_columns stored_block
                null_map) as Hm.
  destruct (insertFromBlockImpl rt _ _ _ _ _ _ _ _ _) as [m' size].
  simpl in *. subst m'. apply list_insert_id. exact Hd.
Qed.

Lemma addJoinedBlock_disjuncts_no_rows (rt : Runtime) (ds : list nat) :
  forall indexes all_key_columns stored_block check_limits hj save tr tb,
    match addJoinedBlock_disjuncts rt ds indexes all_key_columns 0 stored_block
            check_limits hj save tr tb with
    | LoopDone hj' _ _ _ | LoopReturn hj' _ | LoopThrow hj' _ =>
        maps (data hj') = maps (data hj)
    end.
Proof.
  induction ds as [|d ds IH];
    intros indexes all_key_columns stored_block check_limits hj save tr tb; simpl.
  - reflexivity.
  - destruct (extractNestedColumnsAndNullMap _) as [key_columns null_map].
    destruct (storage_join_lock hj); [reflexivity|].
    pose proof (addJoinedBlock_insert_no_rows rt hj d key_columns stored_block null_map)
      as Hins.
    destruct check_limits; simpl; [|exact Hins].
    match goal with
    | |- context [addJoinedBlock_disjuncts rt ds ?i ?a 0 ?sb ?cl ?h ?s ?x ?y] =>
        specialize (IH i a sb cl h s x y);
        destruct (addJoinedBlock_disjuncts rt ds i a 0 sb cl h s x y)
    end; congruence.
Qed.

Lemma addJoinedBlock_still_empty (rt : Runtime) (hj : HashJoin) (source_block : Block)
    (check_limits : bool) :
  empty (data (addJoinedBlock rt hj source_block check_limits).2) = true ->
  empty (data hj) = true
  /\ maps (data (addJoinedBlock rt hj source_block check_limits).2) = maps (data hj).
Proof.
  unfold addJoinedBlock.
  destruct (HashJoin_empty hj); [intros H; split; [exact H | reflexivity]|].
  destruct (overDictionary hj); [intros H; split; [exact H | reflexivity]|].
  destruct (u32_max <? N.of_nat (block_rows source_block))%N;
    [intros H; split; [exact H | reflexivity]|].
  destruct (key_names_right_indexes (key_names_right hj))
    as [all_key_names_right indexes].
  destruct (materializeColumns _ _) as [all_key_columns|e];
    [|intros H; split; [exact H | reflexivity]].
  destruct (structureRightBlock hj _) as [structured_block|e];
    [|intros H; split; [exact H | reflexivity]].
  cbv zeta. rewrite block_rows_materializeBlock.
  destruct (bool_decide_reflect (block_rows source_block = 0)) as [Hz|Hnz].
  - rewrite Hz.
    match goal with
    | |- context [addJoinedBlock_disjuncts rt ?ds ?i ?a 0 ?sb ?cl ?h ?s ?x ?y] =>
        pose proof (addJoinedBlock_disjuncts_no_rows rt ds i a sb cl h s x y) as Hmaps;
        pose proof (addJoinedBlock_disjuncts_preserves rt ds i a 0 sb cl h s x y) as Hpres;
        destruct (addJoinedBlock_disjuncts rt ds i a 0 sb cl h s x y)
          as [hj1 save_a_nullmap total_rows total_bytes | hj1 ret | hj1 err]
    end; cbn [snd].
    + destruct Hpres as [_ [He _]]. simpl in He, Hmaps.
      assert (Hsave : forall h,
                h = (if save_a_nullmap
                     then save_nullmap_of hj1 (length (blocks (data hj))) all_key_columns
                     else hj1) ->
                empty (data h) = empty (data hj1) /\ maps (data h) = maps (data hj1)).
      { intros h ->. destruct save_a_nullmap; [|split; reflexivity].
        unfold save_nullmap_of.
        destruct (extractNestedColumnsAndNullMap all_key_columns) as [? ?].
        split; reflexivity. }
      destruct (Hsave _ eq_refl) as [S1 S2]. rewrite S1, S2, He, Hmaps.
      intros H. split; [exact H | reflexivity].
    + destruct Hpres as (_ & [He _] & _). simpl in He, Hmaps. rewrite He, Hmaps.
      intros H. split; [exact H | reflexivity].
    + destruct Hpres as (_ & [He _] & _). simpl in He, Hmaps. rewrite He, Hmaps.
      intros H. split; [exact H | reflexivity].
  - match goal with
    | |- context [addJoinedBlock_disjuncts rt ?ds ?i ?a ?r ?sb ?cl ?h ?s ?x ?y] =>
        pose proof (addJoinedBlock_disjuncts_preserves rt ds i a r sb cl h s x y) as Hpres;
        destruct (addJoinedBlock_disjuncts rt ds i a r sb cl h s x y)
          as [hj1 save_a_nullmap total_rows total_bytes | hj1 ret | hj1 err]
    end; cbn [snd].
    + destruct Hpres as [_ [He _]]. simpl in He.
      rewrite (bool_decide_eq_false_2 _ Hnz) in He.
      destruct save_a_nullmap.
      * unfold save_nullmap_of.
        destruct (extractNestedColumnsAndNullMap all_key_columns) as [? ?].
        simpl. rewrite He. discriminate.
      * rewrite He. discriminate.
    + destruct Hpres as (_ & [He _] & _). simpl in He.
      rewrite (bool_decide_eq_false_2 _ Hnz) in He. rewrite He. discriminate.
    + destruct Hpres as (_ & [He _] & _). simpl in He.
      rewrite (bool_decide_eq_false_2 _ Hnz) in He. rewrite He. discriminate.
Qed.

Lemma ingested_empty_maps (rt : Runtime) (hj : HashJoin) (n : nat) :
  ingested rt hj n ->
  empty (data hj) = true ->
  Forall (fun m : HashMap => m = ∅) (maps (data hj)).
Proof.
  induction 1 as [tj sample atl hj Hctor | hj n block check_limits Hing IH].
  - intros _. unfold HashJoin_ctor in Hctor.
    destruct (if 1 <? length (keyNamesRight tj) then _ else _) as [keys to_add].
    destruct (if 1 <? length (keyNamesRight tj) then Ok _ else _)
      as [[required sources]|e0]; simpl in Hctor; [|discriminate].
    destruct (ctor_disjuncts tj keys (keyNamesRight tj) EMPTY) as [[jm sizes]|e];
      simpl in Hctor; [|discriminate].
    injection Hctor as <-. simpl. apply Forall_replicate. reflexivity.
  - intros Hempty. apply addJoinedBlock_still_empty in Hempty as [He Hm].
    rewrite Hm. apply IH. exact He.
Qed.

Lemma filter_cells_none {A} (cells : list A) (rows : nat) :
  filter_cells cells (replicate rows false) = [].
Proof.
  revert cells. induction rows as [|rows IH]; intros [|c cells]; simpl;
    try reflexivity. apply IH.
Qed.

Lemma replicate_cells_none {A} (cells : list A) (rows : nat) :
  replicate_cells cells (replicate rows 0) 0 = [].
Proof.
  revert cells. induction rows as [|rows IH]; intros [|c cells]; simpl;
    try reflexivity. apply IH.
Qed.

Lemma AddedColumns_ctor_empty (hj : HashJoin) (to_add block : Block) (asof : bool)
    (columns : list Column) (right_indexes : list nat) :
  AddedColumns_ctor hj to_add block asof = Ok (columns, right_indexes) ->
  Forall (fun c => column_rows c = 0) columns.
Proof.
  unfold AddedColumns_ctor.
  assert (Hbase : Forall (fun c => column_rows c = 0)
                    (map cloneEmpty
                       (List.filter (fun src => negb (block_has block (col_name src)))
                          to_add))).
  { apply Forall_map. apply Forall_forall. intros c _. reflexivity. }
  destruct asof.
  - destruct (getByName _ _) as [right_asof_column|e]; simpl; [|discriminate].
    destruct (omapM _ _) as [ri|e]; simpl; [|discriminate].
    intros [= <- <-]. apply Forall_app. split; [exact Hbase|]. repeat constructor.
  - simpl. destruct (omapM _ _) as [ri|e]; simpl; [|discriminate].
    intros [= <- <-]. exact Hbase.
Qed.

Section NoMatch.

Variable rt : Runtime.
Variable env : ProbeEnv.
Hypothesis Hkind : pe_kind env = Inner \/ pe_kind env = Right.
Hypothesis Hfind :
  forall d find i, pe_find env !! d = Some find -> find i = None.

Lemma add_missing_inner_right : add_missing (pe_kind env) (pe_strictness env) = false.
Proof. destruct Hkind as [-> | ->]; reflexivity. Qed.

Lemma probe_disjuncts_no_match (i : nat) (ds : list nat) :
  forall null known st,
    (probe_disjuncts rt env i ds false null known st).1.1 = st
    /\ (probe_disjuncts rt env i ds false null known st).1.2 = false.
Proof.
  induction ds as [|d ds IH]; intros null known st; simpl.
  - split; reflexivity.
  - destruct (null_at _ i); [apply IH|].
    destruct (pe_find env !! d) as [find|] eqn:Hd; simpl; [|apply IH].
    rewrite (Hfind d find i Hd). apply IH.
Qed.

Lemma join_row_no_match (rows i : nat) (f : JoinUsedFlags) (columns : list Column) :
  join_row rt env
    (mkProbeState f columns 0 (replicate rows false)
       (if need_replication (pe_kind env) (pe_strictness env)
        then replicate rows 0 else []) 0) i
  = mkProbeState f columns 0 (replicate rows false)
      (if need_replication (pe_kind env) (pe_strictness env)
       then replicate rows 0 else []) 0.
Proof.
  unfold join_row. cbv zeta.
  match goal with
  | |- context [probe_disjuncts rt env i ?ds false false ?k ?s] =>
      destruct (probe_disjuncts_no_match i ds false k s) as [Hst Hfound];
      destruct (probe_disjuncts rt env i ds false false k s) as [[st' found] null]
  end.
  simpl in Hst, Hfound. subst st' found. cbn [negb andb].
  rewrite add_missing_inner_right. unfold addNotFoundRow.
  assert (Hanti : is_anti_join (pe_strictness env) && bool_decide (pe_kind env = Left)
                  = false).
  { destruct Hkind as [-> | ->]; apply andb_false_r. }
  rewrite Hanti.
  destruct (need_replication (pe_kind env) (pe_strictness env));
    destruct null; unfold record_offset; simpl; rewrite ?insert_replicate; reflexivity.
Qed.

Lemma joinRightColumns_no_match (rows : nat) (columns : list Column) (f : JoinUsedFlags) :
  joinRightColumns rt env rows columns f
  = mkProbeState f columns 0 (replicate rows false)
      (if need_replication (pe_kind env) (pe_strictness env)
       then replicate rows 0 else []) 0.
Proof.
  unfold joinRightColumns.
  assert (Hfold : forall l,
    foldl (join_row rt env)
      (mkProbeState f columns 0 (replicate rows false)
         (if need_replication (pe_kind env) (pe_strictness env)
          then replicate rows 0 else []) 0) l
    = mkProbeState f columns 0 (replicate rows false)
        (if need_replication (pe_kind env) (pe_strictness env)
         then replicate rows 0 else []) 0).
  { induction l as [|i l IH]; [reflexivity|].
    simpl. rewrite join_row_no_match. exact IH. }
  rewrite Hfold. reflexivity.
Qed.

End NoMatch.

Lemma join_with_no_rows (rt : Runtime) (hj : HashJoin) (k : Kind) (s : Strictness)
    (block out : Block) (names : list (list string)) (to_add : Block) :
  k = Inner \/ k = Right ->
  overDictionary hj = false ->
  Forall (fun m : HashMap => m = ∅) (maps (data hj)) ->
  (join_with rt hj k s block names to_add (length block)).1 = Ok out ->
  Forall (fun c => column_rows c = 0) out.
Proof.
  intros Hk Hdict Hmaps Hout.
  destruct (join_with_hash _ _ _ _ _ _ _ _ _ Hdict Hout)
    as (keys & columns & right_indexes & Hkeys & Hctor & Himpl).
  set (block' := if bool_decide (k = Right) || bool_decide (k = Full) then _ else block)
    in *.
  assert (Hcells : map col_cells block' = map col_cells block)
    by apply left_block_cells.
  destruct (same_cells_shape _ _ Hcells) as (Hlen & _ & _).
  apply AddedColumns_ctor_empty in Hctor.
  rewrite joinRightColumns_no_match in Himpl; [|exact Hk|].
  2:{ intros d find i Hd. simpl in Hd. rewrite list_lookup_imap in Hd.
      destruct (keys.*1 !! d) as [key_columns|]; [|discriminate Hd].
      simpl in Hd. injection Hd as <-. unfold hash_find.
      destruct (maps (data hj) !! d) as [m|] eqn:Hm; simpl.
      - rewrite Forall_lookup in Hmaps. rewrite (Hmaps d m Hm). apply lookup_empty.
      - apply lookup_empty. }
  cbn [ps_columns ps_filter ps_offsets_to_replicate pe_kind pe_strictness hash_env]
    in Himpl.
  rewrite <- Hlen in Himpl.
  destruct (joinBlockImpl_shape _ _ _ _ _ _ _ _ Himpl) as (extra & -> & Hextra & _).
  assert (Hshape : need_filter k s = negb (need_replication k s)).
  { destruct Hk as [-> | ->]; destruct s; reflexivity. }
  rewrite Hshape in *.
  assert (Hnone : forall offsets (cols : list Column),
            offsets = replicate (block_rows block') 0 ->
            Forall (fun c => column_rows c = 0)
              (map (column_replicate offsets) cols)).
  { intros offsets cols ->. apply Forall_map, Forall_forall. intros c _.
    unfold column_rows. simpl. rewrite replicate_cells_none. reflexivity. }
  destruct (need_replication k s); cbn [negb] in *.
  - apply Forall_app. split; [apply Hnone; reflexivity|].
    apply Forall_app. split; [exact Hctor | apply Hnone; reflexivity].
  - assert (Hleft : Forall (fun c => column_rows c = 0)
                      (map (column_filter (replicate (block_rows block') false)) block')).
    { apply Forall_map, Forall_forall. intros c _.
      unfold column_rows. simpl. rewrite filter_cells_none. reflexivity. }
    apply Forall_app. split; [exact Hleft|].
    apply Forall_app. split; [exact Hctor|].
    apply (Hextra eq_refl). apply Forall_app. split; [exact Hleft | exact Hctor].
Qed.

(** X14: alwaysReturnsEmptySet is sound.  On every instance construction
    and ingestion produce, when it answers true (kind Inner or Right, no
    right row ingested, not over a dictionary) a probe that returns a
    block returns one without rows, for every left block and every
    strictness: the left columns, the added columns and the copies of left
    keys inserted for the required right keys are all empty. *)
Theorem alwaysReturnsEmptySet_sound (rt : Runtime) (hj : HashJoin) (n : nat)
    (block out : Block) (not_processed : option NotProcessedCrossJoin) :
  ingested rt hj n ->
  alwaysReturnsEmptySet hj = true ->
  (joinBlock rt hj block not_processed).1.1 = Ok out ->
  Forall (fun c => column_rows c = 0) out.
Proof.
  intros Hing Halways. unfold alwaysReturnsEmptySet in Halways.
  apply andb_true_iff in Halways as [Halways Hdict].
  apply andb_true_iff in Halways as [Hkind Hempty].
  apply negb_true_iff in Hdict.
  assert (Hk : kind hj = Inner \/ kind hj = Right).
  { unfold isInnerOrRight in Hkind. apply orb_true_iff in Hkind as [H|H];
      apply bool_decide_eq_true in H; tauto. }
  pose proof (ingested_empty_maps rt hj n Hing Hempty) as Hmaps.
  unfold joinBlock.
  rewrite bool_decide_eq_false_2 by (destruct Hk as [-> | ->]; discriminate).
  cbv zeta. rewrite Hdict.
  unfold joinDispatch_matches.
  rewrite bool_decide_eq_false_2 by (destruct Hk as [-> | ->]; discriminate).
  cbn [negb].
  set (block' := if bool_decide (kind hj = Right) || bool_decide (kind hj = Full)
                 then _ else block).
  destruct (join_with rt hj (kind hj) (strictness hj) block' (key_names_left hj)
              (sample_block_with_columns_to_add hj) (length block')) as [o hj'] eqn:Hj.
  cbn [fst]. intros ->.
  apply (join_with_no_rows rt hj (kind hj) (strictness hj) block' out (key_names_left hj)
           (sample_block_with_columns_to_add hj) Hk Hdict Hmaps).
  rewrite Hj. reflexivity.
Qed.

Lemma alwaysReturnsEmptySet_sound_witness :
  Forall (fun c => column_rows c = 0)
    (output_of (joinBlock rt0 (build (lk_join Inner All) kv_sample [] true)
                  lk_left None)).
Proof.
  apply (alwaysReturnsEmptySet_sound rt0 (build (lk_join Inner All) kv_sample [] true) 0
           lk_left _ None).
  - apply (ingested_new rt0 (lk_join Inner All) kv_sample false). vm_compute. reflexivity.
  - vm_compute. reflexivity.
  - vm_compute. reflexivity.
Defined.

(** ** Cross join: the continuation loses and repeats nothing *)

Lemma imap_extend_nil (dst : list Column) :
  imap (fun _ d => extend_cells d []) dst = dst.
Proof.
  apply list_eq. intros i. rewrite list_lookup_imap.
  destruct (dst !! i) as [d|]; [|reflexivity]. simpl. f_equal.
  unfold extend_cells. rewrite app_nil_r. destruct d; reflexivity.
Qed.

Lemma imap_extend_compose (F G : nat -> Column -> list (option Value))
    (dst : list Column) :
  (forall j d x, G j (extend_cells d x) = G j d) ->
  imap (fun j d => extend_cells d (G j d)) (imap (fun j d => extend_cells d (F j d)) dst)
  = imap (fun j d => extend_cells d (F j d ++ G j d)) dst.
Proof.
  intros HG. apply list_eq. intros i. rewrite !list_lookup_imap.
  destruct (dst !! i) as [d|]; [|reflexivity]. simpl. f_equal.
  rewrite HG. unfold extend_cells. simpl. rewrite app_assoc. reflexivity.
Qed.

Lemma cross_piece_extend (src : list Column) (ne l : nat) (blk : Block) (j : nat)
    (d : Column) (x : list (option Value)) :
  cross_piece src ne l blk j (extend_cells d x) = cross_piece src ne l blk j d.
Proof. reflexivity. Qed.

Lemma cross_cells_extend (src : list Column) (ne : nat) (bl : list Block)
    (L : list nat) (j : nat) (d : Column) (x : list (option Value)) :
  cross_cells src ne bl L j (extend_cells d x) = cross_cells src ne bl L j d.
Proof. reflexivity. Qed.

Lemma cross_cells_app (src : list Column) (ne : nat) (bl : list Block)
    (L1 L2 : list nat) (j : nat) (d : Column) :
  cross_cells src ne bl (L1 ++ L2) j d
  = cross_cells src ne bl L1 j d ++ cross_cells src ne bl L2 j d.
Proof. unfold cross_cells. apply flat_map_app. Qed.

(** One left row against the right blocks, none skipped. *)
Lemma cross_right_blocks_all (src : list Column) (ne l : nat) (bl : list Block) :
  forall bn dst ra,
    cross_right_blocks bl bn 0 l src ne dst ra
    = (imap (fun j d => extend_cells d (cross_cells src ne bl [l] j d)) dst,
       ra + sum_list (map block_rows bl), bn + length bl).
Proof.
  unfold cross_cells. simpl.
  induction bl as [|blk bl IH]; intros bn dst ra; simpl.
  - rewrite imap_extend_nil, !Nat.add_0_r. reflexivity.
  - rewrite IH. f_equal; [f_equal|]; [|lia..].
    apply list_eq. intros i. rewrite !list_lookup_imap.
    destruct (dst !! i) as [d|]; [|reflexivity]. simpl. f_equal.
    unfold extend_cells, cross_piece, insertManyFrom, insertRangeFrom.
    destruct (i <? ne); simpl; rewrite !app_nil_r, app_assoc; reflexivity.
Qed.

(** One left row with every right block below the start: nothing is
    added. *)
Lemma cross_right_blocks_skip (src : list Column) (ne l start : nat) (bl : list Block) :
  forall bn dst ra,
    bn + length bl < start ->
    cross_right_blocks bl bn start l src ne dst ra = (dst, ra, bn + length bl).
Proof.
  induction bl as [|blk bl IH]; intros bn dst ra Hlt; simpl in *.
  - rewrite Nat.add_0_r. reflexivity.
  - destruct (Nat.ltb_spec (S bn) start) as [_|Hge]; [|lia].
    rewrite IH by lia. f_equal. lia.
Qed.

(** A run of the loop over the left rows that starts at the first right
    block: it joins a prefix [done] of the rows completely, and stops with
    a continuation at the last row joined or with none at the end. *)
Lemma cross_left_rows_prefix (max_rows_ : nat) (src : list Column) (ne : nat)
    (bl : list Block) (L : list nat) :
  forall dst ra,
    exists done rest ra',
      L = done ++ rest
      /\ ((rest = []
           /\ cross_left_rows max_rows_ bl L 0 src ne dst ra
              = (imap (fun j d => extend_cells d (cross_cells src ne bl done j d)) dst,
                 ra', None))
          \/ (exists l,
                last done = Some l
                /\ cross_left_rows max_rows_ bl L 0 src ne dst ra
                   = (imap (fun j d => extend_cells d (cross_cells src ne bl done j d)) dst,
                      ra', Some (l, length bl + 1)))).
Proof.
  induction L as [|l L IH]; intros dst ra.
  - exists [], [], ra. split; [reflexivity|]. left. split; [reflexivity|].
    simpl. rewrite imap_extend_nil. reflexivity.
  - cbn [cross_left_rows]. rewrite cross_right_blocks_all.
    destruct (max_rows_ <? ra + sum_list (map block_rows bl)) eqn:Hcap.
    + exists [l], L, (ra + sum_list (map block_rows bl)). split; [reflexivity|].
      right. exists l. split; [reflexivity|]. reflexivity.
    + destruct (IH (imap (fun j d => extend_cells d (cross_cells src ne bl [l] j d)) dst)
                  (ra + sum_list (map block_rows bl)))
        as (done & rest & ra' & -> & Hrun).
      exists (l :: done), rest, ra'. split; [reflexivity|].
      assert (Hcells :
        imap (fun j d => extend_cells d (cross_cells src ne bl done j d))
          (imap (fun j d => extend_cells d (cross_cells src ne bl [l] j d)) dst)
        = imap (fun j d => extend_cells d (cross_cells src ne bl (l :: done) j d)) dst).
      { rewrite imap_extend_compose by reflexivity.
        apply imap_ext. intros j d _. f_equal.
        change (l :: done) with ([l] ++ done). rewrite cross_cells_app. reflexivity. }
      destruct Hrun as [[-> Hrun] | (l0 & Hlast & Hrun)].
      * left. split; [reflexivity|]. rewrite Hrun, Hcells. reflexivity.
      * right. exists l0. split.
        -- destruct done as [|x done']; [discriminate Hlast|].
           change (l :: x :: done') with ([l] ++ x :: done').
           rewrite last_app, Hlast. reflexivity.
        -- rewrite Hrun, Hcells. reflexivity.
Qed.

Lemma cross_product_cells (hj : HashJoin) (block : Block) :
  cross_product hj block
  = imap (fun j d =>
            extend_cells d
              (cross_cells block (length block) (blocks (data hj))
                 (seq 0 (block_rows block)) j d))
      (map cloneEmpty block ++ map cloneEmpty (sample_block_with_columns_to_add hj)).
Proof.
  unfold cross_product.
  generalize (map cloneEmpty block
              ++ map cloneEmpty (sample_block_with_columns_to_add hj)) as dst.
  generalize (seq 0 (block_rows block)) as L.
  induction L as [|l L IH] using rev_ind; intros dst.
  - simpl. rewrite imap_extend_nil. reflexivity.
  - rewrite foldl_app. simpl. rewrite IH, cross_right_blocks_all. cbn [fst].
    rewrite imap_extend_compose by reflexivity.
    apply imap_ext. intros j d _. f_equal. rewrite cross_cells_app. reflexivity.
Qed.

Lemma seq_split_last (a n l : nat) (done rest : list nat) :
  seq a n = done ++ rest ->
  last done = Some l ->
  S l = a + length done
  /\ rest = seq (a + length done) (n - length done)
  /\ 0 < length done <= n.
Proof.
  intros Hsplit Hlast.
  assert (Hlen : n = length done + length rest).
  { pose proof (f_equal length Hsplit) as H.
    rewrite length_seq, length_app in H. exact H. }
  assert (Hdone : done = seq a (length done)).
  { transitivity (take (length done) (seq a n)).
    - rewrite Hsplit, take_app_length. reflexivity.
    - rewrite take_seq. f_equal. lia. }
  assert (Hrest : rest = seq (a + length done) (n - length done)).
  { transitivity (drop (length done) (seq a n)).
    - rewrite Hsplit, drop_app_length. reflexivity.
    - apply drop_seq. }
  assert (Hpos : 0 < length done).
  { destruct done; [discriminate Hlast | simpl; lia]. }
  split; [|split; [exact Hrest | lia]].
  destruct (length done) as [|k] eqn:Hk.
  - destruct done; [discriminate Hlast | discriminate Hk].
  - rewrite Hdone, seq_S, last_snoc in Hlast. injection Hlast as <-. lia.
Qed.

Lemma cloneEmpty_cells (block sample : Block) (j : nat) (d : Column) :
  (map cloneEmpty block ++ map cloneEmpty sample) !! j = Some d -> col_cells d = [].
Proof.
  rewrite <- map_app. change (map cloneEmpty ?l) with (cloneEmpty <$> l).
  rewrite list_lookup_fmap. destruct ((block ++ sample) !! j); [|discriminate].
  intros [= <-]. reflexivity.
Qed.

Lemma joinBlockImplCross_fresh (hj : HashJoin) (block : Block) :
  joinBlockImplCross hj block None
  = let r := cross_left_rows (maxJoinedBlockRows (table_join hj)) (blocks (data hj))
               (seq 0 (block_rows block)) 0 block (length block)
               (map cloneEmpty block
                ++ map cloneEmpty (sample_block_with_columns_to_add hj)) 0 in
    (r.1.1, match r.2 with
            | Some (l, n) => Some (mkNotProcessedCrossJoin block l n)
            | None => None
            end).
Proof.
  unfold joinBlockImplCross. rewrite Nat.sub_0_r. cbv zeta.
  destruct (cross_left_rows _ _ _ _ _ _ _ _) as [[dst ra] cont]. reflexivity.
Qed.

Lemma joinBlockImplCross_resumed (hj : HashJoin) (block carried : Block) (l : nat) :
  l < block_rows block ->
  joinBlockImplCross hj block
    (Some (mkNotProcessedCrossJoin carried l (length (blocks (data hj)) + 1)))
  = let r := cross_left_rows (maxJoinedBlockRows (table_join hj)) (blocks (data hj))
               (seq (S l) (block_rows block - S l)) 0 block (length block)
               (map cloneEmpty block
                ++ map cloneEmpty (sample_block_with_columns_to_add hj)) 0 in
    (r.1.1, match r.2 with
            | Some (l', n) => Some (mkNotProcessedCrossJoin block l' n)
            | None => None
            end).
Proof.
  intros Hl. unfold joinBlockImplCross. cbn [left_position right_block].
  replace (block_rows block - l) with (S (block_rows block - S l)) by lia.
  cbn [seq cross_left_rows].
  rewrite cross_right_blocks_skip by lia.
  change (maxJoinedBlockRows (table_join hj) <? 0) with false. cbv iota zeta.
  destruct (cross_left_rows _ _ _ _ _ _ _ _) as [[dst ra] cont]. reflexivity.
Qed.

Lemma cross_join_calls_from (hj : HashJoin) (block : Block) :
  forall fuel a not_processed,
    a <= block_rows block ->
    block_rows block - a < fuel ->
    joinBlockImplCross hj block not_processed
    = (let r := cross_left_rows (maxJoinedBlockRows (table_join hj)) (blocks (data hj))
                  (seq a (block_rows block - a)) 0 block (length block)
                  (map cloneEmpty block
                   ++ map cloneEmpty (sample_block_with_columns_to_add hj)) 0 in
       (r.1.1, match r.2 with
               | Some (l, n) => Some (mkNotProcessedCrossJoin block l n)
               | None => None
               end)) ->
    (cross_join_calls fuel hj block not_processed).2 = None
    /\ forall j,
         concat (map (cells_at j) (cross_join_calls fuel hj block not_processed).1)
         = from_option
             (cross_cells block (length block) (blocks (data hj))
                (seq a (block_rows block - a)) j)
             []
             ((map cloneEmpty block
               ++ map cloneEmpty (sample_block_with_columns_to_add hj)) !! j).
Proof.
  induction fuel as [|fuel IH]; intros a not_processed Ha Hfuel Hjoin; [lia|].
  cbn [cross_join_calls]. rewrite Hjoin. cbv zeta.
  destruct (cross_left_rows_prefix (maxJoinedBlockRows (table_join hj)) block
              (length block) (blocks (data hj)) (seq a (block_rows block - a))
              (map cloneEmpty block
               ++ map cloneEmpty (sample_block_with_columns_to_add hj)) 0)
    as (done & rest & ra' & Hsplit & [[-> Hrun] | (l & Hlast & Hrun)]);
    rewrite Hrun; cbn [fst snd].
  - split; [reflexivity|]. intros j. simpl. rewrite app_nil_r.
    rewrite app_nil_r in Hsplit. rewrite Hsplit.
    unfold cells_at. rewrite list_lookup_imap.
    destruct (_ !! j) as [d0|] eqn:Hd0; [|reflexivity]. simpl.
    rewrite (cloneEmpty_cells _ _ _ _ Hd0). reflexivity.
  - destruct (seq_split_last _ _ _ _ _ Hsplit Hlast) as (Hl & Hrest & Hdone).
    cbn [np_block].
    destruct (IH (S l) (Some (mkNotProcessedCrossJoin block l
                                (length (blocks (data hj)) + 1))))
      as [Hfinal Hcells]; [lia | lia | apply joinBlockImplCross_resumed; lia |].
    destruct (cross_join_calls fuel hj block _) as [outs final].
    cbn [fst snd] in *. split; [exact Hfinal|]. intros j.
    simpl. rewrite Hcells, Hsplit.
    replace (seq (S l) (block_rows block - S l)) with rest
      by (rewrite Hrest; f_equal; lia).
    unfold cells_at. rewrite list_lookup_imap.
    destruct (_ !! j) as [d0|] eqn:Hd0; [|reflexivity]. simpl.
    rewrite (cloneEmpty_cells _ _ _ _ Hd0), cross_cells_app. reflexivity.
Qed.

(** X15: the calls a caller makes for one left block of a cross join,
    resuming from each continuation on the block it carries, end without a
    continuation after at most one call per left row and one more; column
    by column, the cells they emitted, concatenated in call order, are the
    cells of the unsplit product (each left row in order with every right
    block): no row is lost and none repeated at a continuation. *)
Theorem cross_join_resumes_completely (hj : HashJoin) (block : Block) (fuel : nat) :
  block_rows block < fuel ->
  (cross_join_calls fuel hj block None).2 = None
  /\ forall col_num,
       concat (map (cells_at col_num) (cross_join_calls fuel hj block None).1)
       = cells_at col_num (cross_product hj block).
Proof.
  intros Hfuel.
  destruct (cross_join_calls_from hj block fuel 0 None) as [Hfinal Hcells];
    [lia | lia | rewrite Nat.sub_0_r; apply joinBlockImplCross_fresh |].
  split; [exact Hfinal|]. intros j. rewrite Hcells, Nat.sub_0_r, cross_product_cells.
  unfold cells_at. rewrite list_lookup_imap.
  destruct (_ !! j) as [d0|] eqn:Hd0; [|reflexivity]. simpl.
  rewrite (cloneEmpty_cells _ _ _ _ Hd0). reflexivity.
Qed.

Lemma cross_join_resumes_completely_witness :
  block_rows s7_left < 10
  /\ (cross_join_calls 10 s7_built s7_left None).2 = None
  /\ length (cross_join_calls 10 s7_built s7_left None).1 = 6.
Proof.
  split; [vm_compute; lia|].
  split; [|vm_compute; reflexivity].
  apply (cross_join_resumes_completely s7_built s7_left 10). vm_compute. lia.
Defined.

(** ** joinGet *)

Lemma left_keys_throws (block : Block) (names : list (list string)) (e : ErrorCode) :
  left_keys block names = Throw e -> e = NOT_FOUND_COLUMN_IN_BLOCK.
Proof.
  induction names as [|n names IH]; simpl; [discriminate|].
  destruct (materializeColumns block n) as [m|e'] eqn:Hm; simpl.
  - destruct (left_keys block names) as [others|e'']; simpl; [discriminate|].
    intros [= <-]. apply IH. reflexivity.
  - intros [= <-]. eapply materializeColumns_throws. exact Hm.
Qed.

Lemma AddedColumns_ctor_throws (hj : HashJoin) (to_add block : Block) (e : ErrorCode) :
  AddedColumns_ctor hj to_add block false = Throw e -> e = NOT_FOUND_COLUMN_IN_BLOCK.
Proof.
  unfold AddedColumns_ctor. simpl.
  destruct (omapM _ _) as [ri|e'] eqn:Hri; simpl; [discriminate|].
  intros [= <-]. revert Hri. apply omapM_throws. intros c e''.
  unfold getPositionByName. destruct (getPositionByName_from _ _ 0); congruence.
Qed.

Lemma imap_same_cells (f : nat -> Column -> Column) (l : list Column) :
  (forall i c, col_cells (f i c) = col_cells c) ->
  map col_cells (imap f l) = map col_cells l.
Proof.
  revert f. induction l as [|c l IH]; intros f Hf; [reflexivity|].
  simpl. rewrite Hf. f_equal. apply IH. intros i c'. apply Hf.
Qed.

(** X16: joinGet throws IncompatibleTypeOfJoin exactly when the instance
    is not a Left join of strictness Any or RightAny; on such a join whose
    table holds row references it returns, for a rectangular block of key
    columns, a column with one cell per key row. *)
Theorem joinGet_left_any_only (rt : Runtime) (hj : HashJoin)
    (block block_with_columns_to_add : Block) :
  (joinGet rt hj block block_with_columns_to_add = Throw INCOMPATIBLE_TYPE_OF_JOIN
   <-> ~ (kind hj = Left /\ (strictness hj = Any \/ strictness hj = RightAny)))
  /\ (maps_hold_rows hj ->
      Forall (fun c => column_rows c = block_rows block) block ->
      forall column,
        joinGet rt hj block block_with_columns_to_add = Ok column ->
        column_rows column = block_rows block).
Proof.
  unfold joinGet. cbv zeta.
  destruct ((bool_decide (strictness hj = Any) || bool_decide (strictness hj = RightAny))
            && bool_decide (kind hj = Left)) eqn:Hvalid; cbn [negb].
  2:{ split; [|discriminate].
      split; [|reflexivity]. intros _ [Hk Hs].
      rewrite (bool_decide_eq_true_2 _ Hk), andb_true_r in Hvalid.
      destruct Hs as [Hs|Hs]; rewrite Hs in Hvalid; discriminate Hvalid. }
  assert (Hok : kind hj = Left /\ (strictness hj = Any \/ strictness hj = RightAny)).
  { apply andb_true_iff in Hvalid as [Hs Hk].
    apply bool_decide_eq_true in Hk. split; [exact Hk|].
    apply orb_true_iff in Hs as [Hs|Hs]; apply bool_decide_eq_true in Hs; tauto. }
  set (keys := imap _ block).
  assert (Hkeys : map col_cells keys = map col_cells block).
  { subst keys. apply imap_same_cells. reflexivity. }
  assert (Hkrows : block_rows keys = block_rows block).
  { destruct block as [|c block], keys as [|c' keys']; try discriminate Hkeys;
      [reflexivity|]. simpl in *. unfold column_rows. congruence. }
  assert (Hklen : length keys = length block).
  { subst keys. apply length_imap. }
  destruct (left_keys keys (key_names_right hj)) as [lkeys|e] eqn:Hleft; simpl.
  2:{ split; [|discriminate]. split; [|intros H; elim H; exact Hok].
      intros [= ->]. apply left_keys_throws in Hleft. discriminate Hleft. }
  destruct (AddedColumns_ctor hj block_with_columns_to_add keys false)
    as [[columns right_indexes]|e] eqn:Hctor; simpl.
  2:{ split; [|discriminate]. split; [|intros H; elim H; exact Hok].
      intros [= ->]. apply AddedColumns_ctor_throws in Hctor. discriminate Hctor. }
  apply AddedColumns_ctor_shape in Hctor as [Hri Hempty].
  assert (Hlast : forall st,
    length (ps_filter st) = block_rows keys ->
    (maps_hold_rows hj ->
     Forall (fun c => column_rows c = block_rows keys) (ps_columns st)) ->
    (obind (joinBlockImpl hj Left Any (keys ++ ps_columns st) (ps_filter st)
              (ps_offsets_to_replicate st) (length block))
       (fun joined => match last joined with
                      | Some column => Ok column
                      | None => Throw LOGICAL_ERROR
                      end) = Throw INCOMPATIBLE_TYPE_OF_JOIN
     <-> ~ (kind hj = Left /\ (strictness hj = Any \/ strictness hj = RightAny)))
    /\ (maps_hold_rows hj ->
        Forall (fun c => column_rows c = block_rows block) block ->
        forall column,
          obind (joinBlockImpl hj Left Any (keys ++ ps_columns st) (ps_filter st)
                   (ps_offsets_to_replicate st) (length block))
            (fun joined => match last joined with
                           | Some column => Ok column
                           | None => Throw LOGICAL_ERROR
                           end) = Ok column ->
          column_rows column = block_rows block)).
  { intros st Hfilter Hadded. rewrite <- Hklen.
    destruct (joinBlockImpl hj Left Any (keys ++ ps_columns st) (ps_filter st)
                (ps_offsets_to_replicate st) (length keys)) as [joined|e] eqn:Himpl;
      simpl.
    - destruct (joinBlockImpl_shape _ _ _ _ _ _ _ _ Himpl) as (extra & -> & _ & Hextra).
      change (need_filter Left Any) with false in *.
      change (need_replication Left Any) with false in *. cbv iota in *.
      specialize (Hextra eq_refl). split.
      + split; [|intros H; elim H; exact Hok].
        destruct (last (keys ++ ps_columns st ++ extra)); discriminate.
      + intros Hmaps Hrect column.
        destruct (last (keys ++ ps_columns st ++ extra)) as [c|] eqn:Hc; [|discriminate].
        intros [= <-]. apply last_Some_elem_of in Hc.
        apply elem_of_app in Hc as [Hc|Hc].
        * unfold column_rows in *.
          assert (Hall : Forall (fun cells => length cells = block_rows block)
                           (map col_cells keys)).
          { rewrite Hkeys. apply Forall_map. exact Hrect. }
          rewrite Forall_map, Forall_forall in Hall. apply Hall. exact Hc.
        * apply elem_of_app in Hc as [Hc|Hc].
          -- specialize (Hadded Hmaps). rewrite Forall_forall in Hadded.
             rewrite <- Hkrows. apply Hadded. exact Hc.
          -- rewrite Forall_forall in Hextra. rewrite <- Hkrows, <- Hfilter.
             apply Hextra. exact Hc.
    - split; [|discriminate]. split; [|intros H; elim H; exact Hok].
      intros [= ->]. apply joinBlockImpl_throws in Himpl. discriminate Himpl. }
  destruct (overDictionary hj).
  - destruct (dictionary_reader (table_join hj)) as [reader|]; simpl.
    2:{ split; [|discriminate]. split; [discriminate | intros H; elim H; exact Hok]. }
    destruct (hd [] lkeys.*1) as [|key_column others]; simpl.
    { split; [|discriminate]. split; [discriminate | intros H; elim H; exact Hok]. }
    destruct (reader key_column) as [[read_result found] positions]. simpl.
    apply Hlast.
    + apply joinRightColumns_filter. intros [_ H]. discriminate H.
    + intros _.
      apply joinRightColumns_left_any; try reflexivity; try assumption.
      intros d find i off mapped Hfind Hi. simpl in Hfind.
      destruct d as [|d]; [|discriminate Hfind].
      injection Hfind as <-. eapply dict_find_finds_rows. exact Hi.
  - destruct (is_join_variant (type (data hj))); simpl.
    2:{ split; [|discriminate]. split; [discriminate | intros H; elim H; exact Hok]. }
    apply Hlast.
    + apply joinRightColumns_filter. intros [_ H]. discriminate H.
    + intros Hmaps.
      apply joinRightColumns_left_any; try reflexivity; try assumption.
      intros d find i off mapped Hfind Hi. simpl in Hfind.
      rewrite list_lookup_imap in Hfind.
      destruct (lkeys.*1 !! d) as [key_columns|]; [|discriminate Hfind].
      simpl in Hfind. injection Hfind as <-. unfold hash_find in Hi.
      destruct d as [|d]; simpl in Hi.
      * destruct (maps (data hj) !! 0) as [m|] eqn:Hm; simpl in Hi.
        -- unfold maps_hold_rows in Hmaps. rewrite Forall_lookup in Hmaps.
           exact (Hmaps 0 m Hm _ _ Hi).
        -- rewrite lookup_empty in Hi. discriminate Hi.
      * destruct (maps (data hj) !! 0); simpl in Hi;
          rewrite lookup_empty in Hi; discriminate Hi.
Qed.

(** ** reuseJoinedData *)

(** X18: reuseJoinedData gives the instance the right storage of the
    other join and keeps its own kind and strictness; when the shape
    tracks used flags (and is not Cross) the flags are re-created for every
    table in turn, so they end up all clear with one entry per cell of the
    last table plus one; otherwise they stay as they were. *)
Theorem reuseJoinedData_flags (rt : Runtime) (hj join : HashJoin) :
  data (reuseJoinedData rt hj join) = data join
  /\ kind (reuseJoinedData rt hj join) = kind hj
  /\ strictness (reuseJoinedData rt hj join) = strictness hj
  /\ used_flags (reuseJoinedData rt hj join)
     = match last (maps (data join)) with
       | Some m =>
           if joinDispatch_matches (kind hj) (strictness hj)
              && flagged rt (kind hj) (strictness hj)
           then mkJoinUsedFlags true (replicate (getBufferSizeInCells rt m + 1) false)
           else used_flags hj
       | None => used_flags hj
       end.
Proof.
  unfold reuseJoinedData. cbv zeta.
  change (maps (data (set_data hj (data join)))) with (maps (data join)).
  assert (Hgen : forall ms h,
    data (foldl (fun hj map =>
                   if joinDispatch_matches (kind hj) (strictness hj)
                   then set_used_flags hj
                          (reinit rt (kind hj) (strictness hj)
                             (getBufferSizeInCells rt map + 1) (used_flags hj))
                   else hj) h ms) = data h
    /\ kind (foldl (fun hj map =>
                   if joinDispatch_matches (kind hj) (strictness hj)
                   then set_used_flags hj
                          (reinit rt (kind hj) (strictness hj)
                             (getBufferSizeInCells rt map + 1) (used_flags hj))
                   else hj) h ms) = kind h
    /\ strictness (foldl (fun hj map =>
                   if joinDispatch_matches (kind hj) (strictness hj)
                   then set_used_flags hj
                          (reinit rt (kind hj) (strictness hj)
                             (getBufferSizeInCells rt map + 1) (used_flags hj))
                   else hj) h ms) = strictness h
    /\ used_flags (foldl (fun hj map =>
                   if joinDispatch_matches (kind hj) (strictness hj)
                   then set_used_flags hj
                          (reinit rt (kind hj) (strictness hj)
                             (getBufferSizeInCells rt map + 1) (used_flags hj))
                   else hj) h ms)
       = match last ms with
         | Some m =>
             if joinDispatch_matches (kind h) (strictness h)
                && flagged rt (kind h) (strictness h)
             then mkJoinUsedFlags true (replicate (getBufferSizeInCells rt m + 1) false)
             else used_flags h
         | None => used_flags h
         end).
  { induction ms as [|m ms IH] using rev_ind; intros h.
    - repeat split.
    - rewrite foldl_app, last_snoc. cbn [foldl].
      destruct (IH h) as (H1 & H2 & H3 & H4).
      set (h' := foldl _ h ms) in *. rewrite H2, H3.
      destruct (joinDispatch_matches (kind h) (strictness h)); cbn [andb].
      + change (data (set_used_flags h' ?f)) with (data h').
        change (kind (set_used_flags h' ?f)) with (kind h').
        change (strictness (set_used_flags h' ?f)) with (strictness h').
        change (used_flags (set_used_flags h' ?f)) with f.
        split; [exact H1|]. split; [exact H2|]. split; [exact H3|].
        unfold reinit.
        destruct (flagged rt (kind h) (strictness h)); [reflexivity|].
        rewrite H4. destruct (last ms); reflexivity.
      + split; [exact H1|]. split; [exact H2|]. split; [exact H3|].
        rewrite H4. destruct (last ms); reflexivity. }
  destruct (Hgen (maps (data join)) (set_data hj (data join))) as (H1 & H2 & H3 & H4).
  split; [exact H1|]. split; [exact H2|]. split; [exact H3|]. exact H4.
Qed.

(** ** The stream of non-joined rows *)

Lemma rows_columns_app (stored : list Block) (a b : list RowRef) (columns : list Column) :
  rows_columns stored (a ++ b) columns
  = rows_columns stored b (rows_columns stored a columns).
Proof. unfold rows_columns. apply foldl_app. Qed.

Lemma AdderNonJoined_add_rows (stored : list Block) (mapped : Mapped) (n : nat)
    (columns : list Column) :
  AdderNonJoined_add stored mapped n columns
  = (n + length (mapped_chain mapped), rows_columns stored (mapped_chain mapped) columns).
Proof.
  unfold AdderNonJoined_add, rows_columns. destruct mapped as [r|l|a]; simpl.
  - f_equal. lia.
  - generalize (rl_next l) as chain. generalize (insert_stored_row stored (rl_head l) columns).
    generalize n. intros n0 cols chain. revert n0 cols.
    induction chain as [|it chain IH]; intros n0 cols; simpl.
    + f_equal. lia.
    + rewrite IH. f_equal. lia.
  - f_equal. lia.
Qed.

(** One run of the table loop: it passes a prefix of the cells, appends
    the rows of the unused ones, and stops early only once max_block_size
    rows have been added. *)
Lemma fillColumns_loop_rows (hj : HashJoin) (max_block_size : nat)
    (it : list (nat * Mapped)) :
  forall rows_added columns,
    exists visited rest,
      it = visited ++ rest
      /\ fillColumns_loop hj max_block_size it rows_added columns
         = (rows_added + length (unused_rows hj visited),
            rows_columns (blocks (data hj)) (unused_rows hj visited) columns,
            rest)
      /\ (rest = [] \/ max_block_size <= rows_added + length (unused_rows hj visited)).
Proof.
  induction it as [|[off mapped] it IH]; intros rows_added columns.
  - exists [], []. simpl. rewrite Nat.add_0_r. repeat split. left. reflexivity.
  - cbn [fillColumns_loop]. destruct (isUsed hj off) eqn:Hused.
    + destruct (IH rows_added columns) as (visited & rest & -> & Hrun & Hstop).
      exists ((off, mapped) :: visited), rest. split; [reflexivity|].
      unfold unused_rows in *. simpl. rewrite Hused. simpl. split; assumption.
    + rewrite AdderNonJoined_add_rows.
      destruct (Nat.leb_spec max_block_size (rows_added + length (mapped_chain mapped)))
        as [Hfull|Hmore].
      * exists [(off, mapped)], it. split; [reflexivity|].
        unfold unused_rows. simpl. rewrite Hused. simpl. rewrite app_nil_r.
        split; [reflexivity | right; exact Hfull].
      * destruct (IH (rows_added + length (mapped_chain mapped))
                    (rows_columns (blocks (data hj)) (mapped_chain mapped) columns))
          as (visited & rest & -> & Hrun & Hstop).
        exists ((off, mapped) :: visited), rest. split; [reflexivity|].
        unfold unused_rows in *. simpl. rewrite Hused. simpl.
        rewrite length_app, rows_columns_app, Nat.add_assoc. split; assumption.
Qed.

Lemma fill_null_rows_rows (stored : list Block) (block : nat) (nullmap : list bool)
    (n : nat) (columns : list Column) :
  fill_null_rows stored block nullmap n columns
  = (n + length (null_rows [(block, nullmap)]),
     rows_columns stored (null_rows [(block, nullmap)]) columns).
Proof.
  unfold fill_null_rows, null_rows. simpl. rewrite app_nil_r.
  generalize (seq 0 (length nullmap)) as rows. intros rows. revert n columns.
  induction rows as [|row rows IH]; intros n columns; simpl.
  - f_equal. lia.
  - destruct (default false (nullmap !! row)); simpl; rewrite IH; [|reflexivity].
    f_equal. lia.
Qed.

Lemma null_rows_app (a b : list (nat * list bool)) :
  null_rows (a ++ b) = null_rows a ++ null_rows b.
Proof. unfold null_rows. apply flat_map_app. Qed.

(** One run of the loop over the saved null maps: whole entries only, none
    when max_block_size rows are there already. *)
Lemma fillNullsFromBlocks_loop_rows (stored : list Block) (max_block_size : nat)
    (it : list (nat * list bool)) :
  forall rows_added columns,
    exists visited rest,
      it = visited ++ rest
      /\ fillNullsFromBlocks_loop stored max_block_size it rows_added columns
         = (rows_added + length (null_rows visited),
            rows_columns stored (null_rows visited) columns, rest)
      /\ (rest = [] \/ max_block_size <= rows_added + length (null_rows visited))
      /\ (max_block_size <= rows_added -> visited = []).
Proof.
  induction it as [|[block nullmap] it IH]; intros rows_added columns.
  - exists [], []. simpl. rewrite Nat.add_0_r. repeat split. left. reflexivity.
  - cbn [fillNullsFromBlocks_loop].
    destruct (Nat.ltb_spec rows_added max_block_size) as [Hroom|Hfull].
    + rewrite fill_null_rows_rows.
      destruct (IH (rows_added + length (null_rows [(block, nullmap)]))
                  (rows_columns stored (null_rows [(block, nullmap)]) columns))
        as (visited & rest & -> & Hrun & Hstop & _).
      exists ((block, nullmap) :: visited), rest. split; [reflexivity|].
      change ((block, nullmap) :: visited) with ([(block, nullmap)] ++ visited).
      rewrite null_rows_app, length_app, rows_columns_app, Nat.add_assoc.
      split; [exact Hrun|]. split; [exact Hstop | lia].
    + exists [], ((block, nullmap) :: it). simpl. rewrite Nat.add_0_r.
      split; [reflexivity|]. split; [reflexivity|]. split; [right; exact Hfull|].
      reflexivity.
Qed.

Lemma unused_rows_app (hj : HashJoin) (a b : list (nat * Mapped)) :
  unused_rows hj (a ++ b) = unused_rows hj a ++ unused_rows hj b.
Proof. unfold unused_rows. rewrite List.filter_app. apply flat_map_app. Qed.

Lemma unused_rows_nil (hj : HashJoin) (visited : list (nat * Mapped)) :
  visited = [] -> unused_rows hj visited = [].
Proof. intros ->. reflexivity. Qed.

(** One read of a stream that has blocks, a table variant and a positive
    block size: it ends the stream only when no row is left, and otherwise
    returns the NotJoined block of a non-empty run of the rows left. *)
Lemma createBlock_step (NotJoined_block : Block -> nat -> list Column -> Block)
    (hj : HashJoin) (stream : NonJoinedBlockInputStream) (pos : NonJoinedPosition) :
  0 < nj_max_block_size stream ->
  is_join_variant (type (data hj)) = true ->
  kind hj <> Cross ->
  match createBlock NotJoined_block hj stream pos with
  | (Ok None, pos') => rows_left hj pos = []
  | (Ok (Some block), pos') =>
      exists refs,
        refs <> []
        /\ block
           = NotJoined_block (nj_result_sample_block stream) (length refs)
               (rows_columns (blocks (data hj)) refs
                  (map cloneEmpty (sample_block (data hj))))
        /\ rows_left hj pos = refs ++ rows_left hj pos'
        /\ entries_left hj pos' < entries_left hj pos
  | (Throw _, _) => False
  end.
Proof.
  intros Hmax Hvariant Hcross. unfold createBlock, fillColumnsFromMap, fillColumns,
    fillNullsFromBlocks, rows_left, entries_left.
  unfold joinDispatch_matches. rewrite (bool_decide_eq_false_2 _ Hcross), Hvariant.
  cbn [negb]. cbv zeta.
  set (it := default (map_cells (default ∅ (maps (data hj) !! 0))) (position pos)).
  set (nit := default (blocks_nullmaps (data hj)) (nulls_position pos)).
  destruct (fillColumns_loop_rows hj (nj_max_block_size stream) it 0
              (map cloneEmpty (sample_block (data hj))))
    as (visited & rest & Hit & -> & Hstop).
  destruct (fillNullsFromBlocks_loop_rows (blocks (data hj)) (nj_max_block_size stream)
              nit (0 + length (unused_rows hj visited))
              (rows_columns (blocks (data hj)) (unused_rows hj visited)
                 (map cloneEmpty (sample_block (data hj)))))
    as (nvisited & nrest & Hnit & -> & Hnstop & Hnone).
  rewrite Hit, Hnit, unused_rows_app, null_rows_app. cbn [position nulls_position default].
  simpl (0 + _) in *.
  destruct (bool_decide_reflect
              (length (unused_rows hj visited) + length (null_rows nvisited) = 0))
    as [Hzero|Hrows].
  - assert (H1 : unused_rows hj visited = []) by (apply length_zero_iff_nil; lia).
    assert (H2 : null_rows nvisited = []) by (apply length_zero_iff_nil; lia).
    rewrite H1, H2 in *. simpl in *.
    destruct Hstop as [-> | Hstop]; [|lia].
    destruct Hnstop as [-> | Hnstop]; [|lia]. reflexivity.
  - exists (unused_rows hj visited ++ null_rows nvisited).
    split; [intros Hnil; apply Hrows; rewrite <- length_app, Hnil; reflexivity|].
    split; [rewrite length_app, rows_columns_app; reflexivity|].
    split.
    + destruct Hstop as [-> | Hfull].
      * simpl. rewrite !app_nil_r, <- app_assoc. reflexivity.
      * rewrite (Hnone Hfull). simpl. rewrite !app_nil_r, <- app_assoc. reflexivity.
    + rewrite !length_app.
      destruct visited as [|v visited']; [|simpl; lia].
      destruct nvisited as [|nv nvisited']; [|simpl; lia].
      exfalso. apply Hrows. reflexivity.
Qed.

(** X17: a reader that pulls blocks from the stream of non-joined rows
    until it ends receives, block after block, runs of the right rows left
    at the position it started from: the rows of the cells of maps[0]
    whose used flag is clear, then the rows marked in the saved null maps.
    Every block holds at least one row, and the runs, concatenated, are
    exactly those rows: none is lost when a block fills up and none comes
    twice. *)
Theorem nonjoined_stream_complete
    (NotJoined_block : Block -> nat -> list Column -> Block) (hj : HashJoin)
    (stream : NonJoinedBlockInputStream) (fuel : nat) (pos : NonJoinedPosition) :
  0 < nj_max_block_size stream ->
  is_join_variant (type (data hj)) = true ->
  kind hj <> Cross ->
  blocks (data hj) <> [] ->
  entries_left hj pos < fuel ->
  exists runs,
    read_all NotJoined_block fuel hj stream pos
    = map (fun refs =>
             NotJoined_block (nj_result_sample_block stream) (length refs)
               (rows_columns (blocks (data hj)) refs
                  (map cloneEmpty (sample_block (data hj)))))
        runs
    /\ concat runs = rows_left hj pos
    /\ Forall (fun refs => refs <> []) runs.
Proof.
  intros Hmax Hvariant Hcross Hblocks. revert pos.
  induction fuel as [|fuel IH]; intros pos Hfuel; [lia|].
  cbn [read_all]. unfold readImpl.
  rewrite (bool_decide_eq_false_2 _ Hblocks).
  pose proof (createBlock_step NotJoined_block hj stream pos Hmax Hvariant Hcross) as Hstep.
  destruct (createBlock NotJoined_block hj stream pos) as [[[block|]|e] pos'].
  - destruct Hstep as (refs & Hne & -> & Hrows & Hless).
    destruct (IH pos') as (runs & Hread & Hconcat & Hall); [lia|].
    exists (refs :: runs). rewrite Hread. simpl. rewrite Hconcat, Hrows.
    split; [reflexivity|]. split; [reflexivity|]. constructor; assumption.
  - exists []. rewrite Hstep. split; [reflexivity|]. split; [reflexivity | constructor].
  - contradiction.
Qed.

Lemma nonjoined_stream_complete_witness :
  exists runs,
    read_all right_columns_only 5 s3_probed s3_stream (mkNonJoinedPosition None None)
    = map (fun refs =>
             right_columns_only (nj_result_sample_block s3_stream) (length refs)
               (rows_columns (blocks (data s3_probed)) refs
                  (map cloneEmpty (sample_block (data s3_probed)))))
        runs
    /\ concat runs = rows_left s3_probed (mkNonJoinedPosition None None)
    /\ Forall (fun refs => refs <> []) runs.
Proof.
  apply (nonjoined_stream_complete right_columns_only s3_probed s3_stream 5
           (mkNonJoinedPosition None None)).
  - vm_compute. lia.
  - vm_compute. reflexivity.
  - vm_compute. discriminate.
  - vm_compute. discriminate.
  - vm_compute. lia.
Defined.
